(** * HomeSync: the rotation and scheduling engine of [app.py]

    A shallow embedding of the SQLAlchemy models, of [NotificationService],
    of [RotationService] and of one sweep of [run_scheduled_tasks], followed
    by the properties of the rotation ring, of the rotation transaction, of
    rotation due-ness and of the reminder pass. *)

From Stdlib Require Import ZArith List String Ascii Bool Lia.
Import ListNotations.
Local Open Scope string_scope.
Local Open Scope Z_scope.

(** ** Models

    One record per [db.Model] class, one field per column the engine reads or
    writes.  Nullable columns that the code tests for presence are options.
    The bookkeeping columns [created_at], [updated_at], [sent_at] and the
    surrogate keys of the two append-only tables are never read by the engine
    and are left out.  Date-times are microseconds on the time line of a naive
    [datetime]. *)

Module Household.
Record t := mk
  { id : Z; name : string; code : string; rotation_mode : string }.
End Household.

Module Member.
Record t := mk
  { id : Z; name : string; is_admin : bool; household_id : Z }.
End Member.

Module Chore.
Record t := mk
  { id : Z;
    title : string;
    description : string;
    days : list string;
    assigned_to : option string;
    completed : bool;
    household_id : Z }.
End Chore.

Module Notification.
Record t := mk
  { member_name : string;
    chore_title : string;
    notification_type : string;
    message : string;
    household_id : Z;
    chore_id : option Z }.
End Notification.

Module RotationHistory.
Record t := mk
  { household_id : Z;
    chore_id : Z;
    previous_assigned_to : option string;
    new_assigned_to : option string;
    rotation_date : Z;
    rotation_type : string }.
End RotationHistory.

Module MemberPreference.
Record t := mk
  { member_name : string;
    household_id : Z;
    email : option string;
    phone : option string;
    notification_enabled : bool;
    reminder_time : option string;
    reminder_days_before : Z }.
End MemberPreference.

(** An e-mail handed to the SMTP server. *)
Record Email := mkEmail
  { to_email : string; subject : string; body : string }.

(** ** The database and the session

    Tables are lists in load order.  A session holds the rows as the current
    transaction sees them ([working]) next to what is committed and visible
    to everyone else ([committed]); [outbox] collects the delivered mail. *)

Record Db := mkDb
  { households : list Household.t;
    members : list Member.t;
    chores : list Chore.t;
    notifications : list Notification.t;
    rotation_history : list RotationHistory.t;
    member_preferences : list MemberPreference.t }.

Record Session := mkSession
  { committed : Db; working : Db; outbox : list Email }.

Inductive Table :=
| THousehold | TMember | TChore | TNotification | TRotationHistory
| TMemberPreference.

(** The environment of a call: the two clocks and which operations fail. *)
Record Env := mkEnv
  { now : Z;                                  (* datetime.now() *)
    current_timestamp : Z;                    (* db.func.current_timestamp() *)
    read_fails : Table -> bool;               (* a query on the table raises *)
    commit_fails : bool;                      (* the commit of a unit raises *)
    insert_fails : Notification.t -> bool;    (* writing this log row raises *)
    smtp_fails : Email -> bool }.             (* no credentials, SMTP raises *)

(** ** Exceptions and the session monad *)

Inductive exn := ValueError | IndexError | TypeError | StorageError.

Definition exn_eqb (a b : exn) : bool :=
  match a, b with
  | ValueError, ValueError | IndexError, IndexError
  | TypeError, TypeError | StorageError, StorageError => true
  | _, _ => false
  end.

Inductive outcome (A : Type) :=
| Ok (a : A)
| Raise (e : exn).
Arguments Ok {A} a.
Arguments Raise {A} e.

(** A raise keeps the session as it was when the exception left. *)
Definition M (A : Type) := Session -> outcome A * Session.

Definition ret {A} (a : A) : M A := fun s => (Ok a, s).

Definition bind {A B} (m : M A) (k : A -> M B) : M B :=
  fun s => match m s with
           | (Ok a, s') => k a s'
           | (Raise e, s') => (Raise e, s')
           end.

Definition raise {A} (e : exn) : M A := fun s => (Raise e, s).

(** [try: body / except Exception: handler] *)
Definition try_except {A} (body : M A) (handler : exn -> M A) : M A :=
  fun s => match body s with
           | (Ok a, s') => (Ok a, s')
           | (Raise e, s') => handler e s'
           end.

(** [try: body / except E: handler], other exceptions pass through. *)
Definition try_except_on {A} (body : M A) (E : exn) (handler : M A) : M A :=
  try_except body (fun e => if exn_eqb e E then handler else raise e).

Notation "x <- m ;; k" := (bind m (fun x => k))
  (at level 61, m at next level, right associativity).
Notation "m ;;; k" := (bind m (fun _ => k))
  (at level 61, right associativity).

Fixpoint for_each {A} (xs : list A) (body : A -> M unit) : M unit :=
  match xs with
  | [] => ret tt
  | x :: xs' => body x ;;; for_each xs' body
  end.

(** *** Session primitives *)

Definition query {A} (env : Env) (t : Table) (q : Db -> A) : M A :=
  fun s => if read_fails env t then (Raise StorageError, s)
           else (Ok (q (working s)), s).

(** Attribute reads on objects the session already holds. *)
Definition session_objects {A} (q : Db -> A) : M A :=
  fun s => (Ok (q (working s)), s).

Definition modify_working (f : Db -> Db) : M unit :=
  fun s => (Ok tt, mkSession (committed s) (f (working s)) (outbox s)).

Definition commit (fails : bool) : M unit :=
  fun s => if fails then (Raise StorageError, s)
           else (Ok tt, mkSession (working s) (working s) (outbox s)).

Definition rollback : M unit :=
  fun s => (Ok tt, mkSession (committed s) (committed s) (outbox s)).

Definition deliver (e : Email) : M unit :=
  fun s => (Ok tt, mkSession (committed s) (working s) (outbox s ++ [e])).

(** *** Python list operations that raise *)

Fixpoint index_of (x : string) (l : list string) : option nat :=
  match l with
  | [] => None
  | y :: l' => if (y =? x)%string then Some O
               else option_map S (index_of x l')
  end.

(** [l.index(x)] *)
Definition list_index (l : list string) (x : string) : M nat :=
  match index_of x l with
  | Some i => ret i
  | None => raise ValueError
  end.

(** [l[i]] *)
Definition list_get (l : list string) (i : nat) : M string :=
  match nth_error l i with
  | Some x => ret x
  | None => raise IndexError
  end.

(** ** Queries *)

Definition Household_get (household_id : Z) (db : Db) : option Household.t :=
  find (fun h => Household.id h =? household_id) (households db).

Definition Chore_filter_by (household_id : Z) (db : Db) : list Chore.t :=
  filter (fun c => Chore.household_id c =? household_id) (chores db).

Definition Member_filter_by (household_id : Z) (db : Db) : list Member.t :=
  filter (fun m => Member.household_id m =? household_id) (members db).

Definition Chore_filter_incomplete (household_id : Z) (db : Db)
  : list Chore.t :=
  filter (fun c => (Chore.household_id c =? household_id)
                   && negb (Chore.completed c)) (chores db).

(** [MemberPreference.query.filter_by(household_id=.., member_name=..).first()];
    a null [member_name] matches no row, the column being non-null. *)
Definition MemberPreference_first (household_id : Z)
  (member_name : option string) (db : Db) : option MemberPreference.t :=
  match member_name with
  | None => None
  | Some n =>
      find (fun p => (MemberPreference.household_id p =? household_id)
                     && (MemberPreference.member_name p =? n)%string)
           (member_preferences db)
  end.

(** The first row in descending [rotation_date] order. *)
Fixpoint latest (rows : list RotationHistory.t) : option RotationHistory.t :=
  match rows with
  | [] => None
  | r :: rows' =>
      match latest rows' with
      | None => Some r
      | Some r' =>
          if RotationHistory.rotation_date r' <=? RotationHistory.rotation_date r
          then Some r else Some r'
      end
  end.

Definition RotationHistory_last (household_id : Z) (db : Db)
  : option RotationHistory.t :=
  latest (filter (fun r => RotationHistory.household_id r =? household_id)
                 (rotation_history db)).

(** ** Session writes *)

Definition insert_rotation_history (r : RotationHistory.t) (db : Db) : Db :=
  mkDb (households db) (members db) (chores db) (notifications db)
       (rotation_history db ++ [r]) (member_preferences db).

Definition insert_notification (n : Notification.t) (db : Db) : Db :=
  mkDb (households db) (members db) (chores db) (notifications db ++ [n])
       (rotation_history db) (member_preferences db).

Definition reassign (new_assigned_to : string) (c : Chore.t) : Chore.t :=
  Chore.mk (Chore.id c) (Chore.title c) (Chore.description c) (Chore.days c)
           (Some new_assigned_to) false (Chore.household_id c).

Definition update_assignment (chore_id : Z) (new_assigned_to : string)
  (db : Db) : Db :=
  mkDb (households db) (members db)
       (map (fun c => if Chore.id c =? chore_id
                      then reassign new_assigned_to c else c) (chores db))
       (notifications db) (rotation_history db) (member_preferences db).

(** [db.session.add(rotation_history)] *)
Definition add_rotation_history (r : RotationHistory.t) : M unit :=
  modify_working (insert_rotation_history r).

(** [db.session.add(notification)] *)
Definition add_notification (n : Notification.t) : M unit :=
  modify_working (insert_notification n).

(** [chore.assigned_to = ..; chore.completed = False] on the session's object
    with this primary key. *)
Definition set_assignment (chore_id : Z) (new_assigned_to : string) : M unit :=
  modify_working (update_assignment chore_id new_assigned_to).

(** ** NotificationService *)

(** [send_email_notification]: [False] without credentials or when the
    transport raises, otherwise the mail leaves and the result is [True]. *)
Definition send_email_notification (env : Env) (to_ subj msg : string)
  : M bool :=
  let e := mkEmail to_ subj msg in
  if smtp_fails env e then ret false else deliver e ;;; ret true.

Definition create_notification_record (env : Env) (household_id : Z)
  (member_name : option string)
  (chore_title notification_type message : string)
  (chore_id : option Z) : M bool :=
  try_except
    (match member_name with
     | None => raise StorageError        (* member_name is NOT NULL *)
     | Some n =>
         let notification :=
           Notification.mk n chore_title notification_type message
                           household_id chore_id in
         add_notification notification ;;;
         commit (insert_fails env notification) ;;;
         ret true
     end)
    (fun _ => rollback ;;; ret false).

(** ** RotationService.rotate_chores *)

(** [", ".join(titles)] *)
Fixpoint join_titles (titles : list string) : string :=
  match titles with
  | [] => ""
  | [t] => t
  | t :: rest => t ++ ", " ++ join_titles rest
  end.

Definition is_nil {A} (l : list A) : bool :=
  match l with [] => true | _ => false end.

(** The body of [for chore in chores]. *)
Definition rotate_chore (env : Env) (household_id : Z) (rotation_type : string)
  (member_names : list string) (chore : Chore.t) : M unit :=
  match Chore.assigned_to chore with
  | None => ret tt
  | Some assigned =>
      if (assigned =? "")%string then ret tt else
      try_except_on
        (current_index <- list_index member_names assigned ;;
         let next_index :=
           ((current_index + 1) mod List.length member_names)%nat in
         new_assigned_to <- list_get member_names next_index ;;
         add_rotation_history
           (RotationHistory.mk household_id (Chore.id chore) (Some assigned)
              (Some new_assigned_to) (current_timestamp env) rotation_type) ;;;
         set_assignment (Chore.id chore) new_assigned_to)
        ValueError
        (first <- list_get member_names 0 ;;
         set_assignment (Chore.id chore) first)
  end.

(** The body of [for member in members] after the commit. *)
Definition notify_member (env : Env) (household_id : Z) (member : Member.t)
  : M unit :=
  chores <- session_objects (Chore_filter_by household_id) ;;
  let member_chores :=
    filter (fun c => match Chore.assigned_to c with
                     | Some a => (a =? Member.name member)%string
                     | None => false
                     end) chores in
  if is_nil member_chores then ret tt else
  let message := "Chore rotation complete! Your new chores: "
                 ++ join_titles (map Chore.title member_chores) in
  _ <- create_notification_record env household_id
         (Some (Member.name member)) "Rotation Complete" "rotation" message
         None ;;
  preference <- query env TMemberPreference
                  (MemberPreference_first household_id
                     (Some (Member.name member))) ;;
  match preference with
  | Some p =>
      match MemberPreference.email p with
      | Some addr =>
          if negb (addr =? "")%string && MemberPreference.notification_enabled p
          then _ <- send_email_notification env addr
                      "HomeSync: New Chores Assigned" message ;; ret tt
          else ret tt
      | None => ret tt
      end
  | None => ret tt
  end.

Definition rotate_chores (env : Env) (household_id : Z)
  (rotation_type : string) : M bool :=
  try_except
    (household <- query env THousehold (Household_get household_id) ;;
     match household with
     | None => ret false
     | Some _ =>
         chores <- query env TChore (Chore_filter_by household_id) ;;
         members <- query env TMember (Member_filter_by household_id) ;;
         if is_nil chores || is_nil members then ret false else
         let member_names := map Member.name members in
         for_each chores
           (rotate_chore env household_id rotation_type member_names) ;;;
         commit (commit_fails env) ;;;
         for_each members (notify_member env household_id) ;;;
         ret true
     end)
    (fun _ => rollback ;;; ret false).

(** ** RotationService.should_rotate *)

Definition us_per_day : Z := 86400 * 1000000.

(** [timedelta.days]: a timedelta is normalised with its seconds and
    microseconds non-negative, so [days] is the floor of the quotient. *)
Definition timedelta_days (delta : Z) : Z := delta / us_per_day.

Definition should_rotate (env : Env) (household_id : Z) : M bool :=
  try_except
    (household <- query env THousehold (Household_get household_id) ;;
     match household with
     | None => ret false
     | Some h =>
         let mode := Household.rotation_mode h in
         if (mode =? "none")%string then ret false else
         last_rotation <- query env TRotationHistory
                            (RotationHistory_last household_id) ;;
         match last_rotation with
         | None => ret true
         | Some r =>
             let days_since_rotation :=
               timedelta_days (now env - RotationHistory.rotation_date r) in
             if (mode =? "weekly")%string && (7 <=? days_since_rotation)
             then ret true
             else if (mode =? "biweekly")%string && (14 <=? days_since_rotation)
             then ret true
             else if (mode =? "monthly")%string && (30 <=? days_since_rotation)
             then ret true
             else ret false
         end
     end)
    (fun _ => ret false).

(** ** run_scheduled_tasks: one sweep *)

Definition weekday_names : list string :=
  ["Monday"; "Tuesday"; "Wednesday"; "Thursday"; "Friday"; "Saturday";
   "Sunday"].

(** [strftime('%A')]; day 0 of the time line is a Thursday. *)
Definition strftime_A (t : Z) : string :=
  nth (Z.to_nat ((t / us_per_day + 3) mod 7)) weekday_names "".

Definition digit (n : Z) : ascii := ascii_of_nat (48 + Z.to_nat n).

Definition two_digits (n : Z) : string :=
  String (digit (n / 10)) (String (digit (n mod 10)) "").

Definition hhmm (h m : Z) : string := two_digits h ++ ":" ++ two_digits m.

(** [strftime('%H:%M')] *)
Definition strftime_HM (t : Z) : string :=
  let secs := (t / 1000000) mod 86400 in
  hhmm (secs / 3600) ((secs mod 3600) / 60).

(** The body of [for chore in chores] of the reminder pass. *)
Definition remind_chore (env : Env) (household : Household.t)
  (chore : Chore.t) : M unit :=
  if is_nil (Chore.days chore) then ret tt else
  let today := strftime_A (now env) in
  if negb (existsb (String.eqb today) (Chore.days chore)) then ret tt else
  preference <- query env TMemberPreference
                  (MemberPreference_first (Household.id household)
                     (Chore.assigned_to chore)) ;;
  match preference with
  | None => ret tt
  | Some p =>
      if negb (MemberPreference.notification_enabled p) then ret tt else
      match MemberPreference.reminder_time p with
      | None => raise TypeError          (* str >= None *)
      | Some reminder_time =>
          let current_time := strftime_HM (now env) in
          if String.leb reminder_time current_time then
            let message :=
              "Reminder: " ++ Chore.title chore ++ " is due today!" in
            _ <- create_notification_record env (Household.id household)
                   (Chore.assigned_to chore) (Chore.title chore) "reminder"
                   message (Some (Chore.id chore)) ;;
            match MemberPreference.email p with
            | Some addr =>
                if (addr =? "")%string then ret tt else
                _ <- send_email_notification env addr
                       ("HomeSync Reminder: " ++ Chore.title chore) message ;;
                ret tt
            | None => ret tt
            end
          else ret tt
      end
  end.

(** The body of [for household in households]; an error is printed and the
    loop continues with the next household. *)
Definition process_household (env : Env) (household : Household.t) : M unit :=
  try_except
    (due <- should_rotate env (Household.id household) ;;
     (if due
      then _ <- rotate_chores env (Household.id household)
                  (Household.rotation_mode household) ;; ret tt
      else ret tt) ;;;
     chores <- query env TChore
                 (Chore_filter_incomplete (Household.id household)) ;;
     for_each chores (remind_chore env household))
    (fun _ => ret tt).

(** One iteration of [while True], without the sleep. *)
Definition sweep (env : Env) : M unit :=
  try_except
    (households <- query env THousehold households ;;
     for_each households (process_household env))
    (fun _ => ret tt).

(** ** join_household: where member names are kept unique *)

Record JoinRequest := mkJoin
  { j_name : string;
    j_is_admin : bool;
    j_email : option string;
    j_phone : option string;
    j_notification_enabled : bool;
    j_reminder_time : option string;
    j_reminder_days_before : Z }.

Definition Household_by_code (code : string) (db : Db) : option Household.t :=
  find (fun h => (Household.code h =? code)%string) (households db).

Definition Member_first (household_id : Z) (name : string) (db : Db)
  : option Member.t :=
  find (fun m => (Member.household_id m =? household_id)
                 && (Member.name m =? name)%string) (members db).

(** The next value of the autoincrement key. *)
Definition next_member_id (db : Db) : Z :=
  1 + fold_right Z.max 0 (map Member.id (members db)).

Definition insert_member (m : Member.t) (db : Db) : Db :=
  mkDb (households db) (members db ++ [m]) (chores db) (notifications db)
       (rotation_history db) (member_preferences db).

Definition insert_preference (p : MemberPreference.t) (db : Db) : Db :=
  mkDb (households db) (members db) (chores db) (notifications db)
       (rotation_history db) (member_preferences db ++ [p]).

(** The [reminder_time] of the preference row a join inserts: the value of
    the request, and for a null the column default ["09:00"] of the model,
    since the INSERT leaves a null attribute of a column with a default out. *)
Definition stored_reminder_time (data : JoinRequest) : string :=
  match j_reminder_time data with
  | Some t => t
  | None => "09:00"
  end.

(** The route, returning its HTTP status. *)
Definition join_household (env : Env) (code : string) (data : JoinRequest)
  : M Z :=
  household <- query env THousehold (Household_by_code code) ;;
  match household with
  | None => ret 404
  | Some h =>
      existing_member <- query env TMember
                           (Member_first (Household.id h) (j_name data)) ;;
      match existing_member with
      | Some _ => ret 200
      | None =>
          try_except
            (member_id <- session_objects next_member_id ;;
             modify_working
               (insert_member (Member.mk member_id (j_name data)
                                 (j_is_admin data) (Household.id h))) ;;;
             modify_working
               (insert_preference
                  (MemberPreference.mk (j_name data) (Household.id h)
                     (j_email data) (j_phone data)
                     (j_notification_enabled data)
                     (Some (stored_reminder_time data))
                     (j_reminder_days_before data))) ;;;
             commit (commit_fails env) ;;;
             _ <- create_notification_record env (Household.id h)
                    (Some (j_name data)) "Welcome" "welcome"
                    ("Welcome to " ++ Household.name h
                     ++ "! You've successfully joined the household.")
                    None ;;
             ret 201)
            (fun _ => rollback ;;; ret 500)
      end
  end.

(** ** The rotation loop, row by row *)

(** The assignee a rotation gives to a chore held by [assigned]. *)
Definition successor (member_names : list string) (assigned : string)
  : option string :=
  match index_of assigned member_names with
  | Some i =>
      nth_error member_names ((i + 1) mod List.length member_names)%nat
  | None => nth_error member_names 0
  end.

Definition next_assignee (member_names : list string) (c : Chore.t)
  : option string :=
  match Chore.assigned_to c with
  | None => None
  | Some a => if (a =? "")%string then None else successor member_names a
  end.

Definition retarget (member_names : list string) (c r : Chore.t) : Chore.t :=
  match next_assignee member_names c with
  | Some n => reassign n r
  | None => r
  end.

Definition history_rows (env : Env) (household_id : Z) (rotation_type : string)
  (member_names : list string) (c : Chore.t) : list RotationHistory.t :=
  match Chore.assigned_to c with
  | None => []
  | Some a =>
      if (a =? "")%string then [] else
      match index_of a member_names with
      | Some i =>
          match nth_error member_names
                  ((i + 1) mod List.length member_names)%nat with
          | Some n =>
              [RotationHistory.mk household_id (Chore.id c) (Some a) (Some n)
                 (current_timestamp env) rotation_type]
          | None => []
          end
      | None => []
      end
  end.

Definition step_db (env : Env) (household_id : Z) (rotation_type : string)
  (member_names : list string) (c : Chore.t) (db : Db) : Db :=
  mkDb (households db) (members db)
       (map (fun r => if Chore.id r =? Chore.id c
                      then retarget member_names c r else r) (chores db))
       (notifications db)
       (rotation_history db
        ++ history_rows env household_id rotation_type member_names c)
       (member_preferences db).

Definition run_loop env hid rt names cs db :=
  fold_left (fun db c => step_db env hid rt names c db) cs db.

(** What a rotation makes of a row of the chore table. *)
Definition rotate_row (household_id : Z) (member_names : list string)
  (r : Chore.t) : Chore.t :=
  if Chore.household_id r =? household_id
  then retarget member_names r r else r.

(** ** Sessions without pending changes *)

Definition clean (s : Session) : Prop := working s = committed s.

Record log_only (s s' : Session) : Prop := mk_log_only
  { lo_households : households (committed s') = households (committed s);
    lo_members : members (committed s') = members (committed s);
    lo_chores : chores (committed s') = chores (committed s);
    lo_history :
      rotation_history (committed s') = rotation_history (committed s);
    lo_preferences :
      member_preferences (committed s') = member_preferences (committed s);
    lo_notifications :
      exists l, notifications (committed s')
                = (notifications (committed s) ++ l)%list;
    lo_outbox : exists m, outbox s' = (outbox s ++ m)%list }.

Definition ring (household_id : Z) (db : Db) : list string :=
  map Member.name (Member_filter_by household_id db).

Definition names_unique (db : Db) : Prop :=
  forall household_id, NoDup (ring household_id db).

(** Steps 1 to 4 go through: the reads succeed, the household exists and has
    chores and members. *)
Definition reaches_commit (env : Env) (household_id : Z) (db : Db) : bool :=
  negb (read_fails env THousehold)
  && (match Household_get household_id db with Some _ => true | None => false end)
  && negb (read_fails env TChore)
  && negb (read_fails env TMember)
  && negb (is_nil (Chore_filter_by household_id db))
  && negb (is_nil (Member_filter_by household_id db)).

Record rotated (env : Env) (household_id : Z) (rotation_type : string)
  (db : Db) (ob : list Email) (s' : Session) : Prop := mk_rotated
  { ro_clean : working s' = committed s';
    ro_chores :
      chores (committed s')
      = map (rotate_row household_id (ring household_id db)) (chores db);
    ro_history :
      rotation_history (committed s')
      = (rotation_history db
         ++ flat_map (history_rows env household_id rotation_type
                        (ring household_id db))
                     (Chore_filter_by household_id db))%list;
    ro_households : households (committed s') = households db;
    ro_members : members (committed s') = members db;
    ro_preferences : member_preferences (committed s') = member_preferences db;
    ro_notifications :
      exists l, notifications (committed s') = (notifications db ++ l)%list;
    ro_outbox : exists m, outbox s' = (ob ++ m)%list }.

(** Successive calls, each on the session the previous one left. *)
Fixpoint rotate_many (calls : list (Env * Z * string)) (s : Session)
  : Session :=
  match calls with
  | [] => s
  | (env, household_id, rotation_type) :: rest =>
      rotate_many rest (snd (rotate_chores env household_id rotation_type s))
  end.

(** ** The reminder pass *)

(** Steps (a) of the household loop: rotate when due. *)
Definition rotation_step (env : Env) (household : Household.t) : M unit :=
  due <- should_rotate env (Household.id household) ;;
  (if due
   then _ <- rotate_chores env (Household.id household)
               (Household.rotation_mode household) ;; ret tt
   else ret tt).

Definition due_today (env : Env) (c : Chore.t) : bool :=
  existsb (String.eqb (strftime_A (now env))) (Chore.days c).

(** How the loop body leaves a chore: untouched, with an error, or with a
    reminder under this preference. *)
Inductive verdict :=
| Skip
| Trip
| Remind (p : MemberPreference.t).

Definition reminder_verdict (env : Env) (h : Household.t) (db : Db)
  (c : Chore.t) : verdict :=
  if due_today env c then
    match MemberPreference_first (Household.id h) (Chore.assigned_to c) db with
    | None => Skip
    | Some p =>
        if MemberPreference.notification_enabled p then
          match MemberPreference.reminder_time p with
          | None => Trip
          | Some rt =>
              if String.leb rt (strftime_HM (now env)) then Remind p else Skip
          end
        else Skip
    end
  else Skip.

Definition reminder_message (c : Chore.t) : string :=
  "Reminder: " ++ Chore.title c ++ " is due today!".

Definition reminder_row (h : Household.t) (c : Chore.t) (name : string)
  : Notification.t :=
  Notification.mk name (Chore.title c) "reminder" (reminder_message c)
                  (Household.id h) (Some (Chore.id c)).

Definition reminder_mail (c : Chore.t) (addr : string) : Email :=
  mkEmail addr ("HomeSync Reminder: " ++ Chore.title c) (reminder_message c).

Definition logged (env : Env) (h : Household.t) (c : Chore.t) (v : verdict)
  : list Notification.t :=
  match v, Chore.assigned_to c with
  | Remind _, Some name =>
      if insert_fails env (reminder_row h c name) then []
      else [reminder_row h c name]
  | _, _ => []
  end.

Definition mailed (env : Env) (c : Chore.t) (v : verdict) : list Email :=
  match v with
  | Remind p =>
      match MemberPreference.email p with
      | Some addr =>
          if (addr =? "")%string then []
          else if smtp_fails env (reminder_mail c addr) then []
          else [reminder_mail c addr]
      | None => []
      end
  | _ => []
  end.

(** The log rows and mails of a pass: it ends at the first error. *)
Fixpoint pass_log (env : Env) (h : Household.t) (db : Db) (cs : list Chore.t)
  : list Notification.t :=
  match cs with
  | [] => []
  | c :: cs' =>
      match reminder_verdict env h db c with
      | Trip => []
      | v => logged env h c v ++ pass_log env h db cs'
      end
  end.

Fixpoint pass_mail (env : Env) (h : Household.t) (db : Db) (cs : list Chore.t)
  : list Email :=
  match cs with
  | [] => []
  | c :: cs' =>
      match reminder_verdict env h db c with
      | Trip => []
      | v => mailed env c v ++ pass_mail env h db cs'
      end
  end.

(** The pass gets as far as position [k]: no chore before it recurs today
    under an enabled first preference record with a null reminder time. *)
Definition pass_reaches (env : Env) (h : Household.t) (db : Db)
  (cs : list Chore.t) (k : nat) : Prop :=
  forall j c' p',
    (j < k)%nat -> nth_error cs j = Some c' ->
    due_today env c' = true ->
    MemberPreference_first (Household.id h) (Chore.assigned_to c') db
    = Some p' ->
    MemberPreference.notification_enabled p' = true ->
    MemberPreference.reminder_time p' <> None.

(** ** Sample data *)

(** Every operation succeeds; both clocks read 0. *)
Definition calm : Env :=
  mkEnv 0 0 (fun _ => false) false (fun _ => false) (fun _ => false).

Definition commit_broken : Env :=
  mkEnv 0 0 (fun _ => false) true (fun _ => false) (fun _ => false).

Definition home : Household.t := Household.mk 1 "Home" "AB12CD34" "weekly".

Definition trio : list Member.t :=
  [Member.mk 1 "Ann" true 1; Member.mk 2 "Bob" false 1;
   Member.mk 3 "Cy" false 1].

Definition dishes : Chore.t :=
  Chore.mk 1 "Dishes" "" ["Monday"] (Some "Bob") true 1.
Definition trash : Chore.t :=
  Chore.mk 2 "Trash" "" ["Monday"; "Thursday"] (Some "Cy") false 1.
Definition lawn : Chore.t :=
  Chore.mk 3 "Lawn" "" ["Saturday"] (Some "Zed") true 1.
Definition attic : Chore.t :=
  Chore.mk 4 "Attic" "" [] None true 1.

Definition trio_db : Db :=
  mkDb [home] trio [dishes; trash; lawn; attic] [] [] [].

Definition trio_after : Session :=
  snd (rotate_chores calm 1 "weekly" (mkSession trio_db trio_db [])).

Definition idle_db : Db :=
  mkDb [home] trio
       [attic; Chore.mk 5 "Garage" "" ["Friday"] None false 1]
       [] [] [].

(** A household whose first member joined with the empty name, and a chore
    assigned to that name. *)
Definition blank_db : Db :=
  mkDb [home]
       [Member.mk 1 "" true 1; Member.mk 2 "Bob" false 1]
       [Chore.mk 1 "Dishes" "" ["Monday"] (Some "") true 1]
       [] [] [].

Definition blank_after : Session :=
  snd (rotate_chores calm 1 "weekly" (mkSession blank_db blank_db [])).

(** Two members; Lawn is assigned to someone who left, Porch to the empty
    name. *)
Definition stray_db : Db :=
  mkDb [home]
       [Member.mk 1 "Ann" true 1; Member.mk 2 "Bob" false 1]
       [Chore.mk 1 "Lawn" "" ["Saturday"] (Some "Zed") true 1;
        Chore.mk 2 "Porch" "" ["Sunday"] (Some "") true 1]
       [] [] [].

Definition stray_after : Session :=
  snd (rotate_chores calm 1 "weekly" (mkSession stray_db stray_db [])).

(** A household with the single member "" holding a finished chore. *)
Definition solo_blank_db : Db :=
  mkDb [home] [Member.mk 1 "" true 1]
       [Chore.mk 1 "Dishes" "" ["Monday"] (Some "") true 1] [] [] [].

Definition solo_blank_after : Session :=
  snd (rotate_chores calm 1 "weekly"
         (mkSession solo_blank_db solo_blank_db [])).

Definition solo_db : Db :=
  mkDb [home] [Member.mk 1 "Ann" true 1]
       [Chore.mk 1 "Dishes" "" ["Monday"] (Some "Ann") true 1] [] [] [].

Definition solo_after : Session :=
  snd (rotate_chores calm 1 "weekly" (mkSession solo_db solo_db [])).

Definition a_week_on : Env :=
  mkEnv (12 * us_per_day) 0 (fun _ => false) false (fun _ => false)
        (fun _ => false).

Definition rotated_twice_db : Db :=
  mkDb [home] trio [dishes] []
       [RotationHistory.mk 1 1 (Some "Cy") (Some "Ann") (5 * us_per_day)
          "weekly";
        RotationHistory.mk 1 1 (Some "Ann") (Some "Bob") (2 * us_per_day)
          "weekly"]
       [].

(** A Monday, 10:00. *)
Definition monday_ten : Env :=
  mkEnv (4 * us_per_day + 10 * 3600 * 1000000) 0
        (fun _ => false) false (fun _ => false) (fun _ => false).

(** A household that never rotates. *)
Definition steady : Household.t := Household.mk 1 "Home" "AB12CD34" "none".

Definition sweeping : Chore.t :=
  Chore.mk 1 "Sweeping" "" ["Monday"] (Some "Ann") false 1.
Definition bins : Chore.t :=
  Chore.mk 2 "Bins" "" ["Monday"; "Friday"] (Some "Bob") false 1.

Definition bob_preference : MemberPreference.t :=
  MemberPreference.mk "Bob" 1 (Some "bob@example.org") None true
                      (Some "09:00") 1.

(** Ann's reminder time was set to null through the preferences route. *)
Definition timeless_db : Db :=
  mkDb [steady]
       [Member.mk 1 "Ann" true 1; Member.mk 2 "Bob" false 1]
       [sweeping; bins] [] []
       [MemberPreference.mk "Ann" 1 None None true None 1; bob_preference].

Definition timely_db : Db :=
  mkDb [steady]
       [Member.mk 1 "Ann" true 1; Member.mk 2 "Bob" false 1]
       [sweeping; bins] [] []
       [MemberPreference.mk "Ann" 1 None None true (Some "08:30") 1;
        bob_preference].

(** ** Statements of the specification that the code does not satisfy *)

(** Ring rule, for any assignee found in the ring. *)
Definition ring_rule_as_stated : Prop :=
  forall env hid rt db ob s' k c a i,
    NoDup (map Chore.id (chores db)) ->
    NoDup (ring hid db) ->
    rotate_chores env hid rt (mkSession db db ob) = (Ok true, s') ->
    nth_error (chores db) k = Some c ->
    Chore.household_id c = hid ->
    Chore.assigned_to c = Some a ->
    nth_error (ring hid db) i = Some a ->
    exists nx c',
      nth_error (ring hid db) ((i + 1) mod List.length (ring hid db))%nat
      = Some nx
      /\ nth_error (chores (committed s')) k = Some c'
      /\ Chore.assigned_to c' = Some nx.

(** Fallback repair with its history row, for any non-null assignee outside
    the ring. *)
Definition fallback_as_stated : Prop :=
  forall env hid rt db ob s' k c a,
    NoDup (map Chore.id (chores db)) ->
    rotate_chores env hid rt (mkSession db db ob) = (Ok true, s') ->
    nth_error (chores db) k = Some c ->
    Chore.household_id c = hid ->
    Chore.assigned_to c = Some a ->
    ~ In a (ring hid db) ->
    exists first c' added h,
      nth_error (ring hid db) 0 = Some first
      /\ nth_error (chores (committed s')) k = Some c'
      /\ Chore.assigned_to c' = Some first
      /\ rotation_history (committed s') = (rotation_history db ++ added)%list
      /\ In h added
      /\ RotationHistory.chore_id h = Chore.id c
      /\ RotationHistory.previous_assigned_to h = Some a
      /\ RotationHistory.new_assigned_to h = Some first
      /\ RotationHistory.rotation_type h = rt.

(** Ring of one member, whatever the member's name. *)
Definition single_member_as_stated : Prop :=
  forall env hid rt db ob s' k c m,
    NoDup (map Chore.id (chores db)) ->
    Member_filter_by hid db = [m] ->
    rotate_chores env hid rt (mkSession db db ob) = (Ok true, s') ->
    nth_error (chores db) k = Some c ->
    Chore.household_id c = hid ->
    Chore.assigned_to c = Some (Member.name m) ->
    exists c' added h,
      nth_error (chores (committed s')) k = Some c'
      /\ Chore.assigned_to c' = Some (Member.name m)
      /\ Chore.completed c' = false
      /\ rotation_history (committed s') = (rotation_history db ++ added)%list
      /\ In h added
      /\ RotationHistory.chore_id h = Chore.id c
      /\ RotationHistory.previous_assigned_to h = Some (Member.name m)
      /\ RotationHistory.new_assigned_to h = Some (Member.name m).

(** The reminder rule without a proviso about earlier chores. *)
Definition reminders_as_stated : Prop :=
  forall env h s k c name p rt,
    working s = committed s ->
    NoDup (map Chore.id (chores (working s))) ->
    read_fails env TChore = false ->
    read_fails env TMemberPreference = false ->
    nth_error (Chore_filter_incomplete (Household.id h)
                 (working (snd (rotation_step env h s)))) k = Some c ->
    due_today env c = true ->
    Chore.assigned_to c = Some name ->
    MemberPreference_first (Household.id h) (Some name)
      (working (snd (rotation_step env h s))) = Some p ->
    MemberPreference.notification_enabled p = true ->
    MemberPreference.reminder_time p = Some rt ->
    String.leb rt (strftime_HM (now env)) = true ->
    insert_fails env (reminder_row h c name) = false ->
    exists s2 added,
      process_household env h s = (Ok tt, s2)
      /\ notifications (committed s2)
         = (notifications (committed (snd (rotation_step env h s)))
            ++ added)%list
      /\ In (reminder_row h c name) added.

(** ** Proof automation *)

Ltac log_only_tac :=
  constructor; simpl;
  first [ reflexivity | congruence
        | exists []; rewrite app_nil_r; first [reflexivity | congruence]
        | eexists; first [reflexivity | f_equal; congruence] ].

Ltac nodup_tac :=
  repeat (constructor; [simpl; intuition discriminate|]); constructor.

Ltac rolled_back eta :=
  eexists; split; [reflexivity|]; cbn; repeat split; try discriminate;
  let E := fresh in intros E; symmetry; apply eta; exact E.

(** ** The routes that create, change and delete rows

    A route is modelled by the function of its request data that returns
    the HTTP status and, where the properties below need it, the row of the
    response.  Request bodies are JSON objects, modelled as records of the
    keys the route reads: a key that may be absent is an option, and values
    have the type of their column.  A query outside the route's [try] raises
    to the caller. *)

(** *** generate_household_code and create_household *)

Definition code_alphabet : list ascii :=
  list_ascii_of_string "ABCDEFGHIJKLMNOPQRSTUVWXYZ0123456789".

(** [secrets.choice(string.ascii_uppercase + string.digits)] on one draw of
    the random source. *)
Definition choice (draw : nat) : ascii :=
  nth (draw mod List.length code_alphabet) code_alphabet "A"%char.

(** The code of the [j]-th turn of the loop: eight draws joined. *)
Definition code_of (rand : nat -> nat) (j : nat) : string :=
  string_of_list_ascii (map (fun i => choice (rand (8 * j + i)%nat)) (seq 0 8)).

(** [while True]: up to [fuel] turns from turn [j]; [None] when the loop is
    still running after them. *)
Fixpoint generate_household_code (env : Env) (rand : nat -> nat)
  (fuel j : nat) : M (option string) :=
  match fuel with
  | O => ret None
  | S fuel' =>
      let code := code_of rand j in
      taken <- query env THousehold (Household_by_code code) ;;
      match taken with
      | None => ret (Some code)
      | Some _ => generate_household_code env rand fuel' (S j)
      end
  end.

Definition next_household_id (db : Db) : Z :=
  1 + fold_right Z.max 0 (map Household.id (households db)).

Definition insert_household (h : Household.t) (db : Db) : Db :=
  mkDb (households db ++ [h]) (members db) (chores db) (notifications db)
       (rotation_history db) (member_preferences db).

(** [create_household]; [name] is [data['name']] when the body has it.  The
    result is [None] when the code loop has not ended within [fuel]. *)
Definition create_household (env : Env) (rand : nat -> nat) (fuel : nat)
  (name : option string) : M (option (Z * option Household.t)) :=
  match name with
  | None => ret (Some (400, None))
  | Some n =>
      try_except
        (code <- generate_household_code env rand fuel 0 ;;
         match code with
         | None => ret None
         | Some c =>
             household_id <- session_objects next_household_id ;;
             let household := Household.mk household_id n c "weekly" in
             modify_working (insert_household household) ;;;
             commit (commit_fails env) ;;;
             ret (Some (201, Some household))
         end)
        (fun _ => rollback ;;; ret (Some (500, None)))
  end.

(** *** create_chore and update_chore *)

Record ChoreRequest := mkChoreRequest
  { q_title : option string;
    q_days : option (list string);
    q_description : option string;
    q_assigned_to : option string }.

Definition next_chore_id (db : Db) : Z :=
  1 + fold_right Z.max 0 (map Chore.id (chores db)).

Definition insert_chore (c : Chore.t) (db : Db) : Db :=
  mkDb (households db) (members db) (chores db ++ [c]) (notifications db)
       (rotation_history db) (member_preferences db).

Definition create_chore (env : Env) (code : string) (data : ChoreRequest)
  : M (Z * option Chore.t) :=
  household <- query env THousehold (Household_by_code code) ;;
  match household with
  | None => ret (404, None)
  | Some h =>
      match q_title data, q_days data with
      | Some title, Some days =>
          try_except
            (chore_id <- session_objects next_chore_id ;;
             let chore :=
               Chore.mk chore_id title
                        (match q_description data with
                         | Some d => d
                         | None => ""
                         end)
                        days (q_assigned_to data) false (Household.id h) in
             modify_working (insert_chore chore) ;;;
             commit (commit_fails env) ;;;
             ret (201, Some chore))
            (fun _ => rollback ;;; ret (500, None))
      | _, _ => ret (400, None)
      end
  end.

Record ChoreUpdate := mkChoreUpdate
  { u_title : option string;
    u_description : option string;
    u_days : option (list string);
    u_assigned_to : option (option string);
    u_completed : option bool }.

Definition Chore_get (chore_id : Z) (db : Db) : option Chore.t :=
  find (fun c => Chore.id c =? chore_id) (chores db).

Definition or_keep {A} (given : option A) (old : A) : A :=
  match given with Some v => v | None => old end.

(** The assignments [if key in data: chore.key = data[key]]. *)
Definition apply_update (data : ChoreUpdate) (c : Chore.t) : Chore.t :=
  Chore.mk (Chore.id c)
           (or_keep (u_title data) (Chore.title c))
           (or_keep (u_description data) (Chore.description c))
           (or_keep (u_days data) (Chore.days c))
           (or_keep (u_assigned_to data) (Chore.assigned_to c))
           (or_keep (u_completed data) (Chore.completed c))
           (Chore.household_id c).

Definition write_chore (chore_id : Z) (data : ChoreUpdate) (db : Db) : Db :=
  mkDb (households db) (members db)
       (map (fun c => if Chore.id c =? chore_id then apply_update data c
                      else c) (chores db))
       (notifications db) (rotation_history db) (member_preferences db).

Definition update_chore (env : Env) (chore_id : Z) (data : ChoreUpdate)
  : M (Z * option Chore.t) :=
  chore <- query env TChore (Chore_get chore_id) ;;
  match chore with
  | None => ret (404, None)
  | Some c =>
      try_except
        (modify_working (write_chore chore_id data) ;;;
         commit (commit_fails env) ;;;
         ret (200, Some (apply_update data c)))
        (fun _ => rollback ;;; ret (500, None))
  end.

(** *** delete_household *)

(** The five bulk deletes and the delete of the household row. *)
Definition purge (household_id : Z) (db : Db) : Db :=
  mkDb (filter (fun h => negb (Household.id h =? household_id))
               (households db))
       (filter (fun m => negb (Member.household_id m =? household_id))
               (members db))
       (filter (fun c => negb (Chore.household_id c =? household_id))
               (chores db))
       (filter (fun n => negb (Notification.household_id n =? household_id))
               (notifications db))
       (filter (fun r => negb (RotationHistory.household_id r =? household_id))
               (rotation_history db))
       (filter (fun p => negb (MemberPreference.household_id p =? household_id))
               (member_preferences db)).

Definition delete_household (env : Env) (code : string) : M Z :=
  household <- query env THousehold (Household_by_code code) ;;
  match household with
  | None => ret 404
  | Some h =>
      try_except
        (modify_working (purge (Household.id h)) ;;;
         commit (commit_fails env) ;;;
         ret 200)
        (fun _ => rollback ;;; ret 500)
  end.

(** *** manual_rotate_chores *)

Definition manual_rotate_chores (env : Env) (code : string) : M Z :=
  household <- query env THousehold (Household_by_code code) ;;
  match household with
  | None => ret 404
  | Some h =>
      try_except
        (success <- rotate_chores env (Household.id h)
                      (Household.rotation_mode h) ;;
         if success then ret 200 else ret 500)
        (fun _ => ret 500)
  end.

(** *** send_notification *)

(** The body of [for member in members], threading [sent_count]. *)
Fixpoint notify_custom (env : Env) (h : Household.t) (message : string)
  (members : list Member.t) (sent_count : Z) : M Z :=
  match members with
  | [] => ret sent_count
  | member :: rest =>
      _ <- create_notification_record env (Household.id h)
             (Some (Member.name member)) "Custom Message" "custom" message
             None ;;
      preference <- query env TMemberPreference
                      (MemberPreference_first (Household.id h)
                         (Some (Member.name member))) ;;
      match preference with
      | Some p =>
          match MemberPreference.email p with
          | Some addr =>
              if negb (addr =? "")%string
                 && MemberPreference.notification_enabled p
              then
                _ <- send_email_notification env addr
                       ("HomeSync Message from " ++ Household.name h)
                       message ;;
                notify_custom env h message rest (sent_count + 1)
              else notify_custom env h message rest sent_count
          | None => notify_custom env h message rest sent_count
          end
      | None => notify_custom env h message rest sent_count
      end
  end.

(** The route: status, [sent_count] and [total_members] of the answer. *)
Definition send_notification (env : Env) (code : string)
  (message : option string) : M (Z * Z * Z) :=
  household <- query env THousehold (Household_by_code code) ;;
  match household with
  | None => ret (404, 0, 0)
  | Some h =>
      match message with
      | None => ret (400, 0, 0)
      | Some msg =>
          try_except
            (members <- query env TMember
                          (Member_filter_by (Household.id h)) ;;
             sent_count <- notify_custom env h msg members 0 ;;
             ret (200, sent_count, Z.of_nat (List.length members)))
            (fun _ => ret (500, 0, 0))
      end
  end.

(** *** update_member_preferences *)

Record PreferenceUpdate := mkPreferenceUpdate
  { p_email : option (option string);
    p_phone : option (option string);
    p_notification_enabled : option bool;
    p_reminder_time : option (option string);
    p_reminder_days_before : option Z }.

Definition apply_preferences (data : PreferenceUpdate)
  (p : MemberPreference.t) : MemberPreference.t :=
  MemberPreference.mk (MemberPreference.member_name p)
    (MemberPreference.household_id p)
    (or_keep (p_email data) (MemberPreference.email p))
    (or_keep (p_phone data) (MemberPreference.phone p))
    (or_keep (p_notification_enabled data)
             (MemberPreference.notification_enabled p))
    (or_keep (p_reminder_time data) (MemberPreference.reminder_time p))
    (or_keep (p_reminder_days_before data)
             (MemberPreference.reminder_days_before p)).

(** The object [.first()] returned is the first matching row; the
    assignments go to that row. *)
Fixpoint update_first {A} (test : A -> bool) (f : A -> A) (l : list A)
  : list A :=
  match l with
  | [] => []
  | x :: l' => if test x then f x :: l' else x :: update_first test f l'
  end.

Definition write_preferences (household_id : Z) (member_name : string)
  (data : PreferenceUpdate) (db : Db) : Db :=
  mkDb (households db) (members db) (chores db) (notifications db)
       (rotation_history db)
       (update_first
          (fun p => (MemberPreference.household_id p =? household_id)
                    && (MemberPreference.member_name p =? member_name)%string)
          (apply_preferences data) (member_preferences db)).

Definition get_member_preferences (env : Env) (code member_name : string)
  : M (Z * option MemberPreference.t) :=
  household <- query env THousehold (Household_by_code code) ;;
  match household with
  | None => ret (404, None)
  | Some h =>
      preference <- query env TMemberPreference
                      (MemberPreference_first (Household.id h)
                         (Some member_name)) ;;
      match preference with
      | None => ret (404, None)
      | Some p => ret (200, Some p)
      end
  end.

Definition update_member_preferences (env : Env) (code member_name : string)
  (data : PreferenceUpdate) : M (Z * option MemberPreference.t) :=
  household <- query env THousehold (Household_by_code code) ;;
  match household with
  | None => ret (404, None)
  | Some h =>
      preference <- query env TMemberPreference
                      (MemberPreference_first (Household.id h)
                         (Some member_name)) ;;
      match preference with
      | None => ret (404, None)
      | Some p =>
          try_except
            (modify_working
               (write_preferences (Household.id h) member_name data) ;;;
             commit (commit_fails env) ;;;
             ret (200, Some (apply_preferences data p)))
            (fun _ => rollback ;;; ret (500, None))
      end
  end.

(** ** Rotations in a row, notices and mails *)

(** Every call of the list is for this household and finds storage
    working for steps 1 to 5. *)
Definition commits_for (hid : Z) (call : Env * Z * string) : Prop :=
  let '(env, household_id, _) := call in
  household_id = hid
  /\ read_fails env THousehold = false
  /\ read_fails env TChore = false
  /\ read_fails env TMember = false
  /\ commit_fails env = false.

Definition holds (name : string) (c : Chore.t) : bool :=
  match Chore.assigned_to c with
  | Some a => (a =? name)%string
  | None => false
  end.

Definition rotation_message (household_id : Z) (db : Db) (m : Member.t)
  : string :=
  "Chore rotation complete! Your new chores: "
  ++ join_titles
       (map Chore.title
            (filter (holds (Member.name m)) (Chore_filter_by household_id db))).

(** The log row a member gets after a rotation: one if some chore of the
    household is assigned to the member, none otherwise. *)
Definition rotation_notice (household_id : Z) (db : Db) (m : Member.t)
  : list Notification.t :=
  if is_nil (filter (holds (Member.name m)) (Chore_filter_by household_id db))
  then []
  else [Notification.mk (Member.name m) "Rotation Complete" "rotation"
          (rotation_message household_id db m) household_id None].

(** A mail of the rotation goes to the address of the first preference
    record of a member of the household, with notifications enabled. *)
Definition consented (household_id : Z) (db : Db) (ms : list Member.t)
  (e : Email) : Prop :=
  exists m p,
    In m ms
    /\ MemberPreference_first household_id (Some (Member.name m)) db = Some p
    /\ MemberPreference.notification_enabled p = true
    /\ MemberPreference.email p = Some (to_email e)
    /\ to_email e <> ""
    /\ subject e = "HomeSync: New Chores Assigned".

(** The member has a first preference record with a non-empty address and
    notifications enabled. *)
Definition wants_mail (household_id : Z) (db : Db) (m : Member.t) : bool :=
  match MemberPreference_first household_id (Some (Member.name m)) db with
  | Some p =>
      match MemberPreference.email p with
      | Some addr =>
          negb (addr =? "")%string && MemberPreference.notification_enabled p
      | None => false
      end
  | None => false
  end.

(** ** More sample data *)

Definition history_broken : Env :=
  mkEnv 0 0 (fun t => match t with TRotationHistory => true | _ => false end)
        false (fun _ => false) (fun _ => false).

Definition daily_db : Db :=
  mkDb [Household.mk 1 "Home" "AB12CD34" "daily"] trio [dishes] []
       [RotationHistory.mk 1 1 (Some "Cy") (Some "Ann") 0 "daily"] [].

Definition a_year_on : Env :=
  mkEnv (365 * us_per_day) 0 (fun _ => false) false (fun _ => false)
        (fun _ => false).

Definition memberless_db : Db := mkDb [home] [] [dishes; trash] [] [] [].

Definition three_calm_calls : list (Env * Z * string) :=
  [(calm, 1, "weekly"); (calm, 1, "weekly"); (calm, 1, "weekly")].

Definition nine_db : Db :=
  mkDb [steady] [Member.mk 1 "Ann" true 1] [sweeping] [] []
       [MemberPreference.mk "Ann" 1 None None true (Some "9:00") 1].

(** Draws that spell AAAAAAAA, then BBBBBBBB, and so on. *)
Definition spelling (i : nat) : nat := (i / 8)%nat.

Definition taken_db : Db :=
  mkDb [Household.mk 1 "Home" "AAAAAAAA" "weekly"] [] [] [] [] [].

Definition two_homes_db : Db :=
  mkDb [home; Household.mk 2 "Flat" "ZZ99ZZ99" "weekly"]
       (trio ++ [Member.mk 4 "Dee" true 2])
       [dishes; trash; Chore.mk 9 "Stairs" "" ["Monday"] (Some "Dee") false 2]
       [Notification.mk "Ann" "Welcome" "welcome" "Welcome" 1 None]
       [RotationHistory.mk 1 1 (Some "Ann") (Some "Bob") 0 "weekly"]
       [bob_preference].

Definition deaf : Env :=
  mkEnv (now calm) (current_timestamp calm) (fun _ => false) false
        (fun _ => true) (fun _ => true).

Definition dee : JoinRequest :=
  mkJoin "Dee" false (Some "dee@example.org") None true (Some "09:00") 1.

Definition dee_joined : Session :=
  snd (join_household calm "AB12CD34" dee (mkSession trio_db trio_db [])).

Definition trio_refused : Session :=
  snd (rotate_chores commit_broken 1 "weekly" (mkSession trio_db trio_db [])).

Ltac no_mail Hc :=
  eexists _, _, []; split; [reflexivity|]; cbn; rewrite ?app_nil_r, ?Hc;
  repeat split; auto; intros ? [].

(** * Properties *)

(** ** The loop body and the loop *)

Lemma index_of_lt x l i : index_of x l = Some i -> (i < List.length l)%nat.
Proof.
  revert i; induction l as [|y l IH]; simpl; intros i H; [discriminate|].
  destruct (y =? x)%string.
  - injection H as <-. lia.
  - destruct (index_of x l) as [j|]; simpl in H; [|discriminate].
    injection H as <-. specialize (IH j eq_refl). lia.
Qed.

Lemma index_of_nth_error x l i : index_of x l = Some i -> nth_error l i = Some x.
Proof.
  revert i; induction l as [|y l IH]; simpl; intros i H; [discriminate|].
  destruct (String.eqb_spec y x) as [->|Hne].
  - injection H as <-. reflexivity.
  - destruct (index_of x l) as [j|]; simpl in H; [|discriminate].
    injection H as <-. simpl. auto.
Qed.

Lemma index_of_None x l : index_of x l = None <-> ~ In x l.
Proof.
  induction l as [|y l IH]; simpl.
  - tauto.
  - destruct (String.eqb_spec y x) as [->|Hne].
    + split; [discriminate | intros H; exfalso; apply H; auto].
    + destruct (index_of x l) as [j|]; simpl; split; try discriminate; intros H.
      * exfalso. destruct IH as [_ IH]. 
        assert (~ In x l) by tauto. specialize (IH H0). discriminate.
      * intros [E|E]; [congruence|]. destruct IH as [IH _]. apply IH; auto.
      * reflexivity.
Qed.

Lemma nth_error_mod_Some (l : list string) (k : nat) :
  l <> [] -> exists x, nth_error l (k mod List.length l)%nat = Some x.
Proof.
  intros Hl.
  destruct (nth_error l (k mod List.length l)%nat) as [x|] eqn:E; [eauto|].
  apply nth_error_None in E.
  assert (List.length l <> 0)%nat by (destruct l; simpl; congruence).
  pose proof (Nat.mod_upper_bound k (List.length l) H). lia.
Qed.

Lemma db_eta db :
  mkDb (households db) (members db) (chores db) (notifications db)
       (rotation_history db) (member_preferences db) = db.
Proof. destruct db; reflexivity. Qed.

Lemma session_eta s : mkSession (committed s) (working s) (outbox s) = s.
Proof. destruct s; reflexivity. Qed.

Lemma map_if_same {A} (p : A -> bool) (l : list A) :
  map (fun r => if p r then r else r) l = l.
Proof. induction l; simpl; [|destruct (p a)]; congruence. Qed.

(** One iteration of the loop is total on a non-empty ring and acts on the
    working rows as [step_db] says. *)
Lemma rotate_chore_run env hid rt names c s :
  names <> [] ->
  rotate_chore env hid rt names c s
  = (Ok tt, mkSession (committed s) (step_db env hid rt names c (working s))
                      (outbox s)).
Proof.
  intros Hne.
  assert (Hid : forall s, (Ok tt, s) = (Ok tt, mkSession (committed s)
             (mkDb (households (working s)) (members (working s))
               (map (fun r => if Chore.id r =? Chore.id c then r else r)
                    (chores (working s)))
               (notifications (working s))
               (rotation_history (working s) ++ [])
               (member_preferences (working s))) (outbox s))).
  { intros s0. rewrite map_if_same, app_nil_r, db_eta, session_eta. reflexivity. }
  unfold rotate_chore, step_db, retarget, next_assignee, history_rows, successor.
  destruct (Chore.assigned_to c) as [a|]; [|apply Hid].
  destruct (a =? "")%string; [apply Hid|].
  unfold try_except_on, try_except, bind, list_index.
  destruct (index_of a names) as [i|] eqn:Hi.
  - destruct (nth_error_mod_Some names (i + 1) Hne) as [n Hn].
    unfold list_get, ret. rewrite Hn. reflexivity.
  - unfold raise; simpl.
    destruct names as [|n0 names']; [congruence|].
    unfold list_get; simpl. unfold ret, set_assignment, modify_working.
    simpl. rewrite app_nil_r. reflexivity.
Qed.

Lemma for_each_rotate_run env hid rt names cs s :
  names <> [] ->
  for_each cs (rotate_chore env hid rt names) s
  = (Ok tt, mkSession (committed s)
              (fold_left (fun db c => step_db env hid rt names c db) cs
                         (working s))
              (outbox s)).
Proof.
  intros Hne. revert s; induction cs as [|c cs IH]; intros s; simpl.
  - unfold ret. rewrite session_eta. reflexivity.
  - unfold bind. rewrite rotate_chore_run by assumption. rewrite IH. reflexivity.
Qed.

Lemma run_loop_frame env hid rt names cs db :
  households (run_loop env hid rt names cs db) = households db
  /\ members (run_loop env hid rt names cs db) = members db
  /\ notifications (run_loop env hid rt names cs db) = notifications db
  /\ member_preferences (run_loop env hid rt names cs db)
     = member_preferences db
  /\ rotation_history (run_loop env hid rt names cs db)
     = (rotation_history db ++ flat_map (history_rows env hid rt names) cs)%list.
Proof.
  unfold run_loop. revert db; induction cs as [|c cs IH]; intros db; simpl.
  - rewrite app_nil_r. repeat split.
  - destruct (IH (step_db env hid rt names c db)) as (H1 & H2 & H3 & H4 & H5).
    rewrite H1, H2, H3, H4, H5. simpl. rewrite app_assoc. repeat split.
Qed.

Lemma retarget_id names c r : Chore.id (retarget names c r) = Chore.id r.
Proof. unfold retarget. destruct (next_assignee names c); reflexivity. Qed.

Lemma find_id_absent (x : Z) (cs : list Chore.t) :
  ~ In x (map Chore.id cs) ->
  find (fun c => Chore.id c =? x) cs = None.
Proof.
  induction cs as [|c cs IH]; simpl; intros H; [reflexivity|].
  destruct (Z.eqb_spec (Chore.id c) x) as [E|E]; [tauto|].
  apply IH; tauto.
Qed.

Lemma run_loop_chores env hid rt names cs db :
  NoDup (map Chore.id cs) ->
  chores (run_loop env hid rt names cs db)
  = map (fun r => match find (fun c => Chore.id c =? Chore.id r) cs with
                  | Some c => retarget names c r
                  | None => r
                  end) (chores db).
Proof.
  unfold run_loop. revert db; induction cs as [|c cs IH]; intros db Hnd; simpl.
  - symmetry. apply map_id.
  - inversion Hnd as [|x l Hnotin Hnd']; subst.
    rewrite IH by assumption. simpl. rewrite map_map.
    apply map_ext. intros r.
    rewrite (Z.eqb_sym (Chore.id c) (Chore.id r)).
    destruct (Z.eqb_spec (Chore.id r) (Chore.id c)) as [E|E].
    + rewrite retarget_id, E, find_id_absent by assumption. reflexivity.
    + reflexivity.
Qed.

(** A query result has unique primary keys when the table has. *)
Lemma filter_keys_unique (p : Chore.t -> bool) (t : list Chore.t) :
  NoDup (map Chore.id t) -> NoDup (map Chore.id (filter p t)).
Proof.
  intros Hpk. induction t as [|r t IH]; cbn; [constructor|].
  apply NoDup_cons_iff in Hpk as [Hfresh Hpk].
  destruct (p r); cbn; [|exact (IH Hpk)].
  apply NoDup_cons; [|exact (IH Hpk)].
  contradict Hfresh.
  apply in_map_iff in Hfresh as (r' & Hid & Hr').
  apply in_map_iff. exists r'. split; [exact Hid|].
  apply filter_In in Hr'. tauto.
Qed.

Lemma NoDup_map_inj {A B} (f : A -> B) (l : list A) a b :
  NoDup (map f l) -> In a l -> In b l -> f a = f b -> a = b.
Proof.
  induction l as [|x l IH]; simpl; intros H Ha Hb E; [tauto|].
  inversion H as [|y m Hn Hd]; subst.
  destruct Ha as [<-|Ha], Hb as [<-|Hb]; auto.
  - exfalso. apply Hn. rewrite E. apply in_map; assumption.
  - exfalso. apply Hn. rewrite <- E. apply in_map; assumption.
Qed.

Lemma find_id_filter (p : Chore.t -> bool) (t : list Chore.t) (r : Chore.t) :
  NoDup (map Chore.id t) -> In r t ->
  find (fun c => Chore.id c =? Chore.id r) (filter p t)
  = if p r then Some r else None.
Proof.
  intros Hnd Hin.
  destruct (find (fun c => Chore.id c =? Chore.id r) (filter p t)) as [c|] eqn:F.
  - apply find_some in F as [Hc E]. apply filter_In in Hc as [Hc Hp].
    apply Z.eqb_eq in E.
    assert (c = r) by (eapply NoDup_map_inj; eauto). subst c.
    rewrite Hp. reflexivity.
  - destruct (p r) eqn:Hp; [|reflexivity].
    exfalso.
    assert (Hf : In r (filter p t)) by (apply filter_In; auto).
    pose proof (find_none _ _ F r Hf) as Hx. simpl in Hx.
    rewrite Z.eqb_refl in Hx. discriminate.
Qed.

Lemma run_loop_filter env hid rt names db :
  NoDup (map Chore.id (chores db)) ->
  chores (run_loop env hid rt names (Chore_filter_by hid db) db)
  = map (rotate_row hid names) (chores db).
Proof.
  intros Hnd. unfold Chore_filter_by.
  rewrite run_loop_chores by (apply filter_keys_unique; assumption).
  apply map_ext_in. intros r Hr.
  rewrite find_id_filter by assumption.
  unfold rotate_row. destruct (Chore.household_id r =? hid); reflexivity.
Qed.

(** ** The notification phase only appends to the log and the outbox *)

Lemma log_only_refl s : log_only s s.
Proof.
  constructor; try reflexivity; exists []; rewrite app_nil_r; reflexivity.
Qed.

Lemma log_only_trans s1 s2 s3 :
  log_only s1 s2 -> log_only s2 s3 -> log_only s1 s3.
Proof.
  intros [A1 A2 A3 A4 A5 [l1 A6] [m1 A7]] [B1 B2 B3 B4 B5 [l2 B6] [m2 B7]].
  constructor; try congruence.
  - exists (l1 ++ l2)%list. rewrite B6, A6, app_assoc. reflexivity.
  - exists (m1 ++ m2)%list. rewrite B7, A7, app_assoc. reflexivity.
Qed.

Lemma create_notification_record_run env hid mn ct nt msg cid s :
  clean s ->
  exists b s',
    create_notification_record env hid mn ct nt msg cid s = (Ok b, s')
    /\ clean s' /\ log_only s s'.
Proof.
  unfold clean; intros Hc.
  unfold create_notification_record, try_except, bind.
  destruct mn as [n|]; simpl.
  - unfold commit; simpl.
    destruct (insert_fails env _); simpl.
    + exists false. eexists. split; [reflexivity|]. simpl.
      split; [reflexivity|]. log_only_tac.
    + exists true. eexists. split; [reflexivity|]. simpl.
      split; [reflexivity|]. rewrite Hc. log_only_tac.
  - exists false. eexists. split; [reflexivity|]. simpl.
    split; [reflexivity|]. log_only_tac.
Qed.

Lemma send_email_notification_run env to_ subj msg s :
  clean s ->
  exists b s',
    send_email_notification env to_ subj msg s = (Ok b, s')
    /\ clean s' /\ log_only s s'.
Proof.
  unfold clean; intros Hc. unfold send_email_notification.
  destruct (smtp_fails env _).
  - exists false, s. split; [reflexivity|]. split; [assumption|].
    apply log_only_refl.
  - exists true. eexists. split; [reflexivity|]. simpl. split; [assumption|].
    log_only_tac.
Qed.

Lemma notify_member_run env hid m s :
  clean s ->
  exists o s',
    notify_member env hid m s = (o, s') /\ clean s' /\ log_only s s'
    /\ (read_fails env TMemberPreference = false -> o = Ok tt).
Proof.
  intros Hc. unfold notify_member, bind at 1, session_objects.
  match goal with |- context [is_nil ?l] => destruct (is_nil l) end.
  { exists (Ok tt), s. split; [reflexivity|]. split; [assumption|].
    split; [apply log_only_refl | reflexivity]. }
  unfold bind at 1.
  edestruct (create_notification_record_run env hid
               (Some (Member.name m)) "Rotation Complete" "rotation")
    as (b & s1 & -> & Hc1 & L1); [exact Hc|].
  unfold bind, query.
  destruct (read_fails env TMemberPreference).
  { exists (Raise StorageError), s1. split; [reflexivity|].
    split; [assumption|]. split; [assumption | discriminate]. }
  destruct (MemberPreference_first hid _ (working s1)) as [p|];
    [|exists (Ok tt), s1; split; [reflexivity|]; split; [assumption|];
      split; [assumption | reflexivity]].
  destruct (MemberPreference.email p) as [addr|];
    [|exists (Ok tt), s1; split; [reflexivity|]; split; [assumption|];
      split; [assumption | reflexivity]].
  destruct (negb (addr =? "")%string && MemberPreference.notification_enabled p);
    [|exists (Ok tt), s1; split; [reflexivity|]; split; [assumption|];
      split; [assumption | reflexivity]].
  edestruct (send_email_notification_run env addr) as (b2 & s2 & -> & Hc2 & L2);
    [exact Hc1|].
  exists (Ok tt), s2. split; [reflexivity|]. split; [assumption|].
  split; [eapply log_only_trans; eassumption | reflexivity].
Qed.

Lemma notify_all_run env hid ms s :
  clean s ->
  exists o s',
    for_each ms (notify_member env hid) s = (o, s') /\ clean s'
    /\ log_only s s'
    /\ (read_fails env TMemberPreference = false -> o = Ok tt).
Proof.
  revert s; induction ms as [|m ms IH]; intros s Hc; simpl.
  - exists (Ok tt), s. split; [reflexivity|]. split; [assumption|].
    split; [apply log_only_refl | reflexivity].
  - unfold bind.
    destruct (notify_member_run env hid m s Hc) as (o & s1 & -> & Hc1 & L1 & Ho).
    destruct o as [[]|e].
    + destruct (IH s1 Hc1) as (o2 & s2 & -> & Hc2 & L2 & Ho2).
      exists o2, s2. split; [reflexivity|]. split; [assumption|].
      split; [eapply log_only_trans; eassumption | assumption].
    + exists (Raise e), s1. split; [reflexivity|]. split; [assumption|].
      split; assumption.
Qed.

(** ** What a call of rotate_chores does *)

Lemma ring_nonempty hid db :
  is_nil (Member_filter_by hid db) = false -> ring hid db <> [].
Proof.
  unfold ring. destruct (Member_filter_by hid db); [discriminate|].
  intros _; discriminate.
Qed.

Lemma rotate_chores_stops env hid rt db ob :
  reaches_commit env hid db && negb (commit_fails env) = false ->
  rotate_chores env hid rt (mkSession db db ob)
  = (Ok false, mkSession db db ob).
Proof.
  unfold reaches_commit, rotate_chores, try_except, bind at 1, query.
  cbn [working committed outbox].
  destruct (read_fails env THousehold); [reflexivity|].
  destruct (Household_get hid db); [|reflexivity].
  unfold bind at 1. destruct (read_fails env TChore); [reflexivity|].
  unfold bind at 1. destruct (read_fails env TMember); [reflexivity|].
  cbn [working committed outbox].
  destruct (is_nil (Chore_filter_by hid db)); [reflexivity|].
  destruct (is_nil (Member_filter_by hid db)) eqn:Hm; [reflexivity|].
  cbn [negb andb orb].
  intros Hf. apply negb_false_iff in Hf.
  unfold bind at 1.
  rewrite for_each_rotate_run by (apply ring_nonempty; assumption).
  unfold bind at 1, commit. rewrite Hf. reflexivity.
Qed.

Lemma rotate_chores_commits env hid rt db ob :
  NoDup (map Chore.id (chores db)) ->
  reaches_commit env hid db = true ->
  commit_fails env = false ->
  exists b s',
    rotate_chores env hid rt (mkSession db db ob) = (Ok b, s')
    /\ rotated env hid rt db ob s'
    /\ (read_fails env TMemberPreference = false -> b = true).
Proof.
  intros Hnd Hr Hcf.
  unfold reaches_commit in Hr.
  repeat (apply andb_true_iff in Hr as [Hr ?]).
  apply negb_true_iff in Hr.
  repeat match goal with
         | H : negb _ = true |- _ => apply negb_true_iff in H
         end.
  unfold rotate_chores, try_except, bind at 1, query.
  cbn [working committed outbox]. rewrite Hr.
  destruct (Household_get hid db); [|discriminate].
  unfold bind at 1. rewrite H2.
  unfold bind at 1. rewrite H1. cbn [working committed outbox].
  rewrite H0, H. cbn [orb].
  unfold bind at 1.
  rewrite for_each_rotate_run by (apply ring_nonempty; assumption).
  unfold bind at 1, commit. rewrite Hcf. cbn [working committed outbox].
  set (db1 := fold_left _ _ db).
  destruct (notify_all_run env hid (Member_filter_by hid db)
              (mkSession db1 db1 ob) eq_refl) as (o & s2 & E & Hc2 & L & Ho).
  unfold bind. rewrite E.
  destruct (run_loop_frame env hid rt (ring hid db) (Chore_filter_by hid db) db)
    as (F1 & F2 & F3 & F4 & F5).
  pose proof (run_loop_filter env hid rt (ring hid db) db Hnd) as F6.
  fold (ring hid db) in db1. fold (run_loop env hid rt (ring hid db)
    (Chore_filter_by hid db) db) in db1.
  destruct L as [L1 L2 L3 L4 L5 [l L6] [m L7]]. simpl in *.
  assert (R : forall s', committed s' = committed s2 ->
                         working s' = committed s' -> outbox s' = outbox s2 ->
                         rotated env hid rt db ob s').
  { intros s' E1 E2 E3. constructor; rewrite ?E1, ?E3.
    - rewrite <- E1. exact E2.
    - rewrite L3. exact F6.
    - rewrite L4. exact F5.
    - rewrite L1. exact F1.
    - rewrite L2. exact F2.
    - rewrite L5. exact F4.
    - exists l. rewrite L6. f_equal. exact F3.
    - exists m. exact L7. }
  destruct o as [[]|e].
  - exists true, s2. split; [reflexivity|]. split; [|reflexivity].
    apply R; auto.
  - exists false. eexists. split; [reflexivity|]. split.
    + apply R; reflexivity.
    + intros Hp. specialize (Ho Hp). discriminate.
Qed.

(** A call that reports success went through the commit. *)
Lemma rotate_chores_true env hid rt db ob s' :
  NoDup (map Chore.id (chores db)) ->
  rotate_chores env hid rt (mkSession db db ob) = (Ok true, s') ->
  reaches_commit env hid db = true /\ commit_fails env = false
  /\ rotated env hid rt db ob s'.
Proof.
  intros Hnd Hrun.
  destruct (reaches_commit env hid db && negb (commit_fails env)) eqn:E.
  - apply andb_true_iff in E as [E1 E2]. apply negb_true_iff in E2.
    destruct (rotate_chores_commits env hid rt db ob Hnd E1 E2)
      as (b & s2 & Hrun2 & R & _).
    rewrite Hrun in Hrun2. injection Hrun2 as <- <-. auto.
  - rewrite rotate_chores_stops in Hrun by assumption. discriminate.
Qed.

(** X5: Whatever fails, what is committed after a call is either what was
    committed before or the whole rotation: chores and history rows move
    together. *)
Lemma rotation_all_or_nothing env hid rt db ob :
  NoDup (map Chore.id (chores db)) ->
  let s' := snd (rotate_chores env hid rt (mkSession db db ob)) in
  (chores (committed s') = chores db
   /\ rotation_history (committed s') = rotation_history db)
  \/ (chores (committed s')
      = map (rotate_row hid (ring hid db)) (chores db)
      /\ rotation_history (committed s')
         = (rotation_history db
            ++ flat_map (history_rows env hid rt (ring hid db))
                        (Chore_filter_by hid db))%list).
Proof.
  intros Hpk.
  destruct (reaches_commit env hid db && negb (commit_fails env)) eqn:E.
  - apply andb_true_iff in E as [E1 E2]. apply negb_true_iff in E2.
    destruct (rotate_chores_commits env hid rt db ob Hpk E1 E2)
      as (b & s1 & -> & R & _).
    right. cbn [snd].
    split; [apply (ro_chores _ _ _ _ _ _ R) | apply (ro_history _ _ _ _ _ _ R)].
  - rewrite rotate_chores_stops by assumption. left. cbn. auto.
Qed.

(** ** Rows and history rows of a rotation *)

Lemma NoDup_index_of (l : list string) i a :
  NoDup l -> nth_error l i = Some a -> index_of a l = Some i.
Proof.
  revert i; induction l as [|y l IH]; intros i Hnd Hn.
  - destruct i; discriminate.
  - inversion Hnd as [|x m Hnotin Hnd']; subst. simpl.
    destruct i as [|i]; simpl in Hn.
    + injection Hn as ->. rewrite String.eqb_refl. reflexivity.
    + destruct (String.eqb_spec y a) as [->|Hne].
      * exfalso. apply Hnotin. eapply nth_error_In; eassumption.
      * rewrite (IH i Hnd' Hn). reflexivity.
Qed.

Lemma rotate_row_successor hid names c a i nx :
  Chore.household_id c = hid ->
  Chore.assigned_to c = Some a -> a <> "" ->
  index_of a names = Some i ->
  nth_error names ((i + 1) mod List.length names)%nat = Some nx ->
  rotate_row hid names c = reassign nx c.
Proof.
  intros Hh Ha Hne Hi Hn.
  unfold rotate_row, retarget, next_assignee, successor.
  rewrite Hh, Z.eqb_refl, Ha.
  apply String.eqb_neq in Hne. rewrite Hne, Hi, Hn. reflexivity.
Qed.

Lemma rotate_row_fallback hid names c a first :
  Chore.household_id c = hid ->
  Chore.assigned_to c = Some a -> a <> "" ->
  ~ In a names ->
  nth_error names 0 = Some first ->
  rotate_row hid names c = reassign first c.
Proof.
  intros Hh Ha Hne Hi Hn.
  unfold rotate_row, retarget, next_assignee, successor.
  rewrite Hh, Z.eqb_refl, Ha.
  apply String.eqb_neq in Hne. apply index_of_None in Hi.
  rewrite Hne, Hi, Hn. reflexivity.
Qed.

Lemma rotate_row_falsy hid names c :
  Chore.assigned_to c = None \/ Chore.assigned_to c = Some "" ->
  rotate_row hid names c = c.
Proof.
  unfold rotate_row, retarget, next_assignee.
  intros [-> | ->]; simpl; destruct (Chore.household_id c =? hid); reflexivity.
Qed.

Lemma rotate_row_cases hid names c :
  rotate_row hid names c = c
  \/ exists a n, Chore.household_id c = hid /\ Chore.assigned_to c = Some a
                 /\ a <> "" /\ rotate_row hid names c = reassign n c.
Proof.
  unfold rotate_row, retarget, next_assignee.
  destruct (Z.eqb_spec (Chore.household_id c) hid) as [E|E]; [|auto].
  destruct (Chore.assigned_to c) as [a|]; [|auto].
  destruct (String.eqb_spec a "") as [->|Hne]; [auto|].
  destruct (successor names a) as [n|]; [|auto].
  right. exists a, n. auto.
Qed.

Lemma rotate_row_id hid names c :
  Chore.id (rotate_row hid names c) = Chore.id c.
Proof.
  unfold rotate_row. destruct (_ =? _); [apply retarget_id | reflexivity].
Qed.

Lemma history_rows_successor env hid rt names c a i nx :
  Chore.assigned_to c = Some a -> a <> "" ->
  index_of a names = Some i ->
  nth_error names ((i + 1) mod List.length names)%nat = Some nx ->
  history_rows env hid rt names c
  = [RotationHistory.mk hid (Chore.id c) (Some a) (Some nx)
       (current_timestamp env) rt].
Proof.
  intros Ha Hne Hi Hn. unfold history_rows.
  apply String.eqb_neq in Hne. rewrite Ha, Hne, Hi, Hn. reflexivity.
Qed.

Lemma history_rows_chore env hid rt names c h :
  In h (history_rows env hid rt names c) ->
  RotationHistory.chore_id h = Chore.id c
  /\ exists a, Chore.assigned_to c = Some a /\ a <> "" /\ In a names.
Proof.
  unfold history_rows.
  destruct (Chore.assigned_to c) as [a|]; [|intros []].
  destruct (String.eqb_spec a "") as [->|Hne]; [intros []|].
  destruct (index_of a names) as [i|] eqn:Hi; [|intros []].
  destruct (nth_error names _) as [n|]; [|intros []].
  intros [<-|[]]. split; [reflexivity|].
  exists a. repeat split; auto.
  eapply nth_error_In. apply index_of_nth_error. eassumption.
Qed.

Lemma nth_error_map_Some {A B} (f : A -> B) l k a :
  nth_error l k = Some a -> nth_error (map f l) k = Some (f a).
Proof. intros H. rewrite nth_error_map, H. reflexivity. Qed.

(** ** Member names stay unique *)

Lemma Member_first_None hid name db :
  Member_first hid name db = None -> ~ In name (ring hid db).
Proof.
  unfold Member_first, ring, Member_filter_by. intros F Hin.
  apply in_map_iff in Hin as (m & <- & Hm).
  apply filter_In in Hm as [Hm Hh].
  pose proof (find_none _ _ F m Hm) as Hx. cbn in Hx.
  rewrite Hh, String.eqb_refl in Hx. discriminate.
Qed.

Lemma NoDup_snoc {A} (l : list A) x : NoDup l -> ~ In x l -> NoDup (l ++ [x]).
Proof.
  induction l as [|a l IH]; simpl; intros Hnd Hx.
  - constructor; [intros [] | constructor].
  - inversion Hnd as [|y m Hn Hd]; subst. constructor.
    + intros Hin. apply in_app_or in Hin as [Hin|[<-|[]]]; tauto.
    + apply IH; tauto.
Qed.

Lemma insert_member_unique m db :
  names_unique db ->
  Member_first (Member.household_id m) (Member.name m) db = None ->
  names_unique (insert_member m db).
Proof.
  intros Hu Hf hid. unfold ring, Member_filter_by, insert_member; simpl.
  rewrite filter_app, map_app. simpl.
  destruct (Z.eqb_spec (Member.household_id m) hid) as [E|E]; simpl.
  - apply NoDup_snoc; [apply Hu|]. subst hid. apply Member_first_None, Hf.
  - rewrite app_nil_r. apply Hu.
Qed.

(** X17: Whatever the outcome of a join, the names within every household stay
    distinct, in the session and in what is committed. *)
Lemma join_household_keeps_names_unique env code data db ob o s' :
  names_unique db ->
  join_household env code data (mkSession db db ob) = (o, s') ->
  names_unique (working s') /\ names_unique (committed s').
Proof.
  intros Hu. unfold join_household, bind at 1, query. cbn [working].
  destruct (read_fails env THousehold); [intros [= <- <-]; auto|].
  destruct (Household_by_code code db) as [h|]; [|intros [= <- <-]; auto].
  unfold bind at 1. cbn [working].
  destruct (read_fails env TMember); [intros [= <- <-]; auto|].
  destruct (Member_first (Household.id h) (j_name data) db) eqn:F;
    [intros [= <- <-]; auto|].
  unfold try_except, bind at 1, session_objects, bind at 1, modify_working,
    bind at 1, bind at 1, commit.
  cbn [working committed outbox].
  destruct (commit_fails env).
  { intros [= <- <-]. cbn. auto. }
  set (db1 := insert_preference _ (insert_member _ db)).
  assert (Hu1 : names_unique db1).
  { intros hid. unfold db1, ring, Member_filter_by, insert_preference.
    cbn [members].
    apply (insert_member_unique
             (Member.mk (next_member_id db) (j_name data) (j_is_admin data)
                        (Household.id h)) db Hu F). }
  unfold bind.
  destruct (create_notification_record_run env (Household.id h)
              (Some (j_name data)) "Welcome" "welcome"
              ("Welcome to " ++ Household.name h
               ++ "! You've successfully joined the household.") None
              (mkSession db1 db1 ob) eq_refl)
    as (b & s1 & -> & Hc1 & L).
  intros [= <- <-].
  assert (E : members (committed s1) = members db1) by (apply (lo_members _ _ L)).
  assert (Hu2 : names_unique (committed s1)).
  { intros hid. unfold ring, Member_filter_by. rewrite E. apply Hu1. }
  split; [|exact Hu2]. rewrite Hc1. exact Hu2.
Qed.

(** ** The rotation ring *)

(** C1 does not hold for the empty name: in [blank_db] the ring is
    ["", "Bob"] and Dishes is assigned to the member at index 0, yet the
    successful rotation leaves it with that member instead of giving it to
    "Bob". *)
Lemma ring_rule_blank_name :
  rotate_chores calm 1 "weekly" (mkSession blank_db blank_db [])
  = (Ok true, blank_after)
  /\ nth_error (ring 1 blank_db) 0 = Some ""
  /\ nth_error (ring 1 blank_db) 1 = Some "Bob"
  /\ option_map Chore.assigned_to (nth_error (chores blank_db) 0)
     = Some (Some "")
  /\ option_map Chore.assigned_to (nth_error (chores (committed blank_after)) 0)
     = Some (Some "")
  /\ ~ ring_rule_as_stated.
Proof.
  repeat (split; [vm_compute; reflexivity|]).
  intros H.
  destruct (H calm 1 "weekly" blank_db [] blank_after 0%nat
              (Chore.mk 1 "Dishes" "" ["Monday"] (Some "") true 1) "" 0%nat)
    as (nx & c' & Hnx & Hc' & Ha); try reflexivity; try nodup_tac.
  vm_compute in Hnx, Hc'. injection Hnx as <-. injection Hc' as <-.
  discriminate Ha.
Qed.

(** One successful call, seen from a chore assigned to the empty string:
    the row stays and no history row is written for it. *)
Lemma rotate_chores_blank env hid rt db ob s' k c :
  NoDup (map Chore.id (chores db)) ->
  rotate_chores env hid rt (mkSession db db ob) = (Ok true, s') ->
  nth_error (chores db) k = Some c ->
  Chore.assigned_to c = Some "" ->
  nth_error (chores (committed s')) k = Some c
  /\ filter (fun r => RotationHistory.chore_id r =? Chore.id c)
            (rotation_history (committed s'))
     = filter (fun r => RotationHistory.chore_id r =? Chore.id c)
              (rotation_history db).
Proof.
  intros Hpk Hrun Hk Ha.
  destruct (rotate_chores_true _ _ _ _ _ _ Hpk Hrun) as (_ & _ & R).
  rewrite (ro_chores _ _ _ _ _ _ R), (ro_history _ _ _ _ _ _ R).
  split.
  - rewrite (nth_error_map_Some _ _ _ _ Hk), rotate_row_falsy; auto.
  - rewrite filter_app.
    match goal with |- (_ ++ ?l)%list = _ => destruct l as [|r l'] eqn:E end;
      [apply app_nil_r|].
    exfalso.
    assert (Hin : In r (r :: l')) by (left; reflexivity).
    rewrite <- E in Hin. apply filter_In in Hin as [Hin Hid].
    apply Z.eqb_eq in Hid.
    apply in_flat_map in Hin as (c2 & Hc2 & Hr).
    apply filter_In in Hc2 as [Hc2 _].
    apply history_rows_chore in Hr as (Eid & a2 & Ha2 & Hne & _).
    assert (c2 = c).
    { eapply NoDup_map_inj; eauto; [eapply nth_error_In; eauto | congruence]. }
    subst c2. congruence.
Qed.

(** A ring that is the empty name alone gives no history row to any chore. *)
Lemma history_rows_blank_ring env hid rt c :
  history_rows env hid rt [""] c = [].
Proof.
  unfold history_rows. destruct (Chore.assigned_to c) as [a|]; [|reflexivity].
  destruct (a =? "")%string eqn:E; [reflexivity|].
  cbn [index_of]. rewrite String.eqb_sym in E. rewrite E. reflexivity.
Qed.

(** C1: with member names unique within the household, a successful
    rotation moves every chore whose assignee is a non-empty name found at
    ring index [i] to the member at index [(i+1) mod n], and clears its
    completion flag; with ring [A, B, C] a chore of [B] goes to [C] and a
    chore of [C] goes to [A].  A chore assigned to the empty string is left
    as it is, whether or not a member has that name, and gets no history
    row. *)
Theorem rotate_advances_one_position :
  forall env hid rt db ob s' k c a,
    NoDup (map Chore.id (chores db)) ->
    NoDup (ring hid db) ->
    rotate_chores env hid rt (mkSession db db ob) = (Ok true, s') ->
    nth_error (chores db) k = Some c ->
    Chore.household_id c = hid ->
    Chore.assigned_to c = Some a ->
    (a <> "" ->
     forall i,
       nth_error (ring hid db) i = Some a ->
       exists nx,
         nth_error (ring hid db) ((i + 1) mod List.length (ring hid db))%nat
         = Some nx
         /\ nth_error (chores (committed s')) k
            = Some (Chore.mk (Chore.id c) (Chore.title c) (Chore.description c)
                      (Chore.days c) (Some nx) false (Chore.household_id c))
         /\ (forall A B C, ring hid db = [A; B; C] ->
               (a = B -> nx = C) /\ (a = C -> nx = A)))
    /\ (a = "" ->
        nth_error (chores (committed s')) k = Some c
        /\ filter (fun r => RotationHistory.chore_id r =? Chore.id c)
                  (rotation_history (committed s'))
           = filter (fun r => RotationHistory.chore_id r =? Chore.id c)
                    (rotation_history db)).
Proof.
  intros env hid rt db ob s' k c a Hpk Hnd Hrun Hk Hh Ha.
  split; [|intros ->; apply (rotate_chores_blank env hid rt db ob); assumption].
  intros Hne i Hi.
  destruct (rotate_chores_true _ _ _ _ _ _ Hpk Hrun) as (Hr & _ & R).
  assert (Hring : ring hid db <> []).
  { intros E. rewrite E in Hi. destruct i; discriminate. }
  destruct (nth_error_mod_Some (ring hid db) (i + 1) Hring) as [nx Hnx].
  pose proof (NoDup_index_of _ _ _ Hnd Hi) as Hidx.
  exists nx. split; [assumption|]. split.
  - rewrite (ro_chores _ _ _ _ _ _ R).
    rewrite (nth_error_map_Some _ _ _ _ Hk).
    rewrite (rotate_row_successor hid _ c a i nx); auto.
  - intros A B C E. rewrite E in *. simpl in Hnx.
    inversion Hnd as [|x l HA Hnd1]; subst.
    inversion Hnd1 as [|x l HB Hnd2]; subst.
    simpl in HA, HB.
    split; intros ->;
      (destruct i as [|[|[|i]]]; simpl in Hi, Hnx;
       [ | | | destruct i; discriminate ]);
      inversion Hi; subst; try congruence; exfalso; tauto.
Qed.

Lemma rotate_advances_one_position_witness :
  (exists nx,
     nth_error (ring 1 trio_db) ((1 + 1) mod List.length (ring 1 trio_db))%nat
     = Some nx
     /\ nth_error (chores (committed trio_after)) 0
        = Some (Chore.mk 1 "Dishes" "" ["Monday"] (Some nx) false 1)
     /\ (forall A B C, ring 1 trio_db = [A; B; C] ->
           ("Bob" = B -> nx = C) /\ ("Bob" = C -> nx = A)))
  /\ nth_error (chores (committed blank_after)) 0
     = Some (Chore.mk 1 "Dishes" "" ["Monday"] (Some "") true 1).
Proof.
  split.
  - apply (rotate_advances_one_position calm 1 "weekly" trio_db [] trio_after
             0%nat dishes "Bob"); try reflexivity; try nodup_tac.
    discriminate.
  - apply (rotate_advances_one_position calm 1 "weekly" blank_db []
             blank_after 0%nat
             (Chore.mk 1 "Dishes" "" ["Monday"] (Some "") true 1) "");
      try reflexivity; nodup_tac.
Defined.

(** C2 does not hold as worded: in [stray_db] the ring is ["Ann", "Bob"];
    Lawn is assigned to "Zed" and Porch to the empty name, neither of them
    in the ring.  After the successful rotation Lawn has moved to "Ann" but
    no history row was appended, and Porch has not moved. *)
Lemma fallback_without_history :
  rotate_chores calm 1 "weekly" (mkSession stray_db stray_db [])
  = (Ok true, stray_after)
  /\ ring 1 stray_db = ["Ann"; "Bob"]
  /\ map Chore.assigned_to (chores stray_db) = [Some "Zed"; Some ""]
  /\ map Chore.assigned_to (chores (committed stray_after))
     = [Some "Ann"; Some ""]
  /\ rotation_history stray_db = []
  /\ rotation_history (committed stray_after) = []
  /\ ~ fallback_as_stated.
Proof.
  repeat (split; [vm_compute; reflexivity|]).
  intros H.
  destruct (H calm 1 "weekly" stray_db [] stray_after 0%nat
              (Chore.mk 1 "Lawn" "" ["Saturday"] (Some "Zed") true 1) "Zed")
    as (f & c' & added & h & _ & _ & _ & Hh & Hin & _);
    try reflexivity; try nodup_tac.
  - vm_compute. intuition discriminate.
  - vm_compute in Hh. destruct added; [destruct Hin | discriminate Hh].
Qed.

(** ** Fallback repair and the completion flag *)

Lemma nth_error_0_nonempty {A} (l : list A) :
  l <> [] -> exists x, nth_error l 0 = Some x.
Proof. destruct l as [|x l]; [congruence | exists x; reflexivity]. Qed.

Lemma successor_Some names a :
  names <> [] -> exists n, successor names a = Some n.
Proof.
  intros Hne. unfold successor.
  destruct (index_of a names);
    [apply nth_error_mod_Some | apply nth_error_0_nonempty]; assumption.
Qed.

Lemma reaches_commit_ring env hid db :
  reaches_commit env hid db = true -> ring hid db <> [].
Proof.
  unfold reaches_commit. intros H.
  apply andb_true_iff in H as [_ H]. apply negb_true_iff in H.
  apply ring_nonempty; assumption.
Qed.

(** C2, leaving the history row aside: a chore whose assignee is a
    non-empty name that occurs nowhere in the ring is given by a successful
    rotation to the first member in ring order, with its completion flag
    cleared.  A chore assigned to the empty string is left as it is and gets
    no history row. *)
Theorem rotate_repairs_stray_assignee :
  forall env hid rt db ob s' k c a,
    NoDup (map Chore.id (chores db)) ->
    rotate_chores env hid rt (mkSession db db ob) = (Ok true, s') ->
    nth_error (chores db) k = Some c ->
    Chore.household_id c = hid ->
    Chore.assigned_to c = Some a ->
    (a <> "" ->
     ~ In a (ring hid db) ->
     exists first,
       nth_error (ring hid db) 0 = Some first
       /\ nth_error (chores (committed s')) k
          = Some (Chore.mk (Chore.id c) (Chore.title c) (Chore.description c)
                    (Chore.days c) (Some first) false (Chore.household_id c)))
    /\ (a = "" ->
        nth_error (chores (committed s')) k = Some c
        /\ filter (fun r => RotationHistory.chore_id r =? Chore.id c)
                  (rotation_history (committed s'))
           = filter (fun r => RotationHistory.chore_id r =? Chore.id c)
                    (rotation_history db)).
Proof.
  intros env hid rt db ob s' k c a Hpk Hrun Hk Hh Ha.
  split; [|intros ->; apply (rotate_chores_blank env hid rt db ob); assumption].
  intros Hne Hout.
  destruct (rotate_chores_true _ _ _ _ _ _ Hpk Hrun) as (Hr & _ & R).
  destruct (nth_error_0_nonempty _ (reaches_commit_ring _ _ _ Hr))
    as [first Hfirst].
  exists first. split; [assumption|].
  rewrite (ro_chores _ _ _ _ _ _ R), (nth_error_map_Some _ _ _ _ Hk).
  rewrite (rotate_row_fallback hid _ c a first); auto.
Qed.

Lemma rotate_repairs_stray_assignee_witness :
  (exists first,
     nth_error (ring 1 stray_db) 0 = Some first
     /\ nth_error (chores (committed stray_after)) 0
        = Some (Chore.mk 1 "Lawn" "" ["Saturday"] (Some first) false 1))
  /\ nth_error (chores (committed stray_after)) 1
     = Some (Chore.mk 2 "Porch" "" ["Sunday"] (Some "") true 1).
Proof.
  split.
  - apply (rotate_repairs_stray_assignee calm 1 "weekly" stray_db []
             stray_after 0%nat
             (Chore.mk 1 "Lawn" "" ["Saturday"] (Some "Zed") true 1) "Zed");
      try reflexivity; try nodup_tac.
    + discriminate.
    + vm_compute. intuition discriminate.
  - apply (rotate_repairs_stray_assignee calm 1 "weekly" stray_db []
             stray_after 1%nat
             (Chore.mk 2 "Porch" "" ["Sunday"] (Some "") true 1) "");
      try reflexivity; nodup_tac.
Defined.

(** The fallback branch appends no history row for the chore it repairs. *)
Lemma fallback_appends_no_history env hid rt db ob s' c a h :
  NoDup (map Chore.id (chores db)) ->
  rotate_chores env hid rt (mkSession db db ob) = (Ok true, s') ->
  In c (chores db) ->
  Chore.assigned_to c = Some a ->
  ~ In a (ring hid db) ->
  In h (rotation_history (committed s')) ->
  RotationHistory.chore_id h = Chore.id c ->
  In h (rotation_history db).
Proof.
  intros Hpk Hrun Hc Ha Hout Hh Hid.
  destruct (rotate_chores_true _ _ _ _ _ _ Hpk Hrun) as (_ & _ & R).
  rewrite (ro_history _ _ _ _ _ _ R) in Hh.
  apply in_app_or in Hh as [Hh|Hh]; [assumption|].
  apply in_flat_map in Hh as (c2 & Hc2 & Hh).
  apply filter_In in Hc2 as [Hc2 _].
  apply history_rows_chore in Hh as (E & a2 & Ha2 & _ & Hin).
  assert (c2 = c) by (eapply NoDup_map_inj; eauto; congruence).
  subst c2. congruence.
Qed.

(** C7: after a successful rotation a chore whose [assigned_to] differs from
    before is incomplete; and every chore of the household the loop reassigns
    (its assignee is set, in the ring or not) ends with an assignee and with
    [completed] false, even when the assignee is the same as before. *)
Theorem rotation_resets_completed :
  forall env hid rt db ob s' k c c',
    NoDup (map Chore.id (chores db)) ->
    rotate_chores env hid rt (mkSession db db ob) = (Ok true, s') ->
    nth_error (chores db) k = Some c ->
    nth_error (chores (committed s')) k = Some c' ->
    (Chore.assigned_to c' <> Chore.assigned_to c -> Chore.completed c' = false)
    /\ (Chore.household_id c = hid ->
        forall a, Chore.assigned_to c = Some a -> a <> "" ->
                  Chore.completed c' = false
                  /\ exists n, Chore.assigned_to c' = Some n).
Proof.
  intros env hid rt db ob s' k c c' Hpk Hrun Hk Hk'.
  destruct (rotate_chores_true _ _ _ _ _ _ Hpk Hrun) as (Hr & _ & R).
  rewrite (ro_chores _ _ _ _ _ _ R), (nth_error_map_Some _ _ _ _ Hk) in Hk'.
  injection Hk' as <-. split.
  - destruct (rotate_row_cases hid (ring hid db) c)
      as [E | (a & n & _ & _ & _ & E)]; rewrite E.
    + congruence.
    + reflexivity.
  - intros Hh a Ha Hne.
    unfold rotate_row, retarget, next_assignee.
    apply String.eqb_neq in Hne.
    rewrite Hh, Z.eqb_refl, Ha, Hne.
    destruct (successor_Some (ring hid db) a (reaches_commit_ring _ _ _ Hr))
      as [n ->].
    simpl. eauto.
Qed.

Lemma rotation_resets_completed_witness :
  (Chore.assigned_to (reassign "Ann" lawn) <> Chore.assigned_to lawn ->
   Chore.completed (reassign "Ann" lawn) = false)
  /\ (Chore.household_id lawn = 1 ->
      forall a, Chore.assigned_to lawn = Some a -> a <> "" ->
                Chore.completed (reassign "Ann" lawn) = false
                /\ exists n, Chore.assigned_to (reassign "Ann" lawn) = Some n).
Proof.
  apply (rotation_resets_completed calm 1 "weekly" trio_db [] trio_after
           2%nat lawn (reassign "Ann" lawn)).
  - nodup_tac.
  - vm_compute; reflexivity.
  - reflexivity.
  - vm_compute; reflexivity.
Defined.

(** ** A ring of one member; unassigned chores *)

(** C10 does not hold for the empty name: the ring of [solo_blank_db] is
    the single member "", who holds the finished chore Dishes; the
    successful rotation appends no history row and leaves the chore
    finished. *)
Lemma single_member_blank_name :
  rotate_chores calm 1 "weekly" (mkSession solo_blank_db solo_blank_db [])
  = (Ok true, solo_blank_after)
  /\ ring 1 solo_blank_db = [""]
  /\ map Chore.assigned_to (chores solo_blank_db) = [Some ""]
  /\ map Chore.completed (chores (committed solo_blank_after)) = [true]
  /\ rotation_history (committed solo_blank_after) = []
  /\ ~ single_member_as_stated.
Proof.
  repeat (split; [vm_compute; reflexivity|]).
  intros H.
  destruct (H calm 1 "weekly" solo_blank_db [] solo_blank_after 0%nat
              (Chore.mk 1 "Dishes" "" ["Monday"] (Some "") true 1)
              (Member.mk 1 "" true 1))
    as (c' & added & h & Hc' & _ & Hdone & _);
    try reflexivity; try nodup_tac.
  vm_compute in Hc'. injection Hc' as <-. discriminate Hdone.
Qed.

(** C10: when the ring is a single member with a non-empty name, a
    successful rotation gives each of that member's chores back to the same
    member, clears its completion flag and appends a history row whose
    previous and new assignee are both that member.  When the single
    member's name is the empty string, a chore assigned to it stays as it
    is, completion flag included, and the rotation appends no history row. *)
Theorem single_member_rotation :
  forall env hid rt db ob s' k c m,
    NoDup (map Chore.id (chores db)) ->
    Member_filter_by hid db = [m] ->
    rotate_chores env hid rt (mkSession db db ob) = (Ok true, s') ->
    nth_error (chores db) k = Some c ->
    Chore.household_id c = hid ->
    Chore.assigned_to c = Some (Member.name m) ->
    (Member.name m <> "" ->
     nth_error (chores (committed s')) k
     = Some (Chore.mk (Chore.id c) (Chore.title c) (Chore.description c)
               (Chore.days c) (Some (Member.name m)) false
               (Chore.household_id c))
     /\ exists added,
          rotation_history (committed s') = (rotation_history db ++ added)%list
          /\ In (RotationHistory.mk hid (Chore.id c) (Some (Member.name m))
                   (Some (Member.name m)) (current_timestamp env) rt) added)
    /\ (Member.name m = "" ->
        nth_error (chores (committed s')) k = Some c
        /\ rotation_history (committed s') = rotation_history db).
Proof.
  intros env hid rt db ob s' k c m Hpk Hm Hrun Hk Hh Ha.
  destruct (rotate_chores_true _ _ _ _ _ _ Hpk Hrun) as (_ & _ & R).
  assert (Hring : ring hid db = [Member.name m])
    by (unfold ring; rewrite Hm; reflexivity).
  split.
  - intros Hne.
    assert (Hidx : index_of (Member.name m) (ring hid db) = Some 0%nat).
    { rewrite Hring. simpl. rewrite String.eqb_refl. reflexivity. }
    assert (Hnx : nth_error (ring hid db)
                    ((0 + 1) mod List.length (ring hid db))%nat
                  = Some (Member.name m)) by (rewrite Hring; reflexivity).
    split.
    + rewrite (ro_chores _ _ _ _ _ _ R), (nth_error_map_Some _ _ _ _ Hk).
      rewrite (rotate_row_successor hid _ c _ _ _ Hh Ha Hne Hidx Hnx).
      reflexivity.
    + eexists. split; [apply (ro_history _ _ _ _ _ _ R)|].
      apply in_flat_map. exists c. split.
      * apply filter_In. split; [eapply nth_error_In; eassumption|].
        apply Z.eqb_eq; assumption.
      * rewrite (history_rows_successor _ _ _ _ _ _ _ _ Ha Hne Hidx Hnx).
        left; reflexivity.
  - intros Hblank. rewrite Hblank in Ha, Hring. split.
    + rewrite (ro_chores _ _ _ _ _ _ R), (nth_error_map_Some _ _ _ _ Hk).
      rewrite rotate_row_falsy; auto.
    + rewrite (ro_history _ _ _ _ _ _ R), Hring.
      rewrite <- (app_nil_r (rotation_history db)) at 2. f_equal.
      induction (Chore_filter_by hid db) as [|c2 l IH]; [reflexivity|].
      cbn [flat_map]. rewrite history_rows_blank_ring. exact IH.
Qed.

Lemma single_member_rotation_witness :
  (nth_error (chores (committed solo_after)) 0
   = Some (Chore.mk 1 "Dishes" "" ["Monday"] (Some "Ann") false 1)
   /\ exists added,
        rotation_history (committed solo_after)
        = (rotation_history solo_db ++ added)%list
        /\ In (RotationHistory.mk 1 1 (Some "Ann") (Some "Ann") 0 "weekly")
              added)
  /\ (nth_error (chores (committed solo_blank_after)) 0
      = Some (Chore.mk 1 "Dishes" "" ["Monday"] (Some "") true 1)
      /\ rotation_history (committed solo_blank_after)
         = rotation_history solo_blank_db).
Proof.
  split.
  - apply (single_member_rotation calm 1 "weekly" solo_db [] solo_after 0%nat
             (Chore.mk 1 "Dishes" "" ["Monday"] (Some "Ann") true 1)
             (Member.mk 1 "Ann" true 1)); try reflexivity; try nodup_tac.
    discriminate.
  - apply (single_member_rotation calm 1 "weekly" solo_blank_db []
             solo_blank_after 0%nat
             (Chore.mk 1 "Dishes" "" ["Monday"] (Some "") true 1)
             (Member.mk 1 "" true 1)); try reflexivity; nodup_tac.
Defined.

Lemma clean_eta s :
  working s = committed s ->
  s = mkSession (committed s) (committed s) (outbox s).
Proof. destruct s; simpl; intros ->; reflexivity. Qed.

Lemma rotate_row_ids hid names l :
  map Chore.id (map (rotate_row hid names) l) = map Chore.id l.
Proof.
  rewrite map_map. apply map_ext. intros; apply rotate_row_id.
Qed.

Lemma filter_nil_iff {A} (p : A -> bool) l :
  (forall x, In x l -> p x = false) -> filter p l = [].
Proof.
  induction l as [|a l IH]; simpl; intros H; [reflexivity|].
  rewrite (H a) by auto. apply IH. auto.
Qed.

(** One call, seen from an unassigned chore. *)
Lemma rotate_chores_unassigned env hid rt db ob k c :
  NoDup (map Chore.id (chores db)) ->
  nth_error (chores db) k = Some c ->
  Chore.assigned_to c = None ->
  let s' := snd (rotate_chores env hid rt (mkSession db db ob)) in
  working s' = committed s'
  /\ NoDup (map Chore.id (chores (committed s')))
  /\ nth_error (chores (committed s')) k = Some c
  /\ filter (fun h => RotationHistory.chore_id h =? Chore.id c)
            (rotation_history (committed s'))
     = filter (fun h => RotationHistory.chore_id h =? Chore.id c)
              (rotation_history db).
Proof.
  intros Hpk Hk Ha.
  destruct (reaches_commit env hid db && negb (commit_fails env)) eqn:E.
  - apply andb_true_iff in E as [E1 E2]. apply negb_true_iff in E2.
    destruct (rotate_chores_commits env hid rt db ob Hpk E1 E2)
      as (b & s1 & -> & R & _).
    cbn [snd].
    split; [apply (ro_clean _ _ _ _ _ _ R)|].
    rewrite (ro_chores _ _ _ _ _ _ R), (ro_history _ _ _ _ _ _ R).
    split; [rewrite rotate_row_ids; assumption|].
    split.
    + rewrite (nth_error_map_Some _ _ _ _ Hk), rotate_row_falsy; auto.
    + rewrite filter_app.
      rewrite (filter_nil_iff _ (flat_map _ _)); [apply app_nil_r|].
      intros h Hh. apply in_flat_map in Hh as (c2 & Hc2 & Hh).
      apply filter_In in Hc2 as [Hc2 _].
      apply history_rows_chore in Hh as (Eid & a2 & Ha2 & _).
      apply Z.eqb_neq. intros Eq.
      assert (c2 = c).
      { eapply NoDup_map_inj; eauto; [eapply nth_error_In; eauto | congruence]. }
      subst c2. congruence.
  - rewrite rotate_chores_stops by assumption. cbn. auto.
Qed.

(** C6: a chore whose [assigned_to] is null is the same row after any number
    of [rotate_chores] calls, successful or not and for any household, and
    the history rows naming it are those that were there before: the calls
    append none, so a chore no row named is named by no row afterwards. *)
Theorem unassigned_chore_untouched :
  forall calls db ob k c,
    NoDup (map Chore.id (chores db)) ->
    nth_error (chores db) k = Some c ->
    Chore.assigned_to c = None ->
    nth_error (chores (committed (rotate_many calls (mkSession db db ob)))) k
    = Some c
    /\ filter (fun h => RotationHistory.chore_id h =? Chore.id c)
              (rotation_history
                 (committed (rotate_many calls (mkSession db db ob))))
       = filter (fun h => RotationHistory.chore_id h =? Chore.id c)
                (rotation_history db)
    /\ ((forall h, In h (rotation_history db) ->
                   RotationHistory.chore_id h <> Chore.id c) ->
        forall h,
          In h (rotation_history
                  (committed (rotate_many calls (mkSession db db ob)))) ->
          RotationHistory.chore_id h <> Chore.id c).
Proof.
  assert (Main : forall calls db ob k c,
    NoDup (map Chore.id (chores db)) ->
    nth_error (chores db) k = Some c ->
    Chore.assigned_to c = None ->
    nth_error (chores (committed (rotate_many calls (mkSession db db ob)))) k
    = Some c
    /\ filter (fun h => RotationHistory.chore_id h =? Chore.id c)
              (rotation_history
                 (committed (rotate_many calls (mkSession db db ob))))
       = filter (fun h => RotationHistory.chore_id h =? Chore.id c)
                (rotation_history db)).
  { induction calls as [|[[env hid] rt] calls IH]; intros db ob k c Hpk Hk Ha.
    - simpl. auto.
    - simpl.
      destruct (rotate_chores_unassigned env hid rt db ob k c Hpk Hk Ha)
        as (Hc & Hpk' & Hk' & Hf).
      rewrite (clean_eta _ Hc).
      destruct (IH _ (outbox (snd (rotate_chores env hid rt
                                     (mkSession db db ob))))
                   k c Hpk' Hk' Ha) as [I1 I2].
      split; [exact I1|]. rewrite I2. exact Hf. }
  intros calls db ob k c Hpk Hk Ha.
  destruct (Main calls db ob k c Hpk Hk Ha) as [M1 M2].
  split; [exact M1|]. split; [exact M2|].
  intros Hnone h Hh E.
  assert (Hf : In h (filter (fun h => RotationHistory.chore_id h =? Chore.id c)
                       (rotation_history
                          (committed (rotate_many calls
                                        (mkSession db db ob)))))).
  { apply filter_In. split; [exact Hh | apply Z.eqb_eq; exact E]. }
  rewrite M2 in Hf. apply filter_In in Hf as [Hf _].
  exact (Hnone h Hf E).
Qed.

Lemma unassigned_chore_untouched_witness :
  nth_error (chores (committed (rotate_many
     [(calm, 1, "weekly"); (calm, 1, "weekly"); (calm, 1, "monthly")]
     (mkSession trio_db trio_db [])))) 3 = Some attic
  /\ filter (fun h => RotationHistory.chore_id h =? Chore.id attic)
            (rotation_history (committed (rotate_many
               [(calm, 1, "weekly"); (calm, 1, "weekly"); (calm, 1, "monthly")]
               (mkSession trio_db trio_db []))))
     = filter (fun h => RotationHistory.chore_id h =? Chore.id attic)
              (rotation_history trio_db)
  /\ ((forall h, In h (rotation_history trio_db) ->
                 RotationHistory.chore_id h <> Chore.id attic) ->
      forall h,
        In h (rotation_history (committed (rotate_many
                [(calm, 1, "weekly"); (calm, 1, "weekly");
                 (calm, 1, "monthly")]
                (mkSession trio_db trio_db [])))) ->
        RotationHistory.chore_id h <> Chore.id attic).
Proof.
  apply (unassigned_chore_untouched
           [(calm, 1, "weekly"); (calm, 1, "weekly"); (calm, 1, "monthly")]
           trio_db [] 3%nat attic).
  - nodup_tac.
  - reflexivity.
  - reflexivity.
Defined.

(** ** No-op rotation, atomicity, notification failures *)

Lemma step_db_unassigned env hid rt names c db :
  Chore.assigned_to c = None -> step_db env hid rt names c db = db.
Proof.
  intros Ha. unfold step_db, retarget, next_assignee, history_rows.
  rewrite Ha, map_if_same, app_nil_r. apply db_eta.
Qed.

Lemma run_loop_unassigned env hid rt names cs db :
  (forall c, In c cs -> Chore.assigned_to c = None) ->
  run_loop env hid rt names cs db = db.
Proof.
  unfold run_loop. induction cs as [|c cs IH]; simpl; intros H; [reflexivity|].
  rewrite step_db_unassigned by auto. apply IH. auto.
Qed.

Lemma notify_member_idle env hid m s :
  (forall c, In c (Chore_filter_by hid (working s)) ->
             Chore.assigned_to c = None) ->
  notify_member env hid m s = (Ok tt, s).
Proof.
  intros H. unfold notify_member, bind, session_objects.
  rewrite filter_nil_iff; [reflexivity|].
  intros c Hc. rewrite (H c Hc). reflexivity.
Qed.

Lemma notify_all_idle env hid ms s :
  (forall c, In c (Chore_filter_by hid (working s)) ->
             Chore.assigned_to c = None) ->
  for_each ms (notify_member env hid) s = (Ok tt, s).
Proof.
  intros H. induction ms as [|m ms IH]; simpl; [reflexivity|].
  unfold bind. rewrite notify_member_idle by assumption. exact IH.
Qed.

(** C9: for a household that exists and has chores and members, none of the
    chores being assigned, and with the three reads and the commit going
    through, [rotate_chores] returns [True] and leaves the whole session as
    it was: no chore changed, no history row, no notification, no mail. *)
Theorem rotate_all_unassigned_is_success :
  forall env hid rt db ob h,
    Household_get hid db = Some h ->
    Chore_filter_by hid db <> [] ->
    Member_filter_by hid db <> [] ->
    (forall c, In c (Chore_filter_by hid db) -> Chore.assigned_to c = None) ->
    read_fails env THousehold = false ->
    read_fails env TChore = false ->
    read_fails env TMember = false ->
    commit_fails env = false ->
    rotate_chores env hid rt (mkSession db db ob)
    = (Ok true, mkSession db db ob).
Proof.
  intros env hid rt db ob h Hh Hc Hm Hnone R1 R2 R3 Hcf.
  unfold rotate_chores, try_except, bind at 1, query.
  cbn [working committed outbox]. rewrite R1, Hh.
  unfold bind at 1. rewrite R2. unfold bind at 1. rewrite R3.
  cbn [working committed outbox].
  assert (Hring : ring hid db <> []).
  { apply ring_nonempty. destruct (Member_filter_by hid db); [congruence|reflexivity]. }
  replace (is_nil (Chore_filter_by hid db)) with false
    by (destruct (Chore_filter_by hid db); [congruence|reflexivity]).
  replace (is_nil (Member_filter_by hid db)) with false
    by (destruct (Member_filter_by hid db); [congruence|reflexivity]).
  cbn [orb]. unfold bind at 1.
  rewrite for_each_rotate_run by exact Hring.
  cbn [working committed outbox].
  fold (run_loop env hid rt (map Member.name (Member_filter_by hid db))
          (Chore_filter_by hid db) db).
  rewrite run_loop_unassigned by assumption.
  unfold bind at 1, commit. rewrite Hcf. cbn [working committed outbox].
  unfold bind. rewrite notify_all_idle by assumption. reflexivity.
Qed.

Lemma rotate_all_unassigned_is_success_witness :
  rotate_chores calm 1 "weekly" (mkSession idle_db idle_db [])
  = (Ok true, mkSession idle_db idle_db []).
Proof.
  apply (rotate_all_unassigned_is_success calm 1 "weekly" idle_db [] home).
  - reflexivity.
  - discriminate.
  - discriminate.
  - intros c [<-|[<-|[]]]; reflexivity.
  - reflexivity.
  - reflexivity.
  - reflexivity.
  - reflexivity.
Defined.

(** C3: when storage fails in steps 1 to 5 of a rotation (one of the three
    reads raises, or the commit does), the call returns [False], what is
    committed and what was mailed are as before the call, and when it was
    the commit that failed the pending writes of the loop are gone from the
    session; a session that had nothing pending is left exactly as it
    was. *)
Theorem failed_commit_leaves_no_trace :
  forall env hid rt s,
    read_fails env THousehold = true \/ read_fails env TChore = true
    \/ read_fails env TMember = true \/ commit_fails env = true ->
    exists s',
      rotate_chores env hid rt s = (Ok false, s')
      /\ committed s' = committed s
      /\ outbox s' = outbox s
      /\ (reaches_commit env hid (working s) = true ->
          working s' = committed s)
      /\ (working s = committed s -> s' = s).
Proof.
  intros env hid rt s Hf.
  unfold reaches_commit, rotate_chores, try_except, bind at 1, query.
  destruct (read_fails env THousehold) eqn:R1.
  { rolled_back clean_eta. }
  destruct (Household_get hid (working s)).
  2:{ exists s. cbn. repeat split; discriminate. }
  unfold bind at 1. destruct (read_fails env TChore) eqn:R2.
  { rolled_back clean_eta. }
  unfold bind at 1. destruct (read_fails env TMember) eqn:R3.
  { rolled_back clean_eta. }
  destruct (is_nil (Chore_filter_by hid (working s))).
  { exists s. cbn. repeat split; discriminate. }
  destruct (is_nil (Member_filter_by hid (working s))) eqn:Hm.
  { exists s. cbn. repeat split; discriminate. }
  assert (Hcf : commit_fails env = true)
    by (destruct Hf as [Hf|[Hf|[Hf|Hf]]]; congruence).
  cbn [orb]. unfold bind at 1.
  rewrite for_each_rotate_run by (apply ring_nonempty; assumption).
  unfold bind at 1, commit. rewrite Hcf.
  rolled_back clean_eta.
Qed.

Lemma failed_commit_leaves_no_trace_witness :
  exists s',
    rotate_chores commit_broken 1 "weekly" (mkSession trio_db trio_db [])
    = (Ok false, s')
    /\ committed s' = trio_db
    /\ outbox s' = []
    /\ (reaches_commit commit_broken 1 trio_db = true -> working s' = trio_db)
    /\ (trio_db = trio_db -> s' = mkSession trio_db trio_db []).
Proof.
  apply (failed_commit_leaves_no_trace commit_broken 1 "weekly"
           (mkSession trio_db trio_db [])).
  right; right; right. reflexivity.
Defined.

(** C5: once the reads and the commit have gone through, whichever log
    writes and mail deliveries fail afterwards, [rotate_chores] returns
    [True] and the committed chores and history rows are the rotated ones,
    the same as when every notification goes through. *)
Theorem notification_failures_are_swallowed :
  forall env log_breaks smtp_breaks hid rt db ob,
    NoDup (map Chore.id (chores db)) ->
    reaches_commit env hid db = true ->
    commit_fails env = false ->
    read_fails env TMemberPreference = false ->
    insert_fails env = (fun _ => false) ->
    smtp_fails env = (fun _ => false) ->
    let env' := mkEnv (now env) (current_timestamp env) (read_fails env)
                      (commit_fails env) log_breaks smtp_breaks in
    exists s s',
      rotate_chores env hid rt (mkSession db db ob) = (Ok true, s)
      /\ rotate_chores env' hid rt (mkSession db db ob) = (Ok true, s')
      /\ chores (committed s') = chores (committed s)
      /\ rotation_history (committed s') = rotation_history (committed s)
      /\ chores (committed s')
         = map (rotate_row hid (ring hid db)) (chores db)
      /\ rotation_history (committed s')
         = (rotation_history db
            ++ flat_map (history_rows env hid rt (ring hid db))
                        (Chore_filter_by hid db))%list.
Proof.
  intros env lb sb hid rt db ob Hpk Hr Hcf Hp _ _ env'.
  destruct (rotate_chores_commits env hid rt db ob Hpk Hr Hcf)
    as (b & s & Hrun & R & Hb).
  destruct (rotate_chores_commits env' hid rt db ob Hpk Hr Hcf)
    as (b' & s' & Hrun' & R' & Hb').
  rewrite (Hb Hp) in Hrun. rewrite (Hb' Hp) in Hrun'.
  exists s, s'. split; [assumption|]. split; [assumption|].
  rewrite (ro_chores _ _ _ _ _ _ R), (ro_chores _ _ _ _ _ _ R').
  rewrite (ro_history _ _ _ _ _ _ R), (ro_history _ _ _ _ _ _ R').
  repeat split.
Qed.

Lemma notification_failures_are_swallowed_witness :
  exists s s',
    rotate_chores calm 1 "weekly" (mkSession trio_db trio_db [])
    = (Ok true, s)
    /\ rotate_chores
         (mkEnv 0 0 (fun _ => false) false (fun _ => true) (fun _ => true))
         1 "weekly" (mkSession trio_db trio_db [])
       = (Ok true, s')
    /\ chores (committed s') = chores (committed s)
    /\ rotation_history (committed s') = rotation_history (committed s)
    /\ chores (committed s') = map (rotate_row 1 (ring 1 trio_db)) (chores trio_db)
    /\ rotation_history (committed s')
       = (rotation_history trio_db
          ++ flat_map (history_rows calm 1 "weekly" (ring 1 trio_db))
                      (Chore_filter_by 1 trio_db))%list.
Proof.
  apply (notification_failures_are_swallowed calm (fun _ => true)
           (fun _ => true) 1 "weekly" trio_db []).
  - nodup_tac.
  - reflexivity.
  - reflexivity.
  - reflexivity.
  - reflexivity.
  - reflexivity.
Defined.

(** ** Due-ness *)

Lemma latest_spec rows :
  rows <> [] ->
  exists r, latest rows = Some r /\ In r rows
            /\ forall r', In r' rows ->
                 RotationHistory.rotation_date r'
                 <= RotationHistory.rotation_date r.
Proof.
  induction rows as [|r0 rows IH]; [congruence|]. intros _. simpl.
  destruct rows as [|r1 rows].
  - exists r0. simpl. split; [reflexivity|]. split; [auto|].
    intros r' [<-|[]]. lia.
  - destruct IH as (r & -> & Hin & Hmax); [discriminate|].
    destruct (Z.leb_spec (RotationHistory.rotation_date r)
                         (RotationHistory.rotation_date r0)) as [Hle|Hlt].
    + exists r0. split; [reflexivity|]. split; [left; reflexivity|].
      intros r' [<-|Hr']; [lia|]. specialize (Hmax r' Hr'). lia.
    + exists r. split; [reflexivity|]. split; [right; assumption|].
      intros r' [<-|Hr']; [lia|]. auto.
Qed.

(** For a positive threshold the floor that [timedelta.days] takes and the
    truncation of the quotient agree. *)
Lemma floor_or_truncate (d x : Z) :
  0 < d -> (d <= timedelta_days x <-> d <= Z.quot x us_per_day).
Proof.
  intros Hd. unfold timedelta_days.
  assert (Hu : 0 < us_per_day) by reflexivity.
  destruct (Z.le_gt_cases 0 x) as [Hx|Hx].
  - rewrite Z.quot_div_nonneg by lia. tauto.
  - assert (x / us_per_day < 0) by (apply Z.div_lt_upper_bound; lia).
    assert (Z.quot x us_per_day <= 0).
    { rewrite <- (Z.opp_involutive x), Z.quot_opp_l by lia.
      assert (0 <= Z.quot (- x) us_per_day) by (apply Z.quot_pos; lia). lia. }
    lia.
Qed.

(** C4: for an existing household on a weekly, biweekly or monthly cadence
    with at least one history row, and the two reads going through,
    [should_rotate] returns whether the number of whole days from the most
    recent [rotation_date] to now, fractions dropped, is at least 7, 14 or
    30; a weekly household rotated exactly 7 days ago is due, one rotated
    6 days 23 hours ago is not. *)
Theorem should_rotate_threshold :
  forall env hid s h r threshold,
    read_fails env THousehold = false ->
    read_fails env TRotationHistory = false ->
    Household_get hid (working s) = Some h ->
    (Household.rotation_mode h = "weekly" /\ threshold = 7
     \/ Household.rotation_mode h = "biweekly" /\ threshold = 14
     \/ Household.rotation_mode h = "monthly" /\ threshold = 30) ->
    In r (rotation_history (working s)) ->
    RotationHistory.household_id r = hid ->
    (forall r', In r' (rotation_history (working s)) ->
                RotationHistory.household_id r' = hid ->
                RotationHistory.rotation_date r'
                <= RotationHistory.rotation_date r) ->
    exists due,
      should_rotate env hid s = (Ok due, s)
      /\ (due = true
          <-> threshold
              <= Z.quot (now env - RotationHistory.rotation_date r) us_per_day)
      /\ (Household.rotation_mode h = "weekly" ->
          (now env - RotationHistory.rotation_date r = 7 * us_per_day ->
           due = true)
          /\ (now env - RotationHistory.rotation_date r
              = 6 * us_per_day + 23 * 3600 * 1000000 ->
              due = false)).
Proof.
  intros env hid s h r threshold R1 R2 Hh Hmode Hr Hhid Hmax.
  set (rows := filter (fun r => RotationHistory.household_id r =? hid)
                      (rotation_history (working s))).
  assert (Hin : In r rows) by (apply filter_In; split; [|apply Z.eqb_eq]; auto).
  destruct (latest_spec rows) as (r0 & Hl & Hr0 & Hmax0).
  { intros E. rewrite E in Hin. destruct Hin. }
  apply filter_In in Hr0 as [Hr0 Hr0h]. apply Z.eqb_eq in Hr0h.
  assert (Hdate : RotationHistory.rotation_date r0
                  = RotationHistory.rotation_date r).
  { specialize (Hmax r0 Hr0 Hr0h). specialize (Hmax0 r Hin). lia. }
  set (d := timedelta_days (now env - RotationHistory.rotation_date r)).
  assert (Hrun : should_rotate env hid s
                 = (Ok (if (Household.rotation_mode h =? "weekly")%string
                           && (7 <=? d) then true
                        else if (Household.rotation_mode h =? "biweekly")%string
                                && (14 <=? d) then true
                        else if (Household.rotation_mode h =? "monthly")%string
                                && (30 <=? d) then true
                        else false), s)).
  { unfold should_rotate, try_except, bind, query.
    rewrite R1, Hh, R2.
    replace (Household.rotation_mode h =? "none")%string with false
      by (destruct Hmode as [[-> _]|[[-> _]|[-> _]]]; reflexivity).
    unfold RotationHistory_last. fold rows. rewrite Hl, Hdate. fold d.
    repeat match goal with |- context [if ?b then _ else _] =>
                             destruct b end; reflexivity. }
  eexists. split; [exact Hrun|].
  pose proof (floor_or_truncate 7 (now env - RotationHistory.rotation_date r)
                eq_refl) as F7.
  pose proof (floor_or_truncate 14 (now env - RotationHistory.rotation_date r)
                eq_refl) as F14.
  pose proof (floor_or_truncate 30 (now env - RotationHistory.rotation_date r)
                eq_refl) as F30.
  fold d in F7, F14, F30.
  split.
  - destruct Hmode as [[-> ->]|[[-> ->]|[-> ->]]]; cbn [String.eqb Ascii.eqb Bool.eqb andb].
    + rewrite <- F7. destruct (Z.leb_spec 7 d); split; intros; try lia;
        try reflexivity; try discriminate.
    + rewrite <- F14. destruct (Z.leb_spec 14 d); split; intros; try lia;
        try reflexivity; try discriminate.
    + rewrite <- F30. destruct (Z.leb_spec 30 d); split; intros; try lia;
        try reflexivity; try discriminate.
  - intros ->. cbn [String.eqb Ascii.eqb Bool.eqb andb].
    split; intros E; unfold d; rewrite E.
    + reflexivity.
    + reflexivity.
Qed.

Lemma should_rotate_threshold_witness :
  exists due,
    should_rotate a_week_on 1 (mkSession rotated_twice_db rotated_twice_db [])
    = (Ok due, mkSession rotated_twice_db rotated_twice_db [])
    /\ (due = true
        <-> 7 <= Z.quot (now a_week_on - 5 * us_per_day) us_per_day)
    /\ (Household.rotation_mode home = "weekly" ->
        (now a_week_on - 5 * us_per_day = 7 * us_per_day -> due = true)
        /\ (now a_week_on - 5 * us_per_day
            = 6 * us_per_day + 23 * 3600 * 1000000 -> due = false)).
Proof.
  apply (should_rotate_threshold a_week_on 1
           (mkSession rotated_twice_db rotated_twice_db []) home
           (RotationHistory.mk 1 1 (Some "Cy") (Some "Ann") (5 * us_per_day)
              "weekly") 7).
  - reflexivity.
  - reflexivity.
  - reflexivity.
  - left. split; reflexivity.
  - left. reflexivity.
  - reflexivity.
  - intros r' [<-|[<-|[]]] _; vm_compute; discriminate.
Defined.

(** ** The reminder pass *)

Lemma existsb_is_nil {A} (p : A -> bool) l :
  is_nil l = true -> existsb p l = false.
Proof. destruct l; [reflexivity | discriminate]. Qed.

Lemma MemberPreference_first_ext hid n db db' :
  member_preferences db = member_preferences db' ->
  MemberPreference_first hid n db = MemberPreference_first hid n db'.
Proof. unfold MemberPreference_first. intros ->. reflexivity. Qed.

Lemma reminder_verdict_ext env h db db' c :
  member_preferences db = member_preferences db' ->
  reminder_verdict env h db c = reminder_verdict env h db' c.
Proof.
  intros E. unfold reminder_verdict.
  rewrite (MemberPreference_first_ext _ _ _ _ E). reflexivity.
Qed.

Lemma pass_log_ext env h db db' cs :
  member_preferences db = member_preferences db' ->
  pass_log env h db cs = pass_log env h db' cs.
Proof.
  intros E. induction cs as [|c cs IH]; simpl; [reflexivity|].
  rewrite (reminder_verdict_ext _ _ _ _ _ E), IH. reflexivity.
Qed.

Lemma pass_mail_ext env h db db' cs :
  member_preferences db = member_preferences db' ->
  pass_mail env h db cs = pass_mail env h db' cs.
Proof.
  intros E. induction cs as [|c cs IH]; simpl; [reflexivity|].
  rewrite (reminder_verdict_ext _ _ _ _ _ E), IH. reflexivity.
Qed.

Lemma first_preference_assignee hid a db p :
  MemberPreference_first hid a db = Some p -> exists name, a = Some name.
Proof. destruct a as [name|]; [eauto | discriminate]. Qed.

(** The loop body on a session with nothing pending. *)
Lemma remind_chore_run env h c s :
  working s = committed s ->
  read_fails env TMemberPreference = false ->
  exists o s',
    remind_chore env h c s = (o, s')
    /\ working s' = committed s'
    /\ (o = Raise TypeError <-> reminder_verdict env h (working s) c = Trip)
    /\ (o = Ok tt \/ o = Raise TypeError)
    /\ (o = Raise TypeError -> s' = s)
    /\ notifications (committed s')
       = (notifications (committed s)
          ++ logged env h c (reminder_verdict env h (working s) c))%list
    /\ outbox s'
       = (outbox s ++ mailed env c (reminder_verdict env h (working s) c))%list
    /\ member_preferences (committed s') = member_preferences (committed s)
    /\ chores (committed s') = chores (committed s).
Proof.
  intros Hc Hr.
  assert (Idle : forall v, logged env h c v = [] -> mailed env c v = [] ->
            v <> Trip ->
            reminder_verdict env h (working s) c = v ->
            exists o s', (Ok tt, s) = (o, s') /\ working s' = committed s'
              /\ (o = Raise TypeError
                  <-> reminder_verdict env h (working s) c = Trip)
              /\ (o = Ok tt \/ o = Raise TypeError)
              /\ (o = Raise TypeError -> s' = s)
              /\ notifications (committed s')
                 = (notifications (committed s)
                    ++ logged env h c
                         (reminder_verdict env h (working s) c))%list
              /\ outbox s'
                 = (outbox s
                    ++ mailed env c
                         (reminder_verdict env h (working s) c))%list
              /\ member_preferences (committed s')
                 = member_preferences (committed s)
              /\ chores (committed s') = chores (committed s)).
  { intros v L Ml Hv ->. exists (Ok tt), s. rewrite L, Ml, !app_nil_r.
    repeat split; auto; try discriminate. intros E; contradiction. }
  unfold remind_chore.
  destruct (is_nil (Chore.days c)) eqn:Hn.
  { apply (Idle Skip); try reflexivity; try discriminate.
    unfold reminder_verdict, due_today. rewrite existsb_is_nil; auto. }
  fold (due_today env c).
  destruct (due_today env c) eqn:Hd; cbn [negb].
  2:{ apply (Idle Skip); try reflexivity; try discriminate.
      unfold reminder_verdict. rewrite Hd. reflexivity. }
  unfold bind at 1, query. rewrite Hr.
  destruct (MemberPreference_first (Household.id h) (Chore.assigned_to c)
              (working s)) as [p|] eqn:Hp.
  2:{ apply (Idle Skip); try reflexivity; try discriminate.
      unfold reminder_verdict. rewrite Hd, Hp. reflexivity. }
  destruct (MemberPreference.notification_enabled p) eqn:He; cbn [negb].
  2:{ apply (Idle Skip); try reflexivity; try discriminate.
      unfold reminder_verdict. rewrite Hd, Hp, He. reflexivity. }
  destruct (MemberPreference.reminder_time p) as [rt|] eqn:Hrt.
  2:{ exists (Raise TypeError), s.
      assert (V : reminder_verdict env h (working s) c = Trip)
        by (unfold reminder_verdict; rewrite Hd, Hp, He, Hrt; reflexivity).
      rewrite V. cbn. rewrite !app_nil_r. repeat split; auto. }
  destruct (String.leb rt (strftime_HM (now env))) eqn:Hle.
  2:{ apply (Idle Skip); try reflexivity; try discriminate.
      unfold reminder_verdict. rewrite Hd, Hp, He, Hrt, Hle. reflexivity. }
  assert (V : reminder_verdict env h (working s) c = Remind p)
    by (unfold reminder_verdict; rewrite Hd, Hp, He, Hrt, Hle; reflexivity).
  rewrite V.
  destruct (first_preference_assignee _ _ _ _ Hp) as [name Hname].
  rewrite Hname. unfold logged, mailed. rewrite Hname.
  unfold bind at 1, create_notification_record, try_except, bind at 1.
  unfold add_notification, modify_working, bind at 1, commit.
  cbn [working committed outbox].
  fold (reminder_message c). fold (reminder_row h c name).
  destruct (insert_fails env (reminder_row h c name)) eqn:Hi.
  - (* the log write raises and is rolled back *)
    unfold bind at 1, rollback, ret. cbn [working committed outbox].
    destruct (MemberPreference.email p) as [addr|].
    2:{ eexists _, _. split; [reflexivity|]. cbn. rewrite !app_nil_r.
        repeat split; auto; discriminate. }
    destruct (addr =? "")%string.
    { eexists _, _. split; [reflexivity|]. cbn. rewrite !app_nil_r.
      repeat split; auto; discriminate. }
    unfold bind, send_email_notification. fold (reminder_mail c addr).
    destruct (smtp_fails env (reminder_mail c addr)).
    + eexists _, _. split; [reflexivity|]. cbn. rewrite !app_nil_r.
      repeat split; auto; discriminate.
    + eexists _, _. split; [reflexivity|]. cbn. rewrite !app_nil_r.
      repeat split; auto; discriminate.
  - unfold bind at 1, ret. cbn [working committed outbox].
    destruct (MemberPreference.email p) as [addr|].
    2:{ eexists _, _. split; [reflexivity|]. cbn. rewrite !app_nil_r, Hc.
        repeat split; auto; discriminate. }
    destruct (addr =? "")%string.
    { eexists _, _. split; [reflexivity|]. cbn. rewrite !app_nil_r, Hc.
      repeat split; auto; discriminate. }
    unfold bind, send_email_notification. fold (reminder_mail c addr).
    destruct (smtp_fails env (reminder_mail c addr)).
    + eexists _, _. split; [reflexivity|]. cbn. rewrite !app_nil_r, Hc.
      repeat split; auto; discriminate.
    + eexists _, _. split; [reflexivity|]. cbn. rewrite Hc.
      repeat split; auto; discriminate.
Qed.

Lemma remind_pass_run env h cs s :
  working s = committed s ->
  read_fails env TMemberPreference = false ->
  exists o s',
    for_each cs (remind_chore env h) s = (o, s')
    /\ notifications (committed s')
       = (notifications (committed s) ++ pass_log env h (working s) cs)%list
    /\ outbox s' = (outbox s ++ pass_mail env h (working s) cs)%list
    /\ chores (committed s') = chores (committed s).
Proof.
  intros Hc Hr. revert s Hc.
  induction cs as [|c cs IH]; intros s Hc.
  - exists (Ok tt), s. cbn. rewrite !app_nil_r. auto.
  - cbn [for_each pass_log pass_mail]. unfold bind.
    destruct (remind_chore_run env h c s Hc Hr)
      as (o & s1 & -> & Hc1 & Ho & Hcases & Hsame & Hn & Hm & Hp & Hch).
    destruct Hcases as [-> | ->].
    + destruct (reminder_verdict env h (working s) c) eqn:V.
      * destruct (IH s1 Hc1) as (o2 & s2 & -> & Hn2 & Hm2 & Hch2).
        exists o2, s2. split; [reflexivity|].
        rewrite Hn2, Hm2, Hn, Hm, Hch2, Hch, <- !app_assoc.
        rewrite (pass_log_ext env h (working s1) (working s)),
                (pass_mail_ext env h (working s1) (working s)); auto;
          congruence.
      * destruct Ho as [_ Ho]. specialize (Ho eq_refl). discriminate.
      * destruct (IH s1 Hc1) as (o2 & s2 & -> & Hn2 & Hm2 & Hch2).
        exists o2, s2. split; [reflexivity|].
        rewrite Hn2, Hm2, Hn, Hm, Hch2, Hch, <- !app_assoc.
        rewrite (pass_log_ext env h (working s1) (working s)),
                (pass_mail_ext env h (working s1) (working s)); auto;
          congruence.
    + destruct Ho as [Ho _]. rewrite (Ho eq_refl).
      rewrite (Hsame eq_refl). exists (Raise TypeError), s.
      rewrite !app_nil_r. auto.
Qed.

Lemma pass_log_complete env h db cs k c n :
  nth_error cs k = Some c ->
  (forall j c', (j < k)%nat -> nth_error cs j = Some c' ->
                reminder_verdict env h db c' <> Trip) ->
  In n (logged env h c (reminder_verdict env h db c)) ->
  In n (pass_log env h db cs).
Proof.
  revert k; induction cs as [|c0 cs IH]; intros k Hk Hno Hin.
  - destruct k; discriminate.
  - destruct k as [|k]; simpl in Hk.
    + injection Hk as ->. simpl.
      destruct (reminder_verdict env h db c); simpl in Hin |- *;
        first [ contradiction | apply in_or_app; left; assumption ].
    + simpl.
      pose proof (Hno 0%nat c0 (Nat.lt_0_succ k) eq_refl) as H0.
      assert (Hrest : In n (pass_log env h db cs)).
      { apply (IH k); auto. intros j c' Hj Hc'.
        apply (Hno (S j) c'); [lia | exact Hc']. }
      destruct (reminder_verdict env h db c0); simpl;
        first [ assumption | exfalso; apply H0; reflexivity
              | apply in_or_app; right; assumption ].
Qed.

Lemma pass_mail_complete env h db cs k c e :
  nth_error cs k = Some c ->
  (forall j c', (j < k)%nat -> nth_error cs j = Some c' ->
                reminder_verdict env h db c' <> Trip) ->
  In e (mailed env c (reminder_verdict env h db c)) ->
  In e (pass_mail env h db cs).
Proof.
  revert k; induction cs as [|c0 cs IH]; intros k Hk Hno Hin.
  - destruct k; discriminate.
  - destruct k as [|k]; simpl in Hk.
    + injection Hk as ->. simpl.
      destruct (reminder_verdict env h db c); simpl in Hin |- *;
        first [ contradiction | apply in_or_app; left; assumption ].
    + simpl.
      pose proof (Hno 0%nat c0 (Nat.lt_0_succ k) eq_refl) as H0.
      assert (Hrest : In e (pass_mail env h db cs)).
      { apply (IH k); auto. intros j c' Hj Hc'.
        apply (Hno (S j) c'); [lia | exact Hc']. }
      destruct (reminder_verdict env h db c0); simpl;
        first [ assumption | exfalso; apply H0; reflexivity
              | apply in_or_app; right; assumption ].
Qed.

Lemma pass_log_sound env h db cs n :
  In n (pass_log env h db cs) ->
  exists c, In c cs /\ In n (logged env h c (reminder_verdict env h db c)).
Proof.
  induction cs as [|c0 cs IH]; simpl; [intros []|].
  destruct (reminder_verdict env h db c0) eqn:V; intros Hin.
  - destruct (IH Hin) as (c & Hc & Hl). eauto.
  - destruct Hin.
  - apply in_app_or in Hin as [Hin|Hin].
    + exists c0. rewrite V. auto.
    + destruct (IH Hin) as (c & Hc & Hl). eauto.
Qed.

Lemma reminder_verdict_Remind env h db c p :
  reminder_verdict env h db c = Remind p <->
  due_today env c = true
  /\ MemberPreference_first (Household.id h) (Chore.assigned_to c) db = Some p
  /\ MemberPreference.notification_enabled p = true
  /\ exists rt, MemberPreference.reminder_time p = Some rt
                /\ String.leb rt (strftime_HM (now env)) = true.
Proof.
  unfold reminder_verdict. split.
  - destruct (due_today env c); [|discriminate].
    destruct (MemberPreference_first _ _ db) as [q|]; [|discriminate].
    destruct (MemberPreference.notification_enabled q) eqn:He; [|discriminate].
    destruct (MemberPreference.reminder_time q) as [rt|] eqn:Hrt;
      [|discriminate].
    destruct (String.leb rt _) eqn:Hle; [|discriminate].
    intros E. injection E as <-. eauto 10.
  - intros (-> & -> & -> & rt & -> & ->). reflexivity.
Qed.

Lemma bind_assoc {A B C} (m : M A) (f : A -> M B) (g : B -> M C) s :
  bind (bind m f) g s = bind m (fun x => bind (f x) g) s.
Proof. unfold bind. destruct (m s) as [[a|e] s1]; reflexivity. Qed.

Lemma should_rotate_total env hid s :
  exists due, should_rotate env hid s = (Ok due, s).
Proof.
  unfold should_rotate, try_except, bind, query.
  destruct (read_fails env THousehold); [eexists; reflexivity|].
  destruct (Household_get hid (working s)); [|eexists; reflexivity].
  destruct (_ =? "none")%string; [eexists; reflexivity|].
  destruct (read_fails env TRotationHistory); [eexists; reflexivity|].
  destruct (RotationHistory_last hid (working s)); [|eexists; reflexivity].
  repeat match goal with |- context [if ?b then _ else _] => destruct b end;
    eexists; reflexivity.
Qed.

Lemma rotate_chores_total env hid rt db ob :
  NoDup (map Chore.id (chores db)) ->
  exists b s',
    rotate_chores env hid rt (mkSession db db ob) = (Ok b, s')
    /\ working s' = committed s'
    /\ NoDup (map Chore.id (chores (committed s'))).
Proof.
  intros Hpk.
  destruct (reaches_commit env hid db && negb (commit_fails env)) eqn:E.
  - apply andb_true_iff in E as [E1 E2]. apply negb_true_iff in E2.
    destruct (rotate_chores_commits env hid rt db ob Hpk E1 E2)
      as (b & s1 & -> & R & _).
    exists b, s1. split; [reflexivity|].
    split; [apply (ro_clean _ _ _ _ _ _ R)|].
    rewrite (ro_chores _ _ _ _ _ _ R), rotate_row_ids. assumption.
  - rewrite rotate_chores_stops by assumption.
    exists false. eexists. split; [reflexivity|]. cbn. auto.
Qed.

Lemma rotation_step_run env h s :
  working s = committed s ->
  NoDup (map Chore.id (chores (working s))) ->
  exists s1,
    rotation_step env h s = (Ok tt, s1)
    /\ working s1 = committed s1
    /\ NoDup (map Chore.id (chores (working s1))).
Proof.
  intros Hc Hpk. unfold rotation_step, bind at 1.
  destruct (should_rotate_total env (Household.id h) s) as [due ->].
  destruct due.
  - rewrite (clean_eta s Hc). rewrite Hc in Hpk. unfold bind.
    destruct (rotate_chores_total env (Household.id h)
                (Household.rotation_mode h) (committed s) (outbox s) Hpk)
      as (b & s1 & -> & Hc1 & Hpk1).
    exists s1. split; [reflexivity|]. rewrite Hc1. auto.
  - exists s. auto.
Qed.

Lemma process_household_unfold env h s :
  process_household env h s
  = try_except
      (rotation_step env h ;;;
       chores <- query env TChore
                   (Chore_filter_incomplete (Household.id h)) ;;
       for_each chores (remind_chore env h))
      (fun _ => ret tt) s.
Proof.
  unfold process_household, rotation_step, try_except.
  rewrite bind_assoc. reflexivity.
Qed.

Lemma process_household_never_raises env h s :
  exists s', process_household env h s = (Ok tt, s').
Proof.
  unfold process_household, try_except.
  match goal with |- context [match ?b s with _ => _ end] =>
    destruct (b s) as [[[]|e] s1] end; eexists; reflexivity.
Qed.

Lemma sweep_never_raises env s :
  exists s', sweep env s = (Ok tt, s').
Proof.
  unfold sweep, try_except.
  destruct ((households <- query env THousehold households ;;
             for_each households (process_household env)) s)
    as [[[]|e] s1]; eexists; reflexivity.
Qed.

(** X16: A sweep is the household passes one after the other, in load order. *)
Lemma sweep_is_the_passes env s :
  read_fails env THousehold = false ->
  sweep env s = for_each (households (working s)) (process_household env) s.
Proof.
  intros R. unfold sweep, try_except, bind, query. rewrite R.
  generalize (households (working s)) as hs. intros hs.
  assert (T : forall hs s0, exists s1,
             for_each hs (process_household env) s0 = (Ok tt, s1)).
  { induction hs0 as [|h hs0 IH]; intros s0; cbn [for_each].
    - exists s0. reflexivity.
    - unfold bind.
      destruct (process_household_never_raises env h s0) as [s1 ->].
      apply IH. }
  destruct (T hs s) as [s1 ->]. reflexivity.
Qed.

Lemma logged_inv env h c v n :
  In n (logged env h c v) ->
  exists p name,
    v = Remind p /\ Chore.assigned_to c = Some name
    /\ n = reminder_row h c name
    /\ insert_fails env (reminder_row h c name) = false.
Proof.
  unfold logged. destruct v as [| |p]; try (intros []).
  destruct (Chore.assigned_to c) as [name|]; [|intros []].
  destruct (insert_fails env _) eqn:Hi; [intros []|].
  intros [<-|[]]. eauto 10.
Qed.

Lemma pass_reaches_no_trip env h db cs k :
  pass_reaches env h db cs k <->
  (forall j c', (j < k)%nat -> nth_error cs j = Some c' ->
                reminder_verdict env h db c' <> Trip).
Proof.
  split.
  - intros Hno j c' Hj Hc' T. unfold reminder_verdict in T.
    destruct (due_today env c') eqn:Hd'; [|discriminate T].
    destruct (MemberPreference_first (Household.id h) (Chore.assigned_to c') db)
      as [p'|] eqn:Hp'; [|discriminate T].
    destruct (MemberPreference.notification_enabled p') eqn:He';
      [|discriminate T].
    pose proof (Hno j c' p' Hj Hc' Hd' Hp' He') as Hsome.
    destruct (MemberPreference.reminder_time p') as [rt'|]; [|congruence].
    destruct (String.leb rt' (strftime_HM (now env))); discriminate T.
  - intros Hno j c' p' Hj Hc' Hd Hp He Hrt.
    apply (Hno j c' Hj Hc'). unfold reminder_verdict.
    rewrite Hd, Hp, He, Hrt. reflexivity.
Qed.

Lemma pass_log_origin env h db cs n :
  In n (pass_log env h db cs) ->
  exists k c,
    nth_error cs k = Some c
    /\ pass_reaches env h db cs k
    /\ In n (logged env h c (reminder_verdict env h db c)).
Proof.
  induction cs as [|c0 cs IH]; cbn [pass_log]; [intros []|].
  assert (Later : reminder_verdict env h db c0 <> Trip ->
            In n (pass_log env h db cs) ->
            exists k c,
              nth_error (c0 :: cs) k = Some c
              /\ pass_reaches env h db (c0 :: cs) k
              /\ In n (logged env h c (reminder_verdict env h db c))).
  { intros V0 Hin. destruct (IH Hin) as (k & c & Hk & Hr & Hl).
    exists (S k), c. split; [exact Hk|]. split; [|exact Hl].
    apply pass_reaches_no_trip. intros [|j] c' Hj Hc'.
    - injection Hc' as <-. exact V0.
    - apply (proj1 (pass_reaches_no_trip env h db cs k) Hr j c');
        [lia | exact Hc']. }
  assert (Here : In n (logged env h c0 (reminder_verdict env h db c0)) ->
            exists k c,
              nth_error (c0 :: cs) k = Some c
              /\ pass_reaches env h db (c0 :: cs) k
              /\ In n (logged env h c (reminder_verdict env h db c))).
  { intros Hl. exists 0%nat, c0. split; [reflexivity|]. split; [|exact Hl].
    intros j c' p' Hj. lia. }
  destruct (reminder_verdict env h db c0) eqn:V; intros Hin.
  - apply in_app_or in Hin as [Hin|Hin]; [destruct Hin|].
    apply Later; [discriminate | exact Hin].
  - destruct Hin.
  - apply in_app_or in Hin as [Hin|Hin]; [apply Here; exact Hin|].
    apply Later; [discriminate | exact Hin].
Qed.

Lemma pass_mail_origin env h db cs e :
  In e (pass_mail env h db cs) ->
  exists k c,
    nth_error cs k = Some c
    /\ pass_reaches env h db cs k
    /\ In e (mailed env c (reminder_verdict env h db c)).
Proof.
  induction cs as [|c0 cs IH]; cbn [pass_mail]; [intros []|].
  assert (Later : reminder_verdict env h db c0 <> Trip ->
            In e (pass_mail env h db cs) ->
            exists k c,
              nth_error (c0 :: cs) k = Some c
              /\ pass_reaches env h db (c0 :: cs) k
              /\ In e (mailed env c (reminder_verdict env h db c))).
  { intros V0 Hin. destruct (IH Hin) as (k & c & Hk & Hr & Hl).
    exists (S k), c. split; [exact Hk|]. split; [|exact Hl].
    apply pass_reaches_no_trip. intros [|j] c' Hj Hc'.
    - injection Hc' as <-. exact V0.
    - apply (proj1 (pass_reaches_no_trip env h db cs k) Hr j c');
        [lia | exact Hc']. }
  assert (Here : In e (mailed env c0 (reminder_verdict env h db c0)) ->
            exists k c,
              nth_error (c0 :: cs) k = Some c
              /\ pass_reaches env h db (c0 :: cs) k
              /\ In e (mailed env c (reminder_verdict env h db c))).
  { intros Hl. exists 0%nat, c0. split; [reflexivity|]. split; [|exact Hl].
    intros j c' p' Hj. lia. }
  destruct (reminder_verdict env h db c0) eqn:V; intros Hin.
  - apply in_app_or in Hin as [Hin|Hin]; [destruct Hin|].
    apply Later; [discriminate | exact Hin].
  - destruct Hin.
  - apply in_app_or in Hin as [Hin|Hin]; [apply Here; exact Hin|].
    apply Later; [discriminate | exact Hin].
Qed.

Lemma mailed_inv env c v e :
  In e (mailed env c v) ->
  exists p addr,
    v = Remind p /\ MemberPreference.email p = Some addr /\ addr <> ""
    /\ e = reminder_mail c addr /\ smtp_fails env e = false.
Proof.
  unfold mailed. destruct v as [| |p]; try (intros []).
  destruct (MemberPreference.email p) as [addr|] eqn:Ha; [|intros []].
  destruct (String.eqb_spec addr "") as [->|Hne]; [intros []|].
  destruct (smtp_fails env (reminder_mail c addr)) eqn:Hs; [intros []|].
  intros [<-|[]]. exists p, addr. auto.
Qed.

(** With the preference read failing the loop body writes nothing: it
    returns before the read or raises at it. *)
Lemma remind_pass_unread env h cs s :
  read_fails env TMemberPreference = true ->
  exists o, for_each cs (remind_chore env h) s = (o, s).
Proof.
  intros Hr. induction cs as [|c cs IH]; [exists (Ok tt); reflexivity|].
  cbn [for_each]. unfold bind at 1, remind_chore.
  destruct (is_nil (Chore.days c)); [exact IH|].
  destruct (negb _); [exact IH|].
  unfold bind, query. rewrite Hr. eexists; reflexivity.
Qed.

(** C8: in the pass over a household's incomplete chores, loaded after the
    rotation step, a chore that recurs today gets a reminder row in the log,
    unless the log write fails, and a mail when the preference has a
    non-empty address and the delivery works, whether or not the row went
    in, if its assignee's first preference record has notifications enabled
    and a reminder time that is, as an HH:MM text, at most the current
    time, provided the reads go through and no chore handled before it in
    the pass has an assignee whose enabled preference has a null reminder
    time.  Conversely every row the pass adds is the reminder of such a
    chore whose log write went through, and every mail the pass sends is
    the reminder of such a chore with a non-empty address and a delivery
    that worked; with a failing read the pass adds and sends nothing. *)
Theorem reminder_pass_correct :
  forall env h s,
    working s = committed s ->
    NoDup (map Chore.id (chores (working s))) ->
    let s1 := snd (rotation_step env h s) in
    let cs := Chore_filter_incomplete (Household.id h) (working s1) in
    exists s2 added sent,
      process_household env h s = (Ok tt, s2)
      /\ notifications (committed s2)
         = (notifications (committed s1) ++ added)%list
      /\ outbox s2 = (outbox s1 ++ sent)%list
      /\ (read_fails env TChore = false ->
          read_fails env TMemberPreference = false ->
          forall k c name p rt,
            nth_error cs k = Some c ->
            due_today env c = true ->
            Chore.assigned_to c = Some name ->
            MemberPreference_first (Household.id h) (Some name) (working s1)
            = Some p ->
            MemberPreference.notification_enabled p = true ->
            MemberPreference.reminder_time p = Some rt ->
            String.leb rt (strftime_HM (now env)) = true ->
            pass_reaches env h (working s1) cs k ->
            (insert_fails env (reminder_row h c name) = false ->
             In (reminder_row h c name) added)
            /\ (forall addr,
                  MemberPreference.email p = Some addr -> addr <> "" ->
                  smtp_fails env (reminder_mail c addr) = false ->
                  In (reminder_mail c addr) sent))
      /\ (forall c n,
            In c (chores (working s1)) -> In n added ->
            Notification.chore_id n = Some (Chore.id c) ->
            read_fails env TChore = false
            /\ read_fails env TMemberPreference = false
            /\ Chore.household_id c = Household.id h
            /\ Chore.completed c = false
            /\ due_today env c = true
            /\ exists k name p rt,
                 nth_error cs k = Some c
                 /\ pass_reaches env h (working s1) cs k
                 /\ Chore.assigned_to c = Some name
                 /\ MemberPreference_first (Household.id h) (Some name)
                      (working s1) = Some p
                 /\ MemberPreference.notification_enabled p = true
                 /\ MemberPreference.reminder_time p = Some rt
                 /\ String.leb rt (strftime_HM (now env)) = true
                 /\ n = reminder_row h c name
                 /\ insert_fails env n = false)
      /\ (forall e,
            In e sent ->
            read_fails env TChore = false
            /\ read_fails env TMemberPreference = false
            /\ exists k c name p rt addr,
                 nth_error cs k = Some c
                 /\ pass_reaches env h (working s1) cs k
                 /\ due_today env c = true
                 /\ Chore.assigned_to c = Some name
                 /\ MemberPreference_first (Household.id h) (Some name)
                      (working s1) = Some p
                 /\ MemberPreference.notification_enabled p = true
                 /\ MemberPreference.reminder_time p = Some rt
                 /\ String.leb rt (strftime_HM (now env)) = true
                 /\ MemberPreference.email p = Some addr
                 /\ addr <> ""
                 /\ e = reminder_mail c addr
                 /\ smtp_fails env e = false).
Proof.
  intros env h s Hc Hpk s1 cs.
  destruct (rotation_step_run env h s Hc Hpk) as (s1' & Hstep & Hc1 & Hpk1).
  assert (Es1 : s1 = s1') by (unfold s1; rewrite Hstep; reflexivity).
  rewrite <- Es1 in Hstep, Hc1, Hpk1.
  destruct (read_fails env TChore) eqn:R1.
  { exists s1, [], []. rewrite !app_nil_r. split.
    - rewrite process_household_unfold. unfold try_except, bind at 1.
      rewrite Hstep. unfold bind, query. rewrite R1. reflexivity.
    - split; [reflexivity|]. split; [reflexivity|].
      split; [intros R; discriminate R|].
      split; [intros c n _ []|intros e []]. }
  destruct (read_fails env TMemberPreference) eqn:R2.
  { exists s1, [], []. rewrite !app_nil_r. split.
    - rewrite process_household_unfold. unfold try_except, bind at 1.
      rewrite Hstep. unfold bind, query. rewrite R1. fold cs.
      destruct (remind_pass_unread env h cs s1 R2) as [o ->].
      destruct o as [[]|e]; reflexivity.
    - split; [reflexivity|]. split; [reflexivity|].
      split; [intros _ R; discriminate R|].
      split; [intros c n _ []|intros e []]. }
  destruct (remind_pass_run env h cs s1 Hc1 R2)
    as (o & s2 & Hpass & Hn & Hm & _).
  exists s2, (pass_log env h (working s1) cs), (pass_mail env h (working s1) cs).
  split.
  { rewrite process_household_unfold. unfold try_except, bind at 1.
    rewrite Hstep. unfold bind, query. rewrite R1. fold cs. rewrite Hpass.
    destruct o as [[]|e]; reflexivity. }
  split; [exact Hn|]. split; [exact Hm|]. split; [|split].
  - intros _ _ k c name p rt Hk Hd Ha Hp He Hrt Hle Hno.
    assert (V : reminder_verdict env h (working s1) c = Remind p).
    { apply reminder_verdict_Remind. rewrite Ha. eauto 10. }
    pose proof (proj1 (pass_reaches_no_trip env h _ cs k) Hno) as Hno'.
    split.
    + intros Hi. apply (pass_log_complete env h _ cs k c); auto.
      rewrite V. unfold logged. rewrite Ha, Hi. left; reflexivity.
    + intros addr Haddr Hne Hs.
      apply (pass_mail_complete env h _ cs k c); auto.
      rewrite V. unfold mailed. rewrite Haddr.
      apply String.eqb_neq in Hne. rewrite Hne, Hs. left; reflexivity.
  - intros c n Hin Hadded Hid.
    apply pass_log_origin in Hadded as (k & c2 & Hk & Hreach & Hl).
    apply logged_inv in Hl as (p & name & V & Ha & -> & Hins).
    pose proof (nth_error_In _ _ Hk) as Hc2.
    apply filter_In in Hc2 as [Hc2 Hf].
    assert (c2 = c).
    { apply (NoDup_map_inj Chore.id (chores (working s1))); auto.
      simpl in Hid. congruence. }
    subst c2.
    apply andb_true_iff in Hf as [Hh Hdone].
    apply Z.eqb_eq in Hh. apply negb_true_iff in Hdone.
    apply reminder_verdict_Remind in V as (Hd & Hp & He & rt & Hrt & Hle).
    rewrite Ha in Hp.
    repeat (split; [auto; fail|]). exists k, name, p, rt. auto 12.
  - intros e He.
    apply pass_mail_origin in He as (k & c & Hk & Hreach & Hl).
    apply mailed_inv in Hl as (p & addr & V & Haddr & Hne & -> & Hs).
    apply reminder_verdict_Remind in V as (Hd & Hp & Hen & rt & Hrt & Hle).
    destruct (Chore.assigned_to c) as [name|] eqn:Ha; [|discriminate Hp].
    repeat (split; [auto; fail|]). exists k, c, name, p, rt, addr.
    rewrite Ha. auto 15.
Qed.

(** C8 does not hold after an error in the pass: on a Monday at 10:00 Bins
    is incomplete, recurs on Monday, and Bob's preference has notifications
    on and the reminder time 09:00; but Sweeping, loaded before it, belongs
    to Ann whose enabled preference has no reminder time, the comparison
    raises, the household is skipped and no reminder for Bins is written. *)
Lemma reminder_lost_after_error :
  process_household monday_ten steady (mkSession timeless_db timeless_db [])
  = (Ok tt, mkSession timeless_db timeless_db [])
  /\ strftime_A (now monday_ten) = "Monday"
  /\ strftime_HM (now monday_ten) = "10:00"
  /\ Chore_filter_incomplete 1 timeless_db = [sweeping; bins]
  /\ MemberPreference_first 1 (Chore.assigned_to bins) timeless_db
     = Some bob_preference
  /\ notifications timeless_db = []
  /\ ~ reminders_as_stated.
Proof.
  repeat (split; [vm_compute; reflexivity|]).
  intros H.
  destruct (H monday_ten steady (mkSession timeless_db timeless_db [])
              1%nat bins "Bob" bob_preference "09:00")
    as (s2 & added & Hrun & Hn & Hin); try reflexivity; try nodup_tac.
  vm_compute in Hrun. injection Hrun as <-.
  vm_compute in Hn. destruct added; [destruct Hin | discriminate Hn].
Qed.

(** The data of [timeless_db] arise through the preferences route: a PUT
    with a null [reminder_time] for Ann turns [timely_db] into it. *)
Lemma timeless_db_by_preferences_route :
  update_member_preferences calm "AB12CD34" "Ann"
    (mkPreferenceUpdate None None None (Some None) None)
    (mkSession timely_db timely_db [])
  = (Ok (200, Some (MemberPreference.mk "Ann" 1 None None true None 1)),
     mkSession timeless_db timeless_db []).
Proof. vm_compute; reflexivity. Qed.
Lemma reminder_pass_correct_witness :
  exists s2 added sent,
    process_household monday_ten steady (mkSession timely_db timely_db [])
    = (Ok tt, s2)
    /\ notifications (committed s2) = (notifications timely_db ++ added)%list
    /\ outbox s2 = sent
    /\ In (reminder_row steady bins "Bob") added
    /\ In (reminder_mail bins "bob@example.org") sent.
Proof.
  destruct (reminder_pass_correct monday_ten steady
              (mkSession timely_db timely_db []))
    as (s2 & added & sent & Hrun & Hn & Hm & Hpos & _).
  - reflexivity.
  - nodup_tac.
  - exists s2, added, sent.
    destruct (Hpos eq_refl eq_refl 1%nat bins "Bob" bob_preference "09:00")
      as [Hlog Hmail]; try reflexivity.
    + intros j c' p' Hj Hc' _ Hp' _.
      destruct j as [|j]; [|lia].
      vm_compute in Hc'. injection Hc' as <-.
      vm_compute in Hp'. injection Hp' as <-. discriminate.
    + split; [exact Hrun|]. split; [exact Hn|]. split; [exact Hm|].
      split; [apply Hlog; reflexivity|].
      apply Hmail; [reflexivity | discriminate | reflexivity].
Defined.

(** ** HH:MM texts compare as times of day *)

Lemma digit_compare a b :
  0 <= a < 10 -> 0 <= b < 10 ->
  Ascii.compare (digit a) (digit b) = (a ?= b).
Proof.
  intros Ha Hb.
  assert (Ea : a = 0 \/ a = 1 \/ a = 2 \/ a = 3 \/ a = 4 \/ a = 5 \/ a = 6
               \/ a = 7 \/ a = 8 \/ a = 9) by lia.
  assert (Eb : b = 0 \/ b = 1 \/ b = 2 \/ b = 3 \/ b = 4 \/ b = 5 \/ b = 6
               \/ b = 7 \/ b = 8 \/ b = 9) by lia.
  repeat (destruct Ea as [->|Ea]); try subst a;
    repeat (destruct Eb as [->|Eb]); try subst b; reflexivity.
Qed.

Lemma hhmm_compare h1 m1 h2 m2 :
  0 <= h1 < 24 -> 0 <= m1 < 60 -> 0 <= h2 < 24 -> 0 <= m2 < 60 ->
  String.compare (hhmm h1 m1) (hhmm h2 m2)
  = (h1 * 60 + m1 ?= h2 * 60 + m2).
Proof.
  intros H1 M1 H2 M2. unfold hhmm, two_digits. cbn [String.append String.compare].
  rewrite !digit_compare by (Z.div_mod_to_equations; lia).
  change (Ascii.compare ":" ":") with Eq.
  symmetry.
  destruct (Z.compare_spec (h1 / 10) (h2 / 10));
    [destruct (Z.compare_spec (h1 mod 10) (h2 mod 10));
       [destruct (Z.compare_spec (m1 / 10) (m2 / 10));
          [destruct (Z.compare_spec (m1 mod 10) (m2 mod 10))| |]| |]| |];
    first [ apply Z.compare_eq_iff | apply Z.compare_lt_iff
          | apply Z.compare_gt_iff ];
    Z.div_mod_to_equations; lia.
Qed.

(** For reminder times written HH:MM, [current_time >= reminder_time] on the
    texts is the order of the times of day. *)
Lemma hhmm_leb_chronological h1 m1 h2 m2 :
  0 <= h1 < 24 -> 0 <= m1 < 60 -> 0 <= h2 < 24 -> 0 <= m2 < 60 ->
  String.leb (hhmm h1 m1) (hhmm h2 m2) = (h1 * 60 + m1 <=? h2 * 60 + m2).
Proof.
  intros H1 M1 H2 M2. unfold String.leb.
  rewrite hhmm_compare by assumption.
  unfold Z.leb. destruct (h1 * 60 + m1 ?= h2 * 60 + m2); reflexivity.
Qed.

Lemma strftime_HM_hhmm t :
  exists h m, 0 <= h < 24 /\ 0 <= m < 60 /\ strftime_HM t = hhmm h m
              /\ h * 60 + m = (t / 1000000) mod 86400 / 60.
Proof.
  unfold strftime_HM.
  exists ((t / 1000000) mod 86400 / 3600),
         ((t / 1000000) mod 86400 mod 3600 / 60).
  repeat split; try (Z.div_mod_to_equations; lia).
Qed.

(** ** More on due-ness *)

(** X1: The first rotation is always due: a household on any cadence but "none"
    with no history row yet is due, whatever the clock says. *)
Theorem first_rotation_is_due :
  forall env hid s h,
    read_fails env THousehold = false ->
    read_fails env TRotationHistory = false ->
    Household_get hid (working s) = Some h ->
    Household.rotation_mode h <> "none" ->
    (forall r, In r (rotation_history (working s)) ->
               RotationHistory.household_id r <> hid) ->
    should_rotate env hid s = (Ok true, s).
Proof.
  intros env hid s h R1 R2 Hh Hmode Hnone.
  unfold should_rotate, try_except, bind, query.
  rewrite R1, Hh, R2.
  apply String.eqb_neq in Hmode. rewrite Hmode.
  unfold RotationHistory_last.
  rewrite filter_nil_iff; [reflexivity|].
  intros r Hr. apply Z.eqb_neq. auto.
Qed.

Lemma first_rotation_is_due_witness :
  should_rotate calm 1 (mkSession trio_db trio_db [])
  = (Ok true, mkSession trio_db trio_db []).
Proof.
  apply (first_rotation_is_due calm 1 (mkSession trio_db trio_db []) home).
  - reflexivity.
  - reflexivity.
  - reflexivity.
  - discriminate.
  - intros r [].
Defined.

(** X2: Due-ness fails closed: an unknown household, the cadence "none" or a
    read that raises all give [False], and the session is not touched. *)
Theorem should_rotate_fails_closed :
  forall env hid s,
    read_fails env THousehold = true
    \/ Household_get hid (working s) = None
    \/ (exists h, Household_get hid (working s) = Some h
                  /\ Household.rotation_mode h = "none")
    \/ read_fails env TRotationHistory = true ->
    should_rotate env hid s = (Ok false, s).
Proof.
  intros env hid s H.
  unfold should_rotate, try_except, bind, query.
  destruct (read_fails env THousehold) eqn:R1; [reflexivity|].
  destruct (Household_get hid (working s)) as [h|] eqn:Hh; [|reflexivity].
  destruct (String.eqb_spec (Household.rotation_mode h) "none") as [E|E];
    [reflexivity|].
  destruct (read_fails env TRotationHistory) eqn:R2; [reflexivity|].
  destruct H as [H|[H|[(h' & H & Hm)|H]]]; try discriminate.
  injection H as <-. contradiction.
Qed.

Lemma should_rotate_fails_closed_witness :
  should_rotate history_broken 1 (mkSession trio_db trio_db [])
  = (Ok false, mkSession trio_db trio_db []).
Proof.
  apply (should_rotate_fails_closed history_broken 1
           (mkSession trio_db trio_db [])).
  right; right; right. reflexivity.
Defined.

(** X3: A cadence that is none of "weekly", "biweekly", "monthly" (and not
    "none") is due for the first rotation only: once the household has a
    history row, the answer is [False] at any time. *)
Theorem unknown_cadence_rotates_once :
  forall env hid s h r,
    Household_get hid (working s) = Some h ->
    Household.rotation_mode h <> "weekly" ->
    Household.rotation_mode h <> "biweekly" ->
    Household.rotation_mode h <> "monthly" ->
    In r (rotation_history (working s)) ->
    RotationHistory.household_id r = hid ->
    should_rotate env hid s = (Ok false, s).
Proof.
  intros env hid s h r Hh Hw Hb Hm Hr Hhid.
  unfold should_rotate, try_except, bind, query.
  destruct (read_fails env THousehold); [reflexivity|]. rewrite Hh.
  destruct (Household.rotation_mode h =? "none")%string; [reflexivity|].
  destruct (read_fails env TRotationHistory); [reflexivity|].
  apply String.eqb_neq in Hw, Hb, Hm. rewrite Hw, Hb, Hm. cbn [andb].
  destruct (RotationHistory_last hid (working s)) eqn:L; [reflexivity|].
  exfalso. unfold RotationHistory_last in L.
  destruct (latest_spec
              (filter (fun r => RotationHistory.household_id r =? hid)
                      (rotation_history (working s)))) as (r0 & L0 & _).
  { intros E.
    assert (Hin : In r (filter (fun r => RotationHistory.household_id r =? hid)
                          (rotation_history (working s))))
      by (apply filter_In; split; [|apply Z.eqb_eq]; auto).
    rewrite E in Hin. destruct Hin. }
  congruence.
Qed.

Lemma unknown_cadence_rotates_once_witness :
  should_rotate a_year_on 1 (mkSession daily_db daily_db [])
  = (Ok false, mkSession daily_db daily_db []).
Proof.
  apply (unknown_cadence_rotates_once a_year_on 1
           (mkSession daily_db daily_db [])
           (Household.mk 1 "Home" "AB12CD34" "daily")
           (RotationHistory.mk 1 1 (Some "Cy") (Some "Ann") 0 "daily")).
  - reflexivity.
  - discriminate.
  - discriminate.
  - discriminate.
  - left; reflexivity.
  - reflexivity.
Defined.

(** ** More on rotate_chores *)

(** X4: Nothing to rotate: an unknown household, or one without chores or
    without members, makes the call return [False] with the session as it
    was, also when every storage operation works. *)
Theorem rotate_chores_refuses_empty_set :
  forall env hid rt db ob,
    Household_get hid db = None
    \/ Chore_filter_by hid db = [] \/ Member_filter_by hid db = [] ->
    rotate_chores env hid rt (mkSession db db ob)
    = (Ok false, mkSession db db ob).
Proof.
  intros env hid rt db ob H.
  apply rotate_chores_stops. unfold reaches_commit.
  destruct H as [->|[->| ->]]; cbn [is_nil negb andb];
    rewrite ?andb_false_r; reflexivity.
Qed.

Lemma rotate_chores_refuses_empty_set_witness :
  rotate_chores calm 1 "weekly" (mkSession memberless_db memberless_db [])
  = (Ok false, mkSession memberless_db memberless_db []).
Proof.
  apply (rotate_chores_refuses_empty_set calm 1 "weekly" memberless_db []).
  right; right. reflexivity.
Defined.

Lemma rotate_row_keeps hid names c :
  Chore.id (rotate_row hid names c) = Chore.id c
  /\ Chore.title (rotate_row hid names c) = Chore.title c
  /\ Chore.description (rotate_row hid names c) = Chore.description c
  /\ Chore.days (rotate_row hid names c) = Chore.days c
  /\ Chore.household_id (rotate_row hid names c) = Chore.household_id c.
Proof.
  destruct (rotate_row_cases hid names c) as [-> | (a & n & _ & _ & _ & ->)];
    repeat split.
Qed.

Lemma rotate_row_elsewhere hid names c :
  Chore.household_id c <> hid -> rotate_row hid names c = c.
Proof.
  intros H. unfold rotate_row. apply Z.eqb_neq in H. rewrite H. reflexivity.
Qed.

Lemma rotate_row_others hid names l :
  filter (fun c => negb (Chore.household_id c =? hid))
         (map (rotate_row hid names) l)
  = filter (fun c => negb (Chore.household_id c =? hid)) l.
Proof.
  induction l as [|c l IH]; [reflexivity|]. cbn [map filter].
  destruct (rotate_row_keeps hid names c) as (_ & _ & _ & _ & ->).
  destruct (Z.eqb_spec (Chore.household_id c) hid) as [Eh|Eh]; cbn [negb].
  - exact IH.
  - rewrite rotate_row_elsewhere by assumption. f_equal. exact IH.
Qed.

(** X6: A call changes [assigned_to] and [completed] of the household's chores
    and nothing else: whatever its outcome, households, members and
    preferences are as before, history and log only grow at the end, the
    outbox only grows, every chore row keeps its id, title, description,
    days and household, and the chores of other households are untouched. *)
Theorem rotate_chores_frame :
  forall env hid rt db ob,
    NoDup (map Chore.id (chores db)) ->
    let s' := snd (rotate_chores env hid rt (mkSession db db ob)) in
    households (committed s') = households db
    /\ members (committed s') = members db
    /\ member_preferences (committed s') = member_preferences db
    /\ (exists added,
          rotation_history (committed s')
          = (rotation_history db ++ added)%list)
    /\ (exists added,
          notifications (committed s') = (notifications db ++ added)%list)
    /\ (exists sent, outbox s' = (ob ++ sent)%list)
    /\ map (fun c => (Chore.id c, Chore.title c, Chore.description c,
                      Chore.days c, Chore.household_id c))
           (chores (committed s'))
       = map (fun c => (Chore.id c, Chore.title c, Chore.description c,
                        Chore.days c, Chore.household_id c)) (chores db)
    /\ filter (fun c => negb (Chore.household_id c =? hid))
              (chores (committed s'))
       = filter (fun c => negb (Chore.household_id c =? hid)) (chores db).
Proof.
  intros env hid rt db ob Hpk s'. unfold s'.
  destruct (reaches_commit env hid db && negb (commit_fails env)) eqn:E.
  - apply andb_true_iff in E as [E1 E2]. apply negb_true_iff in E2.
    destruct (rotate_chores_commits env hid rt db ob Hpk E1 E2)
      as (b & s1 & -> & R & _).
    cbn [snd]. destruct R as [_ Rc Rh R1 R2 R3 R4 R5].
    repeat (split; [first [assumption | eexists; eassumption]|]).
    rewrite Rc. split.
    + rewrite map_map. apply map_ext. intros c.
      destruct (rotate_row_keeps hid (ring hid db) c)
        as (-> & -> & -> & -> & ->). reflexivity.
    + apply rotate_row_others.
  - rewrite rotate_chores_stops by assumption. cbn.
    repeat split; try (exists []; rewrite app_nil_r; reflexivity).
Qed.

Lemma rotate_chores_frame_witness :
  households (committed trio_after) = households trio_db
  /\ members (committed trio_after) = members trio_db
  /\ member_preferences (committed trio_after) = member_preferences trio_db
  /\ (exists added,
        rotation_history (committed trio_after)
        = (rotation_history trio_db ++ added)%list)
  /\ (exists added,
        notifications (committed trio_after) = (notifications trio_db ++ added)%list)
  /\ (exists sent, outbox trio_after = ([] ++ sent)%list)
  /\ map (fun c => (Chore.id c, Chore.title c, Chore.description c,
                    Chore.days c, Chore.household_id c))
         (chores (committed trio_after))
     = map (fun c => (Chore.id c, Chore.title c, Chore.description c,
                      Chore.days c, Chore.household_id c)) (chores trio_db)
  /\ filter (fun c => negb (Chore.household_id c =? 1))
            (chores (committed trio_after))
     = filter (fun c => negb (Chore.household_id c =? 1)) (chores trio_db).
Proof.
  apply (rotate_chores_frame calm 1 "weekly" trio_db []).
  nodup_tac.
Defined.

Lemma successor_In names a n : successor names a = Some n -> In n names.
Proof.
  unfold successor. destruct (index_of a names); apply nth_error_In.
Qed.

(** X7: Repair: after a successful rotation every chore of the household with
    a non-empty assignee is assigned to a current member of the household,
    whoever held it before. *)
Theorem rotation_leaves_no_stray_assignee :
  forall env hid rt db ob s' c' a,
    NoDup (map Chore.id (chores db)) ->
    rotate_chores env hid rt (mkSession db db ob) = (Ok true, s') ->
    In c' (chores (committed s')) ->
    Chore.household_id c' = hid ->
    Chore.assigned_to c' = Some a ->
    a <> "" ->
    In a (ring hid (committed s')).
Proof.
  intros env hid rt db ob s' c' a Hpk Hrun Hc' Hh Ha Hne.
  destruct (rotate_chores_true _ _ _ _ _ _ Hpk Hrun) as (Hr & _ & R).
  assert (Er : ring hid (committed s') = ring hid db).
  { unfold ring, Member_filter_by. rewrite (ro_members _ _ _ _ _ _ R).
    reflexivity. }
  rewrite Er. rewrite (ro_chores _ _ _ _ _ _ R) in Hc'.
  apply in_map_iff in Hc' as (c & <- & Hc).
  destruct (rotate_row_keeps hid (ring hid db) c) as (_ & _ & _ & _ & Eh).
  rewrite Eh in Hh. revert Ha.
  unfold rotate_row, retarget, next_assignee.
  rewrite Hh, Z.eqb_refl.
  destruct (Chore.assigned_to c) as [a0|] eqn:Ha0; [|congruence].
  destruct (String.eqb_spec a0 "") as [->|Hne0]; [congruence|].
  destruct (successor_Some (ring hid db) a0 (reaches_commit_ring _ _ _ Hr))
    as [n Hn].
  rewrite Hn. cbn. intros [= <-]. eapply successor_In; eassumption.
Qed.

Lemma rotation_leaves_no_stray_assignee_witness :
  In "Ann" (ring 1 (committed trio_after)).
Proof.
  apply (rotation_leaves_no_stray_assignee calm 1 "weekly" trio_db []
           trio_after (reassign "Ann" lawn) "Ann").
  - nodup_tac.
  - vm_compute; reflexivity.
  - vm_compute. tauto.
  - reflexivity.
  - reflexivity.
  - discriminate.
Defined.

(** ** Rotations one after the other *)

Lemma ring_members hid db db' :
  members db' = members db -> ring hid db' = ring hid db.
Proof. unfold ring, Member_filter_by. intros ->. reflexivity. Qed.

Lemma history_rows_other env hid rt names cs x :
  (forall c, In c cs -> Chore.id c <> x) ->
  filter (fun h => RotationHistory.chore_id h =? x)
         (flat_map (history_rows env hid rt names) cs) = [].
Proof.
  intros H. apply filter_nil_iff. intros h Hh.
  apply in_flat_map in Hh as (c & Hc & Hh).
  apply history_rows_chore in Hh as (E & _).
  apply Z.eqb_neq. rewrite E. auto.
Qed.

Lemma history_rows_once env hid rt names cs c a i nx :
  NoDup (map Chore.id cs) -> In c cs ->
  Chore.assigned_to c = Some a -> a <> "" ->
  index_of a names = Some i ->
  nth_error names ((i + 1) mod List.length names)%nat = Some nx ->
  List.length (filter (fun h => RotationHistory.chore_id h =? Chore.id c)
                 (flat_map (history_rows env hid rt names) cs)) = 1%nat.
Proof.
  intros Hnd Hin Ha Hne Hi Hnx.
  induction cs as [|c0 cs IH]; [destruct Hin|].
  cbn [map] in Hnd. apply NoDup_cons_iff in Hnd as [Hfresh Hnd].
  cbn [flat_map]. rewrite filter_app, length_app.
  destruct Hin as [->|Hin].
  - rewrite (history_rows_successor _ _ _ _ _ _ _ _ Ha Hne Hi Hnx).
    cbn [filter RotationHistory.chore_id]. rewrite Z.eqb_refl.
    rewrite history_rows_other; [reflexivity|].
    intros c2 Hc2 E. apply Hfresh. rewrite <- E. apply in_map; assumption.
  - rewrite (IH Hnd Hin).
    rewrite (filter_nil_iff _ (history_rows env hid rt names c0));
      [reflexivity|].
    intros h Hh. apply history_rows_chore in Hh as (E & _).
    apply Z.eqb_neq. rewrite E. intros E2. apply Hfresh. rewrite E2.
    apply in_map; assumption.
Qed.

(** After [m] committed rotations a chore held by the member at ring index
    [i] is held by the member at index [(i + m) mod n], and the ledger has
    [m] more rows for it. *)
Lemma rotations_advance calls :
  forall hid db ob h k c a i,
    Forall (commits_for hid) calls ->
    NoDup (map Chore.id (chores db)) ->
    NoDup (ring hid db) ->
    ~ In "" (ring hid db) ->
    Household_get hid db = Some h ->
    nth_error (chores db) k = Some c ->
    Chore.household_id c = hid ->
    Chore.assigned_to c = Some a ->
    nth_error (ring hid db) i = Some a ->
    exists c' nx,
      nth_error (chores (committed (rotate_many calls (mkSession db db ob)))) k
      = Some c'
      /\ nth_error (ring hid db)
           ((i + List.length calls) mod List.length (ring hid db))%nat
         = Some nx
      /\ Chore.assigned_to c' = Some nx
      /\ List.length
           (filter (fun r => RotationHistory.chore_id r =? Chore.id c)
              (rotation_history
                 (committed (rotate_many calls (mkSession db db ob)))))
         = Nat.add
             (List.length
                (filter (fun r => RotationHistory.chore_id r =? Chore.id c)
                   (rotation_history db)))
             (List.length calls).
Proof.
  induction calls as [|[[env hid0] rt] calls IH];
    intros hid db ob h k c a i Hall Hpk Hnd Hblank Hh Hk Hc Ha Hi.
  - exists c, a. cbn [rotate_many List.length committed].
    assert (Hlt : (i < List.length (ring hid db))%nat)
      by (apply nth_error_Some; congruence).
    rewrite Nat.add_0_r, Nat.mod_small by exact Hlt. auto.
  - inversion Hall as [|x l Hcall Hrest]; subst x l.
    destruct Hcall as (E0 & R1 & R2 & R3 & Hcf). subst hid0.
    assert (Hne : a <> "").
    { intros ->. apply Hblank. eapply nth_error_In; eassumption. }
    assert (Hreach : reaches_commit env hid db = true).
    { unfold reaches_commit. rewrite R1, R2, R3, Hh. cbn [negb andb].
      assert (Hcs : In c (Chore_filter_by hid db)).
      { apply filter_In. split; [eapply nth_error_In; eassumption|].
        apply Z.eqb_eq; assumption. }
      assert (Hms : In a (ring hid db)) by (eapply nth_error_In; eassumption).
      unfold ring in Hms.
      destruct (Chore_filter_by hid db); [destruct Hcs|].
      destruct (Member_filter_by hid db); [destruct Hms|]. reflexivity. }
    destruct (rotate_chores_commits env hid rt db ob Hpk Hreach Hcf)
      as (b & s1 & Hrun & R & _).
    cbn [rotate_many]. rewrite Hrun. cbn [snd].
    rewrite (clean_eta s1 (ro_clean _ _ _ _ _ _ R)).
    set (db1 := committed s1).
    assert (Er : ring hid db1 = ring hid db)
      by (apply ring_members, (ro_members _ _ _ _ _ _ R)).
    assert (Hring : ring hid db <> []).
    { intros E. rewrite E in Hi. destruct i; discriminate. }
    destruct (nth_error_mod_Some (ring hid db) (i + 1) Hring) as [nx Hnx].
    pose proof (NoDup_index_of _ _ _ Hnd Hi) as Hidx.
    assert (Hk1 : nth_error (chores db1) k = Some (reassign nx c)).
    { unfold db1. rewrite (ro_chores _ _ _ _ _ _ R).
      rewrite (nth_error_map_Some _ _ _ _ Hk).
      rewrite (rotate_row_successor hid _ c a i nx); auto. }
    destruct (IH hid db1 (outbox s1) h k (reassign nx c) nx
                ((i + 1) mod List.length (ring hid db))%nat)
      as (c' & nx' & Hk' & Hnx' & Ha' & Hlen); auto.
    + unfold db1. rewrite (ro_chores _ _ _ _ _ _ R), rotate_row_ids.
      assumption.
    + rewrite Er; assumption.
    + rewrite Er; assumption.
    + unfold Household_get, db1. rewrite (ro_households _ _ _ _ _ _ R).
      exact Hh.
    + rewrite Er; assumption.
    + exists c', nx'. split; [exact Hk'|]. rewrite Er in Hnx'.
      split.
      { rewrite <- Hnx'. f_equal. cbn [List.length].
        rewrite Nat.Div0.add_mod_idemp_l.
        f_equal. lia. }
      split; [exact Ha'|].
      cbn [reassign Chore.id] in Hlen. rewrite Hlen. unfold db1.
      rewrite (ro_history _ _ _ _ _ _ R), filter_app, length_app.
      rewrite (history_rows_once env hid rt (ring hid db) _ c a i nx); auto.
      * cbn [List.length]. lia.
      * apply filter_keys_unique; assumption.
      * apply filter_In. split; [eapply nth_error_In; eassumption|].
        apply Z.eqb_eq; assumption.
Qed.

(** X8: A full turn: when storage works, as many rotations as the household
    has members (names unique and non-empty) bring every chore of a member
    back to that member. *)
Theorem full_turn_restores_assignment :
  forall calls hid db ob h k c a,
    Forall (commits_for hid) calls ->
    List.length calls = List.length (ring hid db) ->
    NoDup (map Chore.id (chores db)) ->
    NoDup (ring hid db) ->
    ~ In "" (ring hid db) ->
    Household_get hid db = Some h ->
    nth_error (chores db) k = Some c ->
    Chore.household_id c = hid ->
    Chore.assigned_to c = Some a ->
    In a (ring hid db) ->
    exists c',
      nth_error (chores (committed (rotate_many calls (mkSession db db ob)))) k
      = Some c'
      /\ Chore.assigned_to c' = Some a.
Proof.
  intros calls hid db ob h k c a Hall Hlen Hpk Hnd Hblank Hh Hk Hc Ha Hin.
  apply In_nth_error in Hin as [i Hi].
  destruct (rotations_advance calls hid db ob h k c a i)
    as (c' & nx & Hk' & Hnx & Ha' & _); auto.
  exists c'. split; [exact Hk'|].
  assert (Hlt : (i < List.length (ring hid db))%nat)
    by (apply nth_error_Some; congruence).
  rewrite Hlen in Hnx.
  replace ((i + List.length (ring hid db)) mod List.length (ring hid db))%nat
    with i in Hnx.
  - congruence.
  - rewrite <- Nat.Div0.add_mod_idemp_r, Nat.Div0.mod_same, Nat.add_0_r,
      Nat.mod_small; lia.
Qed.

(** X9: The ledger: when storage works, [N] rotations of a household add
    exactly [N] history rows for each chore that started with a member of
    the ring (names unique and non-empty). *)
Theorem each_rotation_adds_one_history_row :
  forall calls hid db ob h k c a,
    Forall (commits_for hid) calls ->
    NoDup (map Chore.id (chores db)) ->
    NoDup (ring hid db) ->
    ~ In "" (ring hid db) ->
    Household_get hid db = Some h ->
    nth_error (chores db) k = Some c ->
    Chore.household_id c = hid ->
    Chore.assigned_to c = Some a ->
    In a (ring hid db) ->
    List.length
      (filter (fun r => RotationHistory.chore_id r =? Chore.id c)
         (rotation_history
            (committed (rotate_many calls (mkSession db db ob)))))
    = Nat.add
        (List.length
           (filter (fun r => RotationHistory.chore_id r =? Chore.id c)
              (rotation_history db)))
        (List.length calls).
Proof.
  intros calls hid db ob h k c a Hall Hpk Hnd Hblank Hh Hk Hc Ha Hin.
  apply In_nth_error in Hin as [i Hi].
  destruct (rotations_advance calls hid db ob h k c a i)
    as (c' & nx & _ & _ & _ & Hlen); auto.
Qed.

Lemma full_turn_restores_assignment_witness :
  exists c',
    nth_error
      (chores (committed (rotate_many three_calm_calls
                            (mkSession trio_db trio_db [])))) 0
    = Some c'
    /\ Chore.assigned_to c' = Some "Bob".
Proof.
  apply (full_turn_restores_assignment three_calm_calls 1 trio_db [] home
           0%nat dishes "Bob").
  - repeat constructor.
  - reflexivity.
  - nodup_tac.
  - nodup_tac.
  - cbn. intuition discriminate.
  - reflexivity.
  - reflexivity.
  - reflexivity.
  - reflexivity.
  - cbn. tauto.
Defined.

Lemma each_rotation_adds_one_history_row_witness :
  List.length
    (filter (fun r => RotationHistory.chore_id r =? Chore.id dishes)
       (rotation_history
          (committed (rotate_many three_calm_calls
                        (mkSession trio_db trio_db [])))))
  = Nat.add
      (List.length
         (filter (fun r => RotationHistory.chore_id r =? Chore.id dishes)
            (rotation_history trio_db)))
      (List.length three_calm_calls).
Proof.
  apply (each_rotation_adds_one_history_row three_calm_calls 1 trio_db []
           home 0%nat dishes "Bob").
  - repeat constructor.
  - nodup_tac.
  - nodup_tac.
  - cbn. intuition discriminate.
  - reflexivity.
  - reflexivity.
  - reflexivity.
  - reflexivity.
  - cbn. tauto.
Defined.

(** ** The rotation notices *)

Lemma Chore_filter_by_ext hid db db' :
  chores db' = chores db -> Chore_filter_by hid db' = Chore_filter_by hid db.
Proof. unfold Chore_filter_by. intros ->. reflexivity. Qed.

Lemma rotation_notice_ext hid db db' m :
  chores db' = chores db -> rotation_notice hid db' m = rotation_notice hid db m.
Proof.
  intros E. unfold rotation_notice, rotation_message.
  rewrite (Chore_filter_by_ext hid _ _ E). reflexivity.
Qed.

Lemma notify_member_exact env hid m s :
  working s = committed s ->
  read_fails env TMemberPreference = false ->
  (forall n, insert_fails env n = false) ->
  exists s',
    notify_member env hid m s = (Ok tt, s')
    /\ working s' = committed s'
    /\ chores (committed s') = chores (committed s)
    /\ notifications (committed s')
       = (notifications (committed s) ++ rotation_notice hid (working s) m)%list.
Proof.
  intros Hc Hr Hi.
  unfold notify_member, bind at 1, session_objects, rotation_notice.
  fold (holds (Member.name m)).
  destruct (is_nil (filter (holds (Member.name m))
                      (Chore_filter_by hid (working s)))).
  { exists s. rewrite app_nil_r. auto. }
  fold (rotation_message hid (working s) m).
  unfold bind at 1, create_notification_record, try_except, bind at 1,
    add_notification, modify_working, bind at 1, commit.
  cbn [working committed outbox]. rewrite Hi.
  cbn [working committed outbox]. unfold ret at 1.
  unfold bind at 1, query. rewrite Hr. cbn [working committed outbox].
  set (db1 := insert_notification _ (working s)).
  assert (Done : forall ob,
            let s' := mkSession db1 db1 ob in
            working s' = committed s'
            /\ chores (committed s') = chores (committed s)
            /\ notifications (committed s')
               = (notifications (committed s)
                  ++ [Notification.mk (Member.name m) "Rotation Complete"
                        "rotation" (rotation_message hid (working s) m)
                        hid None])%list).
  { intros ob. cbn. rewrite Hc. auto. }
  destruct (MemberPreference_first hid (Some (Member.name m)) db1) as [p|];
    [|eexists; split; [reflexivity | apply Done]].
  destruct (MemberPreference.email p) as [addr|];
    [|eexists; split; [reflexivity | apply Done]].
  destruct (negb (addr =? "")%string && MemberPreference.notification_enabled p);
    [|eexists; split; [reflexivity | apply Done]].
  unfold bind, send_email_notification.
  destruct (smtp_fails env _);
    eexists; (split; [reflexivity | apply Done]).
Qed.

Lemma notify_all_exact env hid ms s :
  working s = committed s ->
  read_fails env TMemberPreference = false ->
  (forall n, insert_fails env n = false) ->
  exists s',
    for_each ms (notify_member env hid) s = (Ok tt, s')
    /\ working s' = committed s'
    /\ chores (committed s') = chores (committed s)
    /\ notifications (committed s')
       = (notifications (committed s)
          ++ flat_map (rotation_notice hid (working s)) ms)%list.
Proof.
  intros Hc Hr Hi. revert s Hc.
  induction ms as [|m ms IH]; intros s Hc; cbn [for_each flat_map].
  - exists s. rewrite app_nil_r. auto.
  - unfold bind.
    destruct (notify_member_exact env hid m s Hc Hr Hi)
      as (s1 & -> & Hc1 & Hch1 & Hn1).
    destruct (IH s1 Hc1) as (s2 & -> & Hc2 & Hch2 & Hn2).
    exists s2. split; [reflexivity|]. split; [assumption|].
    split; [congruence|].
    rewrite Hn2, Hn1, <- app_assoc. do 2 f_equal.
    apply flat_map_ext. intros m'. apply rotation_notice_ext. congruence.
Qed.

(** X10: When storage works, a rotation logs exactly one "rotation" row for each
    member who now holds a chore of the household, in member order, listing
    that member's chores, and none for the other members. *)
Theorem rotation_notifies_each_holder_once :
  forall env hid rt db ob,
    reaches_commit env hid db = true ->
    commit_fails env = false ->
    read_fails env TMemberPreference = false ->
    (forall n, insert_fails env n = false) ->
    exists s',
      rotate_chores env hid rt (mkSession db db ob) = (Ok true, s')
      /\ notifications (committed s')
         = (notifications db
            ++ flat_map (rotation_notice hid (committed s'))
                        (Member_filter_by hid db))%list.
Proof.
  intros env hid rt db ob Hr Hcf Hp Hi.
  unfold reaches_commit in Hr.
  repeat (apply andb_true_iff in Hr as [Hr ?]).
  apply negb_true_iff in Hr.
  repeat match goal with
         | H : negb _ = true |- _ => apply negb_true_iff in H
         end.
  unfold rotate_chores, try_except, bind at 1, query.
  cbn [working committed outbox]. rewrite Hr.
  destruct (Household_get hid db); [|discriminate].
  unfold bind at 1. rewrite H2.
  unfold bind at 1. rewrite H1. cbn [working committed outbox].
  rewrite H0, H. cbn [orb].
  unfold bind at 1.
  rewrite for_each_rotate_run by (apply ring_nonempty; assumption).
  unfold bind at 1, commit. rewrite Hcf. cbn [working committed outbox].
  set (db1 := fold_left _ _ db).
  destruct (notify_all_exact env hid (Member_filter_by hid db)
              (mkSession db1 db1 ob) eq_refl Hp Hi)
    as (s2 & E & Hc2 & Hch & Hn).
  unfold bind. rewrite E. exists s2. split; [reflexivity|].
  rewrite Hn. cbn [committed working].
  assert (F := run_loop_frame env hid rt (ring hid db)
                 (Chore_filter_by hid db) db).
  fold (ring hid db) in db1.
  fold (run_loop env hid rt (ring hid db) (Chore_filter_by hid db) db) in db1.
  destruct F as (_ & _ & F3 & _). fold db1 in F3. rewrite F3.
  f_equal. apply flat_map_ext. intros m.
  symmetry. apply rotation_notice_ext. exact Hch.
Qed.

Lemma rotation_notifies_each_holder_once_witness :
  exists s',
    rotate_chores calm 1 "weekly" (mkSession trio_db trio_db [])
    = (Ok true, s')
    /\ notifications (committed s')
       = (notifications trio_db
          ++ flat_map (rotation_notice 1 (committed s'))
                      (Member_filter_by 1 trio_db))%list.
Proof.
  apply (rotation_notifies_each_holder_once calm 1 "weekly" trio_db []).
  - reflexivity.
  - reflexivity.
  - reflexivity.
  - reflexivity.
Defined.

Lemma consented_ext hid db db' ms e :
  member_preferences db' = member_preferences db ->
  consented hid db ms e -> consented hid db' ms e.
Proof.
  intros E (m & p & H1 & H2 & H). exists m, p. split; [assumption|].
  split; [|assumption].
  rewrite (MemberPreference_first_ext hid _ db' db E). assumption.
Qed.

Lemma consented_more hid db ms ms' e :
  (forall m, In m ms -> In m ms') ->
  consented hid db ms e -> consented hid db ms' e.
Proof. intros Hsub (m & p & H1 & H). exists m, p. auto. Qed.

Lemma notify_member_mails env hid m s :
  working s = committed s ->
  exists o s' sent,
    notify_member env hid m s = (o, s')
    /\ working s' = committed s'
    /\ member_preferences (committed s') = member_preferences (committed s)
    /\ outbox s' = (outbox s ++ sent)%list
    /\ forall e, In e sent -> consented hid (working s) [m] e.
Proof.
  intros Hc.
  unfold notify_member, bind at 1, session_objects.
  match goal with |- context [is_nil ?l] => destruct (is_nil l) end.
  { no_mail Hc. }
  unfold bind at 1, create_notification_record, try_except, bind at 1,
    add_notification, modify_working, bind at 1, commit.
  cbn [working committed outbox].
  destruct (insert_fails env _).
  - unfold bind at 1, rollback. cbn [working committed outbox].
    unfold ret at 1. unfold bind at 1, query. rewrite <- Hc.
    destruct (read_fails env TMemberPreference); [no_mail Hc|].
    cbn [working committed outbox].
    destruct (MemberPreference_first hid (Some (Member.name m)) (working s))
      as [p|] eqn:Hp; [|no_mail Hc].
    destruct (MemberPreference.email p) as [addr|] eqn:Ha; [|no_mail Hc].
    destruct (String.eqb_spec addr "") as [->|Hne]; cbn [negb andb];
      [no_mail Hc|].
    destruct (MemberPreference.notification_enabled p) eqn:He; [|no_mail Hc].
    unfold bind, send_email_notification.
    destruct (smtp_fails env _); [no_mail Hc|].
    eexists _, _, [_]. split; [reflexivity|]. cbn. rewrite ?Hc.
    repeat split; auto. intros e [<-|[]].
    exists m, p. cbn. rewrite <- Hc. repeat split; auto.
  - unfold ret at 1. unfold bind at 1, query.
    destruct (read_fails env TMemberPreference); [no_mail Hc|].
    cbn [working committed outbox].
    match goal with |- context [MemberPreference_first hid ?n ?d] =>
      replace (MemberPreference_first hid n d)
        with (MemberPreference_first hid n (working s))
        by (apply MemberPreference_first_ext; reflexivity)
    end.
    destruct (MemberPreference_first hid (Some (Member.name m)) (working s))
      as [p|] eqn:Hp; [|no_mail Hc].
    destruct (MemberPreference.email p) as [addr|] eqn:Ha; [|no_mail Hc].
    destruct (String.eqb_spec addr "") as [->|Hne]; cbn [negb andb];
      [no_mail Hc|].
    destruct (MemberPreference.notification_enabled p) eqn:He; [|no_mail Hc].
    unfold bind, send_email_notification.
    destruct (smtp_fails env _); [no_mail Hc|].
    eexists _, _, [_]. split; [reflexivity|]. cbn. rewrite ?Hc.
    repeat split; auto. intros e [<-|[]].
    exists m, p. cbn. rewrite <- Hc. repeat split; auto.
Qed.

Lemma notify_all_mails env hid ms s :
  working s = committed s ->
  exists o s' sent,
    for_each ms (notify_member env hid) s = (o, s')
    /\ working s' = committed s'
    /\ member_preferences (committed s') = member_preferences (committed s)
    /\ outbox s' = (outbox s ++ sent)%list
    /\ forall e, In e sent -> consented hid (working s) ms e.
Proof.
  revert s. induction ms as [|m ms IH]; intros s Hc; cbn [for_each].
  - exists (Ok tt), s, []. rewrite app_nil_r. repeat split; auto.
    intros e [].
  - unfold bind.
    destruct (notify_member_mails env hid m s Hc)
      as (o & s1 & sent1 & -> & Hc1 & Hp1 & Ho1 & Hs1).
    assert (Hs1' : forall e, In e sent1 ->
                     consented hid (working s) (m :: ms) e).
    { intros e He. apply (consented_more hid _ [m]); auto.
      intros m' [<-|[]]. left; reflexivity. }
    destruct o as [[]|x].
    + destruct (IH s1 Hc1) as (o2 & s2 & sent2 & -> & Hc2 & Hp2 & Ho2 & Hs2).
      exists o2, s2, (sent1 ++ sent2)%list.
      split; [reflexivity|]. split; [assumption|]. split; [congruence|].
      split; [rewrite Ho2, Ho1, app_assoc; reflexivity|].
      intros e He. apply in_app_or in He as [He|He]; [auto|].
      apply (consented_more hid _ ms); [intros; right; assumption|].
      apply (consented_ext hid (working s1)); [congruence|]. auto.
    + exists (Raise x), s1, sent1. repeat split; auto.
Qed.

(** X11: Whatever fails, every mail a call of [rotate_chores] sends goes to the
    non-empty address of the first preference record of a member of the
    household whose notifications are enabled: a member without a
    preference record, without an address or with notifications off gets
    no mail. *)
Theorem rotation_mails_only_consenting_members :
  forall env hid rt db ob,
    exists sent,
      outbox (snd (rotate_chores env hid rt (mkSession db db ob)))
      = (ob ++ sent)%list
      /\ forall e, In e sent ->
           exists m p,
             In m (Member_filter_by hid db)
             /\ MemberPreference_first hid (Some (Member.name m)) db = Some p
             /\ MemberPreference.notification_enabled p = true
             /\ MemberPreference.email p = Some (to_email e)
             /\ to_email e <> ""
             /\ subject e = "HomeSync: New Chores Assigned".
Proof.
  intros env hid rt db ob.
  destruct (reaches_commit env hid db && negb (commit_fails env)) eqn:E.
  2:{ rewrite rotate_chores_stops by assumption. exists []. cbn.
      rewrite app_nil_r. split; [reflexivity | intros e []]. }
  apply andb_true_iff in E as [Hr Hcf]. apply negb_true_iff in Hcf.
  unfold reaches_commit in Hr.
  repeat (apply andb_true_iff in Hr as [Hr ?]).
  apply negb_true_iff in Hr.
  repeat match goal with
         | H : negb _ = true |- _ => apply negb_true_iff in H
         end.
  unfold rotate_chores, try_except, bind at 1, query.
  cbn [working committed outbox]. rewrite Hr.
  destruct (Household_get hid db); [|discriminate].
  unfold bind at 1. rewrite H2.
  unfold bind at 1. rewrite H1. cbn [working committed outbox].
  rewrite H0, H. cbn [orb].
  unfold bind at 1.
  rewrite for_each_rotate_run by (apply ring_nonempty; assumption).
  unfold bind at 1, commit. rewrite Hcf. cbn [working committed outbox].
  set (db1 := fold_left _ _ db).
  destruct (notify_all_mails env hid (Member_filter_by hid db)
              (mkSession db1 db1 ob) eq_refl)
    as (o & s2 & sent & E & Hc2 & Hp & Ho & Hs).
  unfold bind. rewrite E. exists sent.
  assert (F := run_loop_frame env hid rt (ring hid db)
                 (Chore_filter_by hid db) db).
  fold (ring hid db) in db1.
  fold (run_loop env hid rt (ring hid db) (Chore_filter_by hid db) db) in db1.
  destruct F as (_ & _ & _ & F4 & _). fold db1 in F4.
  split.
  - destruct o as [[]|x]; cbn; exact Ho.
  - intros e He.
    apply (consented_ext hid db1 db); [symmetry; exact F4|].
    exact (Hs e He).
Qed.

(** ** create_notification_record and the caller's transaction *)

(** X12: The log write commits or rolls back the whole session: when the row
    goes in, everything the caller had pending is committed with it; when
    the write fails, or the member name is null, the result is [False] and
    everything the caller had pending is discarded.  It never raises. *)
Theorem notification_record_settles_the_session :
  forall env hid member_name title kind msg chore_id s,
    exists b s',
      create_notification_record env hid member_name title kind msg chore_id s
      = (Ok b, s')
      /\ working s' = committed s'
      /\ outbox s' = outbox s
      /\ (b = true ->
          exists name,
            member_name = Some name
            /\ insert_fails env
                 (Notification.mk name title kind msg hid chore_id) = false
            /\ committed s'
               = insert_notification
                   (Notification.mk name title kind msg hid chore_id)
                   (working s))
      /\ (b = false ->
          committed s' = committed s
          /\ (member_name = None
              \/ exists name,
                   member_name = Some name
                   /\ insert_fails env
                        (Notification.mk name title kind msg hid chore_id)
                      = true)).
Proof.
  intros env hid mn title kind msg cid s.
  unfold create_notification_record, try_except, bind.
  destruct mn as [name|]; cbn.
  - unfold commit. cbn.
    destruct (insert_fails env _) eqn:Hi; cbn.
    + exists false. eexists. split; [reflexivity|]. cbn.
      repeat split; try discriminate. right. eauto.
    + exists true. eexists. split; [reflexivity|]. cbn.
      repeat split; try discriminate. eauto.
  - exists false. eexists. split; [reflexivity|]. cbn.
    repeat split; try discriminate. left; reflexivity.
Qed.

(** ** Passes one after the other *)

Lemma remind_chore_frame env h c s :
  working s = committed s ->
  exists o s',
    remind_chore env h c s = (o, s')
    /\ working s' = committed s' /\ log_only s s'.
Proof.
  intros Hc.
  assert (Same : forall o : outcome unit, exists o0 s0,
            (o, s) = (o0, s0) /\ working s0 = committed s0 /\ log_only s s0).
  { intros o. exists o, s. auto using log_only_refl. }
  unfold remind_chore.
  destruct (is_nil (Chore.days c)); [apply Same|].
  destruct (negb _); [apply Same|].
  unfold bind at 1, query.
  destruct (read_fails env TMemberPreference); [apply Same|].
  destruct (MemberPreference_first _ _ (working s)) as [p|]; [|apply Same].
  destruct (negb (MemberPreference.notification_enabled p)); [apply Same|].
  destruct (MemberPreference.reminder_time p) as [rt|]; [|apply Same].
  destruct (String.leb rt (strftime_HM (now env))); [|apply Same].
  unfold bind at 1.
  destruct (create_notification_record_run env (Household.id h)
              (Chore.assigned_to c) (Chore.title c) "reminder"
              ("Reminder: " ++ Chore.title c ++ " is due today!")
              (Some (Chore.id c)) s Hc) as (b & s1 & -> & Hc1 & L1).
  destruct (MemberPreference.email p) as [addr|];
    [|exists (Ok tt), s1; auto].
  destruct (addr =? "")%string; [exists (Ok tt), s1; auto|].
  unfold bind.
  destruct (send_email_notification_run env addr
              ("HomeSync Reminder: " ++ Chore.title c)
              ("Reminder: " ++ Chore.title c ++ " is due today!") s1 Hc1)
    as (b2 & s2 & -> & Hc2 & L2).
  exists (Ok tt), s2. split; [reflexivity|]. split; [assumption|].
  eapply log_only_trans; eassumption.
Qed.

Lemma remind_pass_frame env h cs s :
  working s = committed s ->
  exists o s',
    for_each cs (remind_chore env h) s = (o, s')
    /\ working s' = committed s' /\ log_only s s'.
Proof.
  revert s. induction cs as [|c cs IH]; intros s Hc; cbn [for_each].
  - exists (Ok tt), s. auto using log_only_refl.
  - unfold bind.
    destruct (remind_chore_frame env h c s Hc) as (o & s1 & -> & Hc1 & L1).
    destruct o as [[]|x].
    + destruct (IH s1 Hc1) as (o2 & s2 & -> & Hc2 & L2).
      exists o2, s2. split; [reflexivity|]. split; [assumption|].
      eapply log_only_trans; eassumption.
    + exists (Raise x), s1. auto.
Qed.

Lemma should_rotate_ext env hid s s' :
  households (working s') = households (working s) ->
  rotation_history (working s') = rotation_history (working s) ->
  fst (should_rotate env hid s') = fst (should_rotate env hid s).
Proof.
  intros E1 E2. unfold should_rotate, try_except, bind, query.
  unfold Household_get. rewrite E1.
  destruct (read_fails env THousehold); [reflexivity|].
  destruct (find _ (households (working s))) as [h|]; [|reflexivity].
  destruct (Household.rotation_mode h =? "none")%string; [reflexivity|].
  destruct (read_fails env TRotationHistory); [reflexivity|].
  unfold RotationHistory_last. rewrite E2.
  destruct (latest _) as [r|]; [|reflexivity].
  repeat match goal with |- context [if ?b then _ else _] => destruct b end;
    reflexivity.
Qed.

Lemma quiet_pass env h s :
  working s = committed s ->
  read_fails env TChore = false ->
  read_fails env TMemberPreference = false ->
  should_rotate env (Household.id h) s = (Ok false, s) ->
  exists s1,
    process_household env h s = (Ok tt, s1)
    /\ working s1 = committed s1
    /\ log_only s s1
    /\ notifications (committed s1)
       = (notifications (committed s)
          ++ pass_log env h (working s)
               (Chore_filter_incomplete (Household.id h) (working s)))%list
    /\ outbox s1
       = (outbox s
          ++ pass_mail env h (working s)
               (Chore_filter_incomplete (Household.id h) (working s)))%list.
Proof.
  intros Hc R1 R2 Hs.
  rewrite process_household_unfold.
  unfold try_except, bind at 1, rotation_step, bind at 1. rewrite Hs.
  unfold ret at 1. unfold bind, query. rewrite R1.
  set (cs := Chore_filter_incomplete (Household.id h) (working s)).
  destruct (remind_pass_run env h cs s Hc R2) as (o & s1 & E & Hn & Hm & _).
  destruct (remind_pass_frame env h cs s Hc) as (o' & s1' & E' & Hc1 & L).
  rewrite E in E'. injection E' as <- <-. rewrite E.
  exists s1. split; [destruct o as [[]|x]; reflexivity|]. auto.
Qed.

(** X13: Reminders carry no "already sent" mark: when no rotation is due, a
    second pass over the household in the same hour writes the same
    reminder rows and sends the same mails once more. *)
Theorem reminder_pass_repeats :
  forall env h s,
    working s = committed s ->
    read_fails env TChore = false ->
    read_fails env TMemberPreference = false ->
    should_rotate env (Household.id h) s = (Ok false, s) ->
    exists s1 s2 added sent,
      process_household env h s = (Ok tt, s1)
      /\ process_household env h s1 = (Ok tt, s2)
      /\ notifications (committed s1)
         = (notifications (committed s) ++ added)%list
      /\ notifications (committed s2)
         = (notifications (committed s) ++ added ++ added)%list
      /\ outbox s1 = (outbox s ++ sent)%list
      /\ outbox s2 = (outbox s ++ sent ++ sent)%list
      /\ added = pass_log env h (working s)
                   (Chore_filter_incomplete (Household.id h) (working s)).
Proof.
  intros env h s Hc R1 R2 Hs.
  destruct (quiet_pass env h s Hc R1 R2 Hs) as (s1 & E1 & Hc1 & L1 & Hn1 & Hm1).
  destruct L1 as [Lh Lm Lc Lr Lp _ _].
  assert (Hs1 : should_rotate env (Household.id h) s1 = (Ok false, s1)).
  { destruct (should_rotate_total env (Household.id h) s1) as [due Hd].
    pose proof (should_rotate_ext env (Household.id h) s s1) as X.
    rewrite Hd, Hs in X. cbn in X.
    rewrite Hc1, Hc in X. specialize (X Lh Lr). injection X as ->.
    exact Hd. }
  destruct (quiet_pass env h s1 Hc1 R1 R2 Hs1)
    as (s2 & E2 & Hc2 & _ & Hn2 & Hm2).
  assert (Ecs : Chore_filter_incomplete (Household.id h) (working s1)
                = Chore_filter_incomplete (Household.id h) (working s)).
  { unfold Chore_filter_incomplete. rewrite Hc1, Hc, Lc. reflexivity. }
  assert (Ep : member_preferences (working s1) = member_preferences (working s))
    by (rewrite Hc1, Hc; exact Lp).
  rewrite Ecs, (pass_log_ext env h _ _ _ Ep) in Hn2.
  rewrite Ecs, (pass_mail_ext env h _ _ _ Ep) in Hm2.
  eexists s1, s2, _, _.
  split; [exact E1|]. split; [exact E2|]. split; [exact Hn1|].
  split; [rewrite Hn2, Hn1, <- app_assoc; reflexivity|].
  split; [exact Hm1|].
  split; [rewrite Hm2, Hm1, <- app_assoc; reflexivity|]. reflexivity.
Qed.

Lemma reminder_pass_repeats_witness :
  exists s1 s2 added sent,
    process_household monday_ten steady (mkSession timely_db timely_db [])
    = (Ok tt, s1)
    /\ process_household monday_ten steady s1 = (Ok tt, s2)
    /\ notifications (committed s1) = (notifications timely_db ++ added)%list
    /\ notifications (committed s2)
       = (notifications timely_db ++ added ++ added)%list
    /\ outbox s1 = ([] ++ sent)%list
    /\ outbox s2 = ([] ++ sent ++ sent)%list
    /\ added = pass_log monday_ten steady timely_db
                 (Chore_filter_incomplete 1 timely_db).
Proof.
  apply (reminder_pass_repeats monday_ten steady
           (mkSession timely_db timely_db [])).
  - reflexivity.
  - reflexivity.
  - reflexivity.
  - reflexivity.
Defined.

(** ** Reminder times as texts *)

(** X14: A reminder time written HH:MM is reached exactly from that minute of
    the day on: the text comparison of the scheduler with the clock's
    [strftime('%H:%M')] is the comparison of the minutes since midnight. *)
Theorem reminder_time_is_reached_chronologically :
  forall h m t,
    0 <= h < 24 -> 0 <= m < 60 ->
    String.leb (hhmm h m) (strftime_HM t)
    = (h * 60 + m <=? (t / 1000000) mod 86400 / 60).
Proof.
  intros h m t Hh Hm.
  destruct (strftime_HM_hhmm t) as (h2 & m2 & H2 & M2 & -> & <-).
  unfold String.leb. rewrite hhmm_compare by assumption.
  unfold Z.leb. destruct (h * 60 + m ?= h2 * 60 + m2); reflexivity.
Qed.

Lemma reminder_time_is_reached_chronologically_witness :
  String.leb (hhmm 9 0) (strftime_HM (now monday_ten))
  = (9 * 60 + 0 <=? (now monday_ten / 1000000) mod 86400 / 60).
Proof.
  apply (reminder_time_is_reached_chronologically 9 0 (now monday_ten));
    lia.
Defined.

Lemma strftime_HM_first_digit t :
  exists d rest, strftime_HM t = String d rest
                 /\ (d = "0" \/ d = "1" \/ d = "2")%char.
Proof.
  unfold strftime_HM, hhmm, two_digits. cbn [String.append].
  eexists _, _. split; [reflexivity|].
  set (q := (t / 1000000) mod 86400 / 3600 / 10).
  assert (Hq : q = 0 \/ q = 1 \/ q = 2)
    by (unfold q; Z.div_mod_to_equations; lia).
  destruct Hq as [->|[->| ->]]; cbn; auto.
Qed.

(** X15: A reminder time that is not zero-padded never comes: when the stored
    text starts with a character above "2" (as in "9:00"), the scheduler
    leaves the chore without a reminder at every time of day. *)
Theorem unpadded_reminder_time_never_fires :
  forall env h c s p ch rest,
    read_fails env TMemberPreference = false ->
    MemberPreference_first (Household.id h) (Chore.assigned_to c) (working s)
    = Some p ->
    MemberPreference.reminder_time p = Some (String ch rest) ->
    Ascii.ltb "2" ch = true ->
    remind_chore env h c s = (Ok tt, s).
Proof.
  intros env h c s p ch rest R Hp Hrt Hch.
  assert (Hleb : String.leb (String ch rest) (strftime_HM (now env)) = false).
  { destruct (strftime_HM_first_digit (now env)) as (d & r & -> & Hd).
    unfold String.leb. cbn [String.compare].
    assert (Hgt : Ascii.compare ch d = Gt).
    { unfold Ascii.ltb in Hch.
      destruct (Ascii.compare "2" ch) eqn:E2; try discriminate.
      unfold Ascii.compare in *.
      apply N.compare_lt_iff in E2. apply N.compare_gt_iff.
      change (N_of_ascii "2") with 50%N in E2.
      destruct Hd as [->|[->| ->]];
        [ change (N_of_ascii "0") with 48%N
        | change (N_of_ascii "1") with 49%N
        | change (N_of_ascii "2") with 50%N ];
        change (50 < N_of_ascii ch)%N in E2; lia. }
    rewrite Hgt. reflexivity. }
  unfold remind_chore.
  destruct (is_nil (Chore.days c)); [reflexivity|].
  destruct (negb _); [reflexivity|].
  unfold bind, query. rewrite R, Hp.
  destruct (negb (MemberPreference.notification_enabled p)); [reflexivity|].
  rewrite Hrt, Hleb. reflexivity.
Qed.

Lemma unpadded_reminder_time_never_fires_witness :
  remind_chore monday_ten steady sweeping (mkSession nine_db nine_db [])
  = (Ok tt, mkSession nine_db nine_db []).
Proof.
  apply (unpadded_reminder_time_never_fires monday_ten steady sweeping
           (mkSession nine_db nine_db [])
           (MemberPreference.mk "Ann" 1 None None true (Some "9:00") 1)
           "9"%char ":00").
  - reflexivity.
  - reflexivity.
  - reflexivity.
  - reflexivity.
Defined.

(** ** create_household *)

Lemma find_snoc_fresh {A} (p : A -> bool) (l : list A) (x : A) :
  find p l = None -> find p (l ++ [x]) = if p x then Some x else None.
Proof.
  induction l as [|a l IH]; cbn; [reflexivity|].
  destruct (p a); [discriminate | exact IH].
Qed.

Lemma find_snoc_found {A} (p : A -> bool) (l : list A) (x y : A) :
  find p l = Some y -> find p (l ++ [x]) = Some y.
Proof.
  induction l as [|a l IH]; cbn; [discriminate|].
  destruct (p a); [auto | exact IH].
Qed.

Lemma below_next_id (ids : list Z) x :
  In x ids -> x < 1 + fold_right Z.max 0 ids.
Proof.
  induction ids as [|y ids IH]; cbn [fold_right In]; [intros []|].
  intros [<-|H]; [lia|]. specialize (IH H). lia.
Qed.

Lemma choice_in_alphabet d : In (choice d) code_alphabet.
Proof.
  unfold choice. apply nth_In. apply Nat.mod_upper_bound. discriminate.
Qed.

Lemma code_of_shape rand j :
  String.length (code_of rand j) = 8%nat
  /\ Forall (fun ch => In ch code_alphabet)
            (list_ascii_of_string (code_of rand j)).
Proof.
  unfold code_of. rewrite list_ascii_of_string_of_list_ascii.
  split; [reflexivity|].
  apply Forall_forall. intros ch Hch.
  apply in_map_iff in Hch as (i & <- & _). apply choice_in_alphabet.
Qed.

(** The loop returns the code of the first turn whose code no household
    has. *)
Lemma generate_household_code_run env rand fuel :
  forall j s,
    read_fails env THousehold = false ->
    (exists k, (k < fuel)%nat
               /\ Household_by_code (code_of rand (j + k)) (working s) = None) ->
    exists k,
      generate_household_code env rand fuel j s
      = (Ok (Some (code_of rand (j + k))), s)
      /\ Household_by_code (code_of rand (j + k)) (working s) = None.
Proof.
  induction fuel as [|fuel IH]; intros j s R (k & Hk & Hfree); [lia|].
  cbn [generate_household_code]. unfold bind, query. rewrite R.
  destruct (Household_by_code (code_of rand j) (working s)) eqn:E.
  - destruct k as [|k]; [rewrite Nat.add_0_r in Hfree; congruence|].
    destruct (IH (S j) s R) as (k' & Hrun & Hfree').
    { exists k. split; [lia|]. rewrite Nat.add_succ_comm. exact Hfree. }
    exists (S k'). rewrite <- Nat.add_succ_comm. auto.
  - exists 0%nat. rewrite Nat.add_0_r. auto.
Qed.

(** X19: A created household is found again by its code and by no other: when
    storage works and the draws reach a free code within the turns given,
    the answer is 201 with a household on the "weekly" cadence whose code
    has eight characters of A-Z, 0-9 and belongs to no earlier household,
    whose id no earlier household has, and the households table grows by
    that row. *)
Theorem create_household_gives_a_fresh_code :
  forall env rand fuel name db ob,
    read_fails env THousehold = false ->
    commit_fails env = false ->
    (exists k, (k < fuel)%nat
               /\ Household_by_code (code_of rand k) db = None) ->
    exists h s',
      create_household env rand fuel (Some name) (mkSession db db ob)
      = (Ok (Some (201, Some h)), s')
      /\ committed s' = insert_household h db
      /\ working s' = committed s'
      /\ Household.name h = name
      /\ Household.rotation_mode h = "weekly"
      /\ String.length (Household.code h) = 8%nat
      /\ Forall (fun ch => In ch code_alphabet)
                (list_ascii_of_string (Household.code h))
      /\ (forall h', In h' (households db) ->
            Household.code h' <> Household.code h
            /\ Household.id h' <> Household.id h)
      /\ Household_by_code (Household.code h) (committed s') = Some h.
Proof.
  intros env rand fuel name db ob R Hcf Hfree.
  destruct (generate_household_code_run env rand fuel 0 (mkSession db db ob) R)
    as (k & Hrun & Hnone); [exact Hfree|].
  cbn [Nat.add working] in Hrun, Hnone.
  unfold create_household, try_except, bind at 1. rewrite Hrun.
  unfold bind at 1, session_objects, bind at 1, modify_working, bind at 1,
    commit. cbn [working committed outbox]. rewrite Hcf.
  eexists _, _. split; [reflexivity|]. cbn [committed working].
  destruct (code_of_shape rand k) as [Hlen Hall].
  repeat split; auto.
  - intros E.
    pose proof (find_none _ _ Hnone h' H) as X. cbn in X.
    cbn [Household.code] in E. rewrite E, String.eqb_refl in X. discriminate.
  - cbn [Household.id]. unfold next_household_id. intros E.
    pose proof (below_next_id (map Household.id (households db))
                  (Household.id h') (in_map Household.id _ _ H)) as X.
    lia.
  - unfold Household_by_code, insert_household. cbn [households Household.code].
    rewrite find_snoc_fresh by exact Hnone.
    cbn [Household.code]. rewrite String.eqb_refl. reflexivity.
Qed.

Lemma create_household_gives_a_fresh_code_witness :
  exists h s',
    create_household calm spelling 3 (Some "Flat") (mkSession taken_db taken_db [])
    = (Ok (Some (201, Some h)), s')
    /\ committed s' = insert_household h taken_db
    /\ working s' = committed s'
    /\ Household.name h = "Flat"
    /\ Household.rotation_mode h = "weekly"
    /\ String.length (Household.code h) = 8%nat
    /\ Forall (fun ch => In ch code_alphabet)
              (list_ascii_of_string (Household.code h))
    /\ (forall h', In h' (households taken_db) ->
          Household.code h' <> Household.code h
          /\ Household.id h' <> Household.id h)
    /\ Household_by_code (Household.code h) (committed s') = Some h.
Proof.
  apply (create_household_gives_a_fresh_code calm spelling 3 "Flat"
           taken_db []).
  - reflexivity.
  - reflexivity.
  - exists 1%nat. split; [lia | reflexivity].
Defined.

(** ** create_chore and update_chore *)

(** X20: A created chore is appended with a fresh key: when storage works and
    the body has a title and days, the answer is 201, the chore is the last
    row of the table and of the household's list, it is incomplete, it
    carries the assignee of the request as given (member or not), and the
    primary keys stay unique. *)
Theorem create_chore_appends_a_fresh_row :
  forall env code data db ob h title days,
    read_fails env THousehold = false ->
    commit_fails env = false ->
    Household_by_code code db = Some h ->
    q_title data = Some title ->
    q_days data = Some days ->
    exists c s',
      create_chore env code data (mkSession db db ob) = (Ok (201, Some c), s')
      /\ working s' = committed s'
      /\ chores (committed s') = (chores db ++ [c])%list
      /\ Chore_filter_by (Household.id h) (committed s')
         = (Chore_filter_by (Household.id h) db ++ [c])%list
      /\ Chore.title c = title /\ Chore.days c = days
      /\ Chore.assigned_to c = q_assigned_to data
      /\ Chore.completed c = false
      /\ Chore.household_id c = Household.id h
      /\ (NoDup (map Chore.id (chores db)) ->
          NoDup (map Chore.id (chores (committed s')))).
Proof.
  intros env code data db ob h title days R Hcf Hh Ht Hd.
  unfold create_chore, bind at 1, query. cbn [working]. rewrite R, Hh, Ht, Hd.
  unfold try_except, bind at 1, session_objects, bind at 1, modify_working,
    bind at 1, commit. cbn [working committed outbox]. rewrite Hcf.
  eexists _, _. split; [reflexivity|]. cbn [committed working].
  split; [reflexivity|]. split; [reflexivity|]. split.
  { unfold Chore_filter_by, insert_chore. cbn [chores].
    rewrite filter_app. cbn [filter Chore.household_id].
    rewrite Z.eqb_refl. reflexivity. }
  repeat (split; [reflexivity|]).
  intros Hpk. unfold insert_chore. cbn [chores].
  rewrite map_app. cbn [map Chore.id].
  apply NoDup_snoc; [assumption|].
  intros Hin. apply below_next_id in Hin. unfold next_chore_id in Hin. lia.
Qed.

Lemma create_chore_appends_a_fresh_row_witness :
  exists c s',
    create_chore calm "AB12CD34"
      (mkChoreRequest (Some "Windows") (Some ["Friday"]) None (Some "Zed"))
      (mkSession trio_db trio_db [])
    = (Ok (201, Some c), s')
    /\ working s' = committed s'
    /\ chores (committed s') = (chores trio_db ++ [c])%list
    /\ Chore_filter_by (Household.id home) (committed s')
       = (Chore_filter_by (Household.id home) trio_db ++ [c])%list
    /\ Chore.title c = "Windows" /\ Chore.days c = ["Friday"]
    /\ Chore.assigned_to c = Some "Zed"
    /\ Chore.completed c = false
    /\ Chore.household_id c = Household.id home
    /\ (NoDup (map Chore.id (chores trio_db)) ->
        NoDup (map Chore.id (chores (committed s')))).
Proof.
  apply (create_chore_appends_a_fresh_row calm "AB12CD34"
           (mkChoreRequest (Some "Windows") (Some ["Friday"]) None
              (Some "Zed"))
           trio_db [] home "Windows" ["Friday"]).
  - reflexivity.
  - reflexivity.
  - reflexivity.
  - reflexivity.
  - reflexivity.
Defined.

Lemma find_map_by_id (x : Z) (f : Chore.t -> Chore.t) (l : list Chore.t) :
  (forall c, Chore.id (f c) = Chore.id c) ->
  find (fun c => Chore.id c =? x)
       (map (fun c => if Chore.id c =? x then f c else c) l)
  = option_map f (find (fun c => Chore.id c =? x) l).
Proof.
  intros Hid. induction l as [|c l IH]; [reflexivity|]. cbn [map find].
  destruct (Z.eqb_spec (Chore.id c) x) as [E|E].
  - rewrite Hid. apply Z.eqb_eq in E. rewrite E. reflexivity.
  - apply Z.eqb_neq in E. rewrite E. exact IH.
Qed.

Lemma find_map_keeps_id (x : Z) (f : Chore.t -> Chore.t) (l : list Chore.t) :
  (forall c, Chore.id (f c) = Chore.id c) ->
  find (fun c => Chore.id c =? x) (map f l)
  = option_map f (find (fun c => Chore.id c =? x) l).
Proof.
  intros Hid. induction l as [|c l IH]; [reflexivity|]. cbn [map find].
  rewrite Hid. destruct (Chore.id c =? x); [reflexivity | exact IH].
Qed.

Lemma update_chore_run env chore_id data db ob c :
  read_fails env TChore = false ->
  commit_fails env = false ->
  Chore_get chore_id db = Some c ->
  update_chore env chore_id data (mkSession db db ob)
  = (Ok (200, Some (apply_update data c)),
     mkSession (write_chore chore_id data db) (write_chore chore_id data db)
               ob).
Proof.
  intros R Hcf Hc.
  unfold update_chore, bind at 1, query. cbn [working]. rewrite R, Hc.
  unfold try_except, bind at 1, modify_working, bind at 1, commit.
  cbn [working committed outbox]. rewrite Hcf. reflexivity.
Qed.

Lemma write_chore_get chore_id data db c :
  Chore_get chore_id db = Some c ->
  Chore_get chore_id (write_chore chore_id data db)
  = Some (apply_update data c).
Proof.
  intros Hc. unfold Chore_get, write_chore in *. cbn [chores].
  rewrite find_map_by_id by reflexivity. rewrite Hc. reflexivity.
Qed.

Lemma write_chore_ids chore_id data db :
  map Chore.id (chores (write_chore chore_id data db))
  = map Chore.id (chores db).
Proof.
  unfold write_chore. cbn [chores]. rewrite map_map. apply map_ext.
  intros r. destruct (Chore.id r =? chore_id); reflexivity.
Qed.

(** X21: An update writes the keys of the body and nothing else: when storage
    works, the chore read back by its id is the old row with exactly the
    given keys replaced (absent keys, the id and the household are kept),
    every other chore is untouched and the primary keys are as before. *)
Theorem update_chore_writes_the_given_keys :
  forall env chore_id data db ob c,
    read_fails env TChore = false ->
    commit_fails env = false ->
    Chore_get chore_id db = Some c ->
    exists s',
      update_chore env chore_id data (mkSession db db ob)
      = (Ok (200, Some (apply_update data c)), s')
      /\ working s' = committed s'
      /\ Chore_get chore_id (committed s') = Some (apply_update data c)
      /\ Chore.title (apply_update data c)
         = match u_title data with Some v => v | None => Chore.title c end
      /\ Chore.assigned_to (apply_update data c)
         = match u_assigned_to data with
           | Some v => v
           | None => Chore.assigned_to c
           end
      /\ Chore.completed (apply_update data c)
         = match u_completed data with
           | Some v => v
           | None => Chore.completed c
           end
      /\ Chore.household_id (apply_update data c) = Chore.household_id c
      /\ map Chore.id (chores (committed s')) = map Chore.id (chores db)
      /\ (forall k r, nth_error (chores db) k = Some r ->
                      Chore.id r <> chore_id ->
                      nth_error (chores (committed s')) k = Some r).
Proof.
  intros env chore_id data db ob c R Hcf Hc.
  rewrite (update_chore_run env chore_id data db ob c R Hcf Hc).
  eexists. split; [reflexivity|]. cbn [committed working].
  split; [reflexivity|].
  split; [apply write_chore_get; exact Hc|].
  repeat (split; [reflexivity|]).
  split; [apply write_chore_ids|].
  intros k r Hk Hne. unfold write_chore. cbn [chores].
  rewrite (nth_error_map_Some _ _ _ _ Hk).
  apply Z.eqb_neq in Hne. rewrite Hne. reflexivity.
Qed.

Lemma update_chore_writes_the_given_keys_witness :
  exists s',
    update_chore calm 2
      (mkChoreUpdate None None None (Some None) (Some true))
      (mkSession trio_db trio_db [])
    = (Ok (200, Some (Chore.mk 2 "Trash" "" ["Monday"; "Thursday"] None true
                        1)), s')
    /\ Chore_get 2 (committed s')
       = Some (Chore.mk 2 "Trash" "" ["Monday"; "Thursday"] None true 1)
    /\ nth_error (chores (committed s')) 0 = Some dishes.
Proof.
  destruct (update_chore_writes_the_given_keys calm 2
              (mkChoreUpdate None None None (Some None) (Some true))
              trio_db [] trash)
    as (s' & Hrun & _ & Hget & _ & _ & _ & _ & _ & Hrest).
  - reflexivity.
  - reflexivity.
  - reflexivity.
  - exists s'. split; [exact Hrun|]. split; [exact Hget|].
    apply (Hrest 0%nat dishes); [reflexivity | discriminate].
Defined.

(** X22: Completion does not survive a rotation: a chore marked complete
    through [update_chore] and assigned to a member is complete in the
    table, and incomplete again after the next successful rotation of its
    household. *)
Theorem completion_is_reset_by_the_next_rotation :
  forall env env' chore_id db ob c a s2 rt,
    read_fails env TChore = false ->
    commit_fails env = false ->
    NoDup (map Chore.id (chores db)) ->
    Chore_get chore_id db = Some c ->
    Chore.assigned_to c = Some a ->
    a <> "" ->
    let s1 := snd (update_chore env chore_id
                     (mkChoreUpdate None None None None (Some true))
                     (mkSession db db ob)) in
    rotate_chores env' (Chore.household_id c) rt s1 = (Ok true, s2) ->
    (exists c1, Chore_get chore_id (committed s1) = Some c1
                /\ Chore.completed c1 = true
                /\ Chore.assigned_to c1 = Some a)
    /\ (exists c2, Chore_get chore_id (committed s2) = Some c2
                   /\ Chore.completed c2 = false).
Proof.
  intros env env' chore_id db ob c a s2 rt R Hcf Hpk Hc Ha Hne s1 Hrot.
  set (data := mkChoreUpdate None None None None (Some true)) in *.
  unfold s1 in *. clear s1.
  rewrite (update_chore_run env chore_id data db ob c R Hcf Hc) in *.
  cbn [snd committed] in *.
  set (db1 := write_chore chore_id data db) in *.
  assert (Hget1 : Chore_get chore_id db1 = Some (apply_update data c))
    by (apply write_chore_get; exact Hc).
  split.
  { exists (apply_update data c). split; [exact Hget1|]. split; [reflexivity|].
    exact Ha. }
  assert (Hpk1 : NoDup (map Chore.id (chores db1)))
    by (unfold db1; rewrite write_chore_ids; exact Hpk).
  destruct (rotate_chores_true _ _ _ _ _ _ Hpk1 Hrot) as (Hr & _ & Rr).
  set (names := ring (Chore.household_id c) db1) in *.
  destruct (successor_Some names a (reaches_commit_ring _ _ _ Hr)) as [n Hn].
  exists (reassign n (apply_update data c)). split; [|reflexivity].
  unfold Chore_get in *. rewrite (ro_chores _ _ _ _ _ _ Rr).
  rewrite find_map_keeps_id by (intros; apply rotate_row_id).
  rewrite Hget1. cbn [option_map]. f_equal.
  unfold rotate_row, retarget, next_assignee.
  cbn [apply_update Chore.household_id Chore.assigned_to or_keep
       u_assigned_to data].
  apply String.eqb_neq in Hne. fold names.
  rewrite Z.eqb_refl, Ha, Hne, Hn. reflexivity.
Qed.

Lemma completion_is_reset_by_the_next_rotation_witness :
  (exists c1,
     Chore_get 2 (committed (snd (update_chore calm 2
                                    (mkChoreUpdate None None None None
                                       (Some true))
                                    (mkSession trio_db trio_db []))))
     = Some c1
     /\ Chore.completed c1 = true /\ Chore.assigned_to c1 = Some "Cy")
  /\ (exists c2,
        Chore_get 2
          (committed (snd (rotate_chores calm 1 "weekly"
                             (snd (update_chore calm 2
                                     (mkChoreUpdate None None None None
                                        (Some true))
                                     (mkSession trio_db trio_db []))))))
        = Some c2
        /\ Chore.completed c2 = false).
Proof.
  apply (completion_is_reset_by_the_next_rotation calm calm 2 trio_db []
           trash "Cy" _ "weekly").
  - reflexivity.
  - reflexivity.
  - nodup_tac.
  - reflexivity.
  - reflexivity.
  - discriminate.
  - vm_compute; reflexivity.
Defined.

(** ** delete_household *)

Lemma filter_filter_out {A} (key : A -> Z) (x : Z) (l : list A) :
  filter (fun a => key a =? x) (filter (fun a => negb (key a =? x)) l) = [].
Proof.
  apply filter_nil_iff. intros a Ha. apply filter_In in Ha as [_ Ha].
  apply negb_true_iff in Ha. exact Ha.
Qed.

Lemma filter_filter_keep {A} (key : A -> Z) (x y : Z) (l : list A) :
  x <> y ->
  filter (fun a => key a =? y) (filter (fun a => negb (key a =? x)) l)
  = filter (fun a => key a =? y) l.
Proof.
  intros Hne. induction l as [|a l IH]; [reflexivity|]. cbn [filter].
  destruct (Z.eqb_spec (key a) x) as [E|E]; cbn [negb filter].
  - destruct (Z.eqb_spec (key a) y) as [E'|E']; [congruence | exact IH].
  - destruct (key a =? y); [f_equal|]; exact IH.
Qed.

Lemma should_rotate_unknown env hid s :
  Household_get hid (working s) = None ->
  should_rotate env hid s = (Ok false, s).
Proof.
  intros H. unfold should_rotate, try_except, bind, query. rewrite H.
  destruct (read_fails env THousehold); reflexivity.
Qed.

Lemma delete_household_run env code db ob h :
  read_fails env THousehold = false ->
  commit_fails env = false ->
  Household_by_code code db = Some h ->
  delete_household env code (mkSession db db ob)
  = (Ok 200, mkSession (purge (Household.id h) db) (purge (Household.id h) db)
                       ob).
Proof.
  intros R Hcf Hh.
  unfold delete_household, bind at 1, query. cbn [working]. rewrite R, Hh.
  unfold try_except, bind at 1, modify_working, bind at 1, commit.
  cbn [working committed outbox]. rewrite Hcf. reflexivity.
Qed.

(** X23: A deleted household leaves nothing behind and takes nothing along:
    when storage works, the answer is 200, no household, member, chore, log
    row, history row or preference with its id is left, in each of the six
    tables the rows of every other household are those there were, in their
    order, and from then on the household is never due and a rotation of it
    returns [False]. *)
Theorem delete_household_leaves_nothing_behind :
  forall env code db ob h,
    read_fails env THousehold = false ->
    commit_fails env = false ->
    Household_by_code code db = Some h ->
    exists s',
      delete_household env code (mkSession db db ob) = (Ok 200, s')
      /\ working s' = committed s'
      /\ Household_get (Household.id h) (committed s') = None
      /\ Member_filter_by (Household.id h) (committed s') = []
      /\ Chore_filter_by (Household.id h) (committed s') = []
      /\ (forall n, In n (notifications (committed s')) ->
                    Notification.household_id n <> Household.id h)
      /\ (forall r, In r (rotation_history (committed s')) ->
                    RotationHistory.household_id r <> Household.id h)
      /\ (forall p, In p (member_preferences (committed s')) ->
                    MemberPreference.household_id p <> Household.id h)
      /\ (forall other,
            other <> Household.id h ->
            Household_get other (committed s') = Household_get other db
            /\ Member_filter_by other (committed s') = Member_filter_by other db
            /\ Chore_filter_by other (committed s') = Chore_filter_by other db
            /\ RotationHistory_last other (committed s')
               = RotationHistory_last other db
            /\ filter (fun h' => Household.id h' =? other)
                      (households (committed s'))
               = filter (fun h' => Household.id h' =? other) (households db)
            /\ filter (fun n => Notification.household_id n =? other)
                      (notifications (committed s'))
               = filter (fun n => Notification.household_id n =? other)
                        (notifications db)
            /\ filter (fun r => RotationHistory.household_id r =? other)
                      (rotation_history (committed s'))
               = filter (fun r => RotationHistory.household_id r =? other)
                        (rotation_history db)
            /\ filter (fun p => MemberPreference.household_id p =? other)
                      (member_preferences (committed s'))
               = filter (fun p => MemberPreference.household_id p =? other)
                        (member_preferences db))
      /\ (forall env' rt,
            should_rotate env' (Household.id h) s' = (Ok false, s')
            /\ rotate_chores env' (Household.id h) rt s' = (Ok false, s')).
Proof.
  intros env code db ob h R Hcf Hh.
  rewrite (delete_household_run env code db ob h R Hcf Hh).
  eexists. split; [reflexivity|]. cbn [working committed].
  set (x := Household.id h).
  assert (Hgone : Household_get x (purge x db) = None).
  { unfold Household_get, purge. cbn [households].
    destruct (find _ _) as [h'|] eqn:F; [|reflexivity].
    apply find_some in F as [Hin E]. apply filter_In in Hin as [_ Hn].
    rewrite E in Hn. discriminate. }
  split; [reflexivity|]. split; [exact Hgone|].
  split; [apply (filter_filter_out Member.household_id)|].
  split; [apply (filter_filter_out Chore.household_id)|].
  split.
  { intros n Hn. apply filter_In in Hn as [_ Hn].
    apply negb_true_iff, Z.eqb_neq in Hn. exact Hn. }
  split.
  { intros r Hr. apply filter_In in Hr as [_ Hr].
    apply negb_true_iff, Z.eqb_neq in Hr. exact Hr. }
  split.
  { intros p Hp. apply filter_In in Hp as [_ Hp].
    apply negb_true_iff, Z.eqb_neq in Hp. exact Hp. }
  split.
  { intros other Hne.
    assert (Hne' : x <> other) by (intros E; apply Hne; symmetry; exact E).
    split.
    { unfold Household_get, purge. cbn [households].
      induction (households db) as [|h0 l IH]; [reflexivity|].
      cbn [filter find].
      destruct (Z.eqb_spec (Household.id h0) x) as [E|E]; cbn [negb find].
      - destruct (Z.eqb_spec (Household.id h0) other); [congruence | exact IH].
      - destruct (Household.id h0 =? other); [reflexivity | exact IH]. }
    split; [apply (filter_filter_keep Member.household_id); exact Hne'|].
    split; [apply (filter_filter_keep Chore.household_id); exact Hne'|].
    split.
    { unfold RotationHistory_last, purge. cbn [rotation_history].
      rewrite (filter_filter_keep RotationHistory.household_id) by exact Hne'.
      reflexivity. }
    unfold purge.
    cbn [households notifications rotation_history member_preferences].
    split; [apply (filter_filter_keep Household.id); exact Hne'|].
    split; [apply (filter_filter_keep Notification.household_id); exact Hne'|].
    split; [apply (filter_filter_keep RotationHistory.household_id);
            exact Hne'|].
    apply (filter_filter_keep MemberPreference.household_id); exact Hne'. }
  intros env' rt. split.
  - apply should_rotate_unknown. exact Hgone.
  - apply rotate_chores_stops. unfold reaches_commit. rewrite Hgone.
    destruct (read_fails env' THousehold); reflexivity.
Qed.

Lemma delete_household_leaves_nothing_behind_witness :
  exists s',
    delete_household calm "AB12CD34" (mkSession two_homes_db two_homes_db [])
    = (Ok 200, s')
    /\ Chore_filter_by 1 (committed s') = []
    /\ Chore_filter_by 2 (committed s') = Chore_filter_by 2 two_homes_db
    /\ rotate_chores calm 1 "weekly" s' = (Ok false, s').
Proof.
  destruct (delete_household_leaves_nothing_behind calm "AB12CD34"
              two_homes_db [] home)
    as (s' & Hrun & _ & _ & _ & Hc & _ & _ & _ & Hother & Hafter).
  - reflexivity.
  - reflexivity.
  - reflexivity.
  - exists s'. split; [exact Hrun|]. split; [exact Hc|].
    split; [apply (Hother 2); discriminate|].
    apply (Hafter calm "weekly").
Defined.

(** ** manual_rotate_chores *)

(** X24: The manual trigger answers 500 for a household that simply has no
    chores or no members, with storage working and nothing changed; an
    unknown code answers 404. *)
Theorem manual_rotation_of_an_empty_household_is_an_error :
  forall env code db ob,
    read_fails env THousehold = false ->
    (Household_by_code code db = None ->
     manual_rotate_chores env code (mkSession db db ob)
     = (Ok 404, mkSession db db ob))
    /\ (forall h,
          Household_by_code code db = Some h ->
          Chore_filter_by (Household.id h) db = []
          \/ Member_filter_by (Household.id h) db = [] ->
          manual_rotate_chores env code (mkSession db db ob)
          = (Ok 500, mkSession db db ob)).
Proof.
  intros env code db ob R. split.
  - intros Hh. unfold manual_rotate_chores, bind, query. cbn [working].
    rewrite R, Hh. reflexivity.
  - intros h Hh Hempty.
    unfold manual_rotate_chores, bind at 1, query. cbn [working].
    rewrite R, Hh. unfold try_except, bind.
    rewrite rotate_chores_stops; [reflexivity|].
    unfold reaches_commit.
    destruct Hempty as [-> | ->]; cbn [is_nil negb];
      rewrite ?andb_false_r; reflexivity.
Qed.

Lemma manual_rotation_of_an_empty_household_is_an_error_witness :
  manual_rotate_chores calm "AB12CD34"
    (mkSession memberless_db memberless_db [])
  = (Ok 500, mkSession memberless_db memberless_db []).
Proof.
  destruct (manual_rotation_of_an_empty_household_is_an_error calm "AB12CD34"
              memberless_db [] eq_refl) as [_ H].
  apply (H home); [reflexivity | right; reflexivity].
Defined.

(** ** send_notification *)

Lemma wants_mail_ext hid db db' m :
  member_preferences db' = member_preferences db ->
  wants_mail hid db' m = wants_mail hid db m.
Proof.
  intros E. unfold wants_mail.
  rewrite (MemberPreference_first_ext hid _ db' db E). reflexivity.
Qed.

Lemma notification_record_keeps_outbox env hid mn ct nt msg cid s :
  outbox (snd (create_notification_record env hid mn ct nt msg cid s))
  = outbox s.
Proof.
  unfold create_notification_record, try_except, bind.
  destruct mn as [n|]; simpl; [|reflexivity].
  unfold commit; simpl. destruct (insert_fails env _); reflexivity.
Qed.

Lemma notify_custom_run env h msg ms :
  forall n s,
    clean s ->
    read_fails env TMemberPreference = false ->
    exists s',
      notify_custom env h msg ms n s
      = (Ok (n + Z.of_nat
                   (List.length
                      (filter (wants_mail (Household.id h) (working s)) ms))),
         s')
      /\ clean s'
      /\ log_only s s'
      /\ ((forall e, smtp_fails env e = true) -> outbox s' = outbox s).
Proof.
  induction ms as [|m ms IH]; intros n s Hc R.
  - exists s. cbn. rewrite Z.add_0_r. auto using log_only_refl.
  - cbn [notify_custom filter]. unfold bind at 1.
    destruct (create_notification_record_run env (Household.id h)
                (Some (Member.name m)) "Custom Message" "custom" msg None s Hc)
      as (b & s1 & E1 & Hc1 & L1).
    pose proof (notification_record_keeps_outbox env (Household.id h)
                  (Some (Member.name m)) "Custom Message" "custom" msg None s)
      as Ho1.
    rewrite E1 in Ho1 |- *. cbn [snd] in Ho1.
    assert (Ep : member_preferences (working s1)
                 = member_preferences (working s)).
    { unfold clean in Hc, Hc1. rewrite Hc1, Hc.
      apply (lo_preferences _ _ L1). }
    unfold bind at 1, query. rewrite R.
    rewrite <- (wants_mail_ext (Household.id h) _ _ m Ep).
    rewrite <- (filter_ext _ _
                  (fun m' => wants_mail_ext (Household.id h) _ _ m' Ep) ms).
    assert (Skip : exists s',
               notify_custom env h msg ms n s1
               = (Ok (n + Z.of_nat
                            (List.length
                               (filter
                                  (wants_mail (Household.id h) (working s1))
                                  ms))), s')
               /\ clean s' /\ log_only s s'
               /\ ((forall e, smtp_fails env e = true) ->
                   outbox s' = outbox s)).
    { destruct (IH n s1 Hc1 R) as (s2 & E2 & Hc2 & L2 & Ho2).
      exists s2. split; [exact E2|]. split; [assumption|].
      split; [eapply log_only_trans; eassumption|].
      intros Hs. rewrite (Ho2 Hs). exact Ho1. }
    unfold wants_mail at 1.
    destruct (MemberPreference_first (Household.id h) (Some (Member.name m))
                (working s1)) as [p|]; [|exact Skip].
    destruct (MemberPreference.email p) as [addr|]; [|exact Skip].
    destruct (negb (addr =? "")%string
              && MemberPreference.notification_enabled p);
      [|exact Skip].
    clear Skip. unfold bind at 1.
    destruct (send_email_notification_run env addr
                ("HomeSync Message from " ++ Household.name h) msg s1 Hc1)
      as (b2 & s2 & E2 & Hc2 & L2).
    assert (Ho2 : (forall e, smtp_fails env e = true) -> outbox s2 = outbox s1).
    { intros Hs. revert E2. unfold send_email_notification. rewrite Hs.
      intros [= _ <-]. reflexivity. }
    rewrite E2.
    assert (Ep2 : member_preferences (working s2)
                  = member_preferences (working s1)).
    { unfold clean in Hc1, Hc2. rewrite Hc2, Hc1.
      apply (lo_preferences _ _ L2). }
    destruct (IH (n + 1) s2 Hc2 R) as (s3 & E3 & Hc3 & L3 & Ho3).
    exists s3. split.
    + rewrite E3. f_equal. f_equal. cbn [List.length].
      rewrite (filter_ext _ _
                 (fun m' => wants_mail_ext (Household.id h) _ _ m' Ep2) ms).
      lia.
    + split; [assumption|].
      split; [eapply log_only_trans; [|eassumption];
              eapply log_only_trans; eassumption|].
      intros Hs. rewrite (Ho3 Hs), (Ho2 Hs). exact Ho1.
Qed.

(** X25: [send_notification] answers 200 with [sent_count] equal to the number of
    members whose first preference record has a non-empty address and
    notifications enabled, whatever the outcome of each insert and each
    delivery: when every delivery fails the count is the same and no
    message has left. *)
Theorem send_notification_counts_attempts env code msg h s :
  clean s ->
  read_fails env THousehold = false ->
  read_fails env TMember = false ->
  read_fails env TMemberPreference = false ->
  Household_by_code code (working s) = Some h ->
  exists s',
    send_notification env code (Some msg) s
    = (Ok (200,
           Z.of_nat (List.length
                       (filter (wants_mail (Household.id h) (working s))
                          (Member_filter_by (Household.id h) (working s)))),
           Z.of_nat (List.length
                       (Member_filter_by (Household.id h) (working s)))),
       s')
    /\ log_only s s'
    /\ ((forall e, smtp_fails env e = true) -> outbox s' = outbox s).
Proof.
  intros Hc Rh Rm Rp Hh.
  set (members := Member_filter_by (Household.id h) (working s)).
  destruct (notify_custom_run env h msg members 0 s Hc Rp)
    as (s' & E & Hc' & L & Ho).
  exists s'. split; [|split; assumption].
  unfold send_notification, bind at 1, query. rewrite Rh, Hh.
  unfold try_except, bind at 1, query. rewrite Rm.
  fold members. unfold bind. rewrite E. cbn. reflexivity.
Qed.

Lemma send_notification_counts_attempts_witness :
  exists s',
    send_notification deaf "AB12CD34" (Some "hello")
      (mkSession timely_db timely_db [])
    = (Ok (200, 1, 2), s')
    /\ outbox s' = [].
Proof.
  destruct (send_notification_counts_attempts deaf "AB12CD34" "hello" steady
              (mkSession timely_db timely_db []))
    as (s' & E & _ & Ho);
    try reflexivity.
  exists s'. split; [exact E | apply Ho; reflexivity].
Defined.

(** ** Member preferences *)

Lemma find_update_first_same {A} (test : A -> bool) (f : A -> A) l :
  (forall x, test (f x) = test x) ->
  find test (update_first test f l) = option_map f (find test l).
Proof.
  intros Hk. induction l as [|x l IH]; [reflexivity|].
  cbn [update_first find]. destruct (test x) eqn:T.
  - cbn [find option_map]. rewrite Hk, T. reflexivity.
  - cbn [find]. rewrite T. exact IH.
Qed.

Lemma find_update_first_other {A} (test test' : A -> bool) (f : A -> A) l :
  (forall x, test' (f x) = test' x) ->
  (forall x, test x = true -> test' x = false) ->
  find test' (update_first test f l) = find test' l.
Proof.
  intros Hk Hd. induction l as [|x l IH]; [reflexivity|].
  cbn [update_first find]. destruct (test x) eqn:T.
  - cbn [find]. rewrite Hk, (Hd x T). reflexivity.
  - cbn [find]. rewrite IH. reflexivity.
Qed.

(** X26: A successful update of a member's preferences answers with the stored
    record changed at the keys of the body; reading the preferences back
    returns that record, and the first record of every other member is the
    one it was. *)
Theorem preferences_read_back_as_written env code name data h p db ob :
  read_fails env THousehold = false ->
  read_fails env TMemberPreference = false ->
  commit_fails env = false ->
  Household_by_code code db = Some h ->
  MemberPreference_first (Household.id h) (Some name) db = Some p ->
  exists s',
    update_member_preferences env code name data (mkSession db db ob)
    = (Ok (200, Some (apply_preferences data p)), s')
    /\ get_member_preferences env code name s'
       = (Ok (200, Some (apply_preferences data p)), s')
    /\ (forall hid other,
           (hid =? Household.id h) && (other =? name)%string = false ->
           MemberPreference_first hid (Some other) (working s')
           = MemberPreference_first hid (Some other) db).
Proof.
  intros Rh Rp Cf Hh Hp.
  eexists. split; [|split].
  - unfold update_member_preferences, bind at 1, query. cbn [working].
    rewrite Rh, Hh. unfold bind at 1, query. cbn [working]. rewrite Rp, Hp.
    unfold try_except, bind, modify_working, commit. cbn. rewrite Cf.
    reflexivity.
  - unfold get_member_preferences, bind at 1, query. cbn [working households].
    rewrite Rh. unfold write_preferences at 1, Household_by_code.
    cbn [households]. fold (Household_by_code code db). rewrite Hh.
    unfold bind, query. cbn [working]. rewrite Rp.
    unfold MemberPreference_first, write_preferences. cbn [member_preferences].
    rewrite find_update_first_same by reflexivity.
    unfold MemberPreference_first in Hp. rewrite Hp. reflexivity.
  - intros hid other Hd. cbn [working].
    unfold MemberPreference_first, write_preferences. cbn [member_preferences].
    apply find_update_first_other; [reflexivity|].
    intros x T. apply andb_true_iff in T. destruct T as [T1 T2].
    apply Z.eqb_eq in T1. apply String.eqb_eq in T2. rewrite T1, T2.
    rewrite Z.eqb_sym, String.eqb_sym. exact Hd.
Qed.

Lemma preferences_read_back_as_written_witness :
  exists s',
    update_member_preferences calm "AB12CD34" "Bob"
      (mkPreferenceUpdate None None (Some false) (Some (Some "18:45")) None)
      (mkSession timely_db timely_db [])
    = (Ok (200, Some (MemberPreference.mk "Bob" 1 (Some "bob@example.org")
                        None false (Some "18:45") 1)), s')
    /\ get_member_preferences calm "AB12CD34" "Bob" s'
       = (Ok (200, Some (MemberPreference.mk "Bob" 1 (Some "bob@example.org")
                           None false (Some "18:45") 1)), s').
Proof.
  destruct (preferences_read_back_as_written calm "AB12CD34" "Bob"
              (mkPreferenceUpdate None None (Some false) (Some (Some "18:45"))
                                  None)
              steady bob_preference timely_db [])
    as (s' & E1 & E2 & _); try reflexivity.
  exists s'. split; [exact E1 | exact E2].
Defined.

(** ** Joining twice *)

(** X18: A join answered with 201 has stored one member row and one
    preference row built from the request, after the rows there were, a null
    reminder time being stored as the column default "09:00"; a later join
    to the same code under the same name is answered with 200 and changes
    nothing, whatever else the second request carries. *)
Theorem second_join_changes_nothing env code data db ob s' :
  join_household env code data (mkSession db db ob) = (Ok 201, s') ->
  (exists h,
      Household_by_code code db = Some h
      /\ members (committed s')
         = (members db
            ++ [Member.mk (next_member_id db) (j_name data) (j_is_admin data)
                          (Household.id h)])%list
      /\ member_preferences (committed s')
         = (member_preferences db
            ++ [MemberPreference.mk (j_name data) (Household.id h)
                  (j_email data) (j_phone data) (j_notification_enabled data)
                  (Some (match j_reminder_time data with
                         | Some t => t
                         | None => "09:00"
                         end))
                  (j_reminder_days_before data)])%list)
  /\ (forall env' data',
         read_fails env' THousehold = false ->
         read_fails env' TMember = false ->
         j_name data' = j_name data ->
         join_household env' code data' s' = (Ok 200, s')).
Proof.
  unfold join_household at 1, bind at 1, query. cbn [working].
  destruct (read_fails env THousehold); [discriminate|].
  destruct (Household_by_code code db) as [h|] eqn:Hh; [|discriminate].
  unfold bind at 1. cbn [working].
  destruct (read_fails env TMember); [discriminate|].
  destruct (Member_first (Household.id h) (j_name data) db) eqn:F;
    [discriminate|].
  unfold try_except, bind at 1, session_objects, bind at 1, modify_working,
    bind at 1, bind at 1, commit.
  cbn [working committed outbox].
  destruct (commit_fails env); [cbn; discriminate|].
  set (m := Member.mk _ _ _ _). set (p := MemberPreference.mk _ _ _ _ _ _ _).
  set (db1 := insert_preference p (insert_member m db)).
  unfold bind.
  destruct (create_notification_record_run env (Household.id h)
              (Some (j_name data)) "Welcome" "welcome"
              ("Welcome to " ++ Household.name h
               ++ "! You've successfully joined the household.") None
              (mkSession db1 db1 ob) eq_refl)
    as (b & s1 & -> & Hc1 & L).
  intros [= <-].
  split.
  - exists h. split; [reflexivity|].
    rewrite (lo_members _ _ L), (lo_preferences _ _ L). split; reflexivity.
  - intros env' data' Rh Rm En.
    unfold join_household, bind at 1, query. rewrite Rh.
    unfold clean in Hc1.
    assert (Eh : Household_by_code code (working s1) = Some h).
    { unfold Household_by_code. rewrite Hc1, (lo_households _ _ L). exact Hh. }
    rewrite Eh. unfold bind, query. rewrite Rm.
    assert (Em : Member_first (Household.id h) (j_name data') (working s1)
                 = Some m).
    { unfold Member_first. rewrite Hc1, (lo_members _ _ L), En.
      cbn [committed db1 insert_preference insert_member members].
      unfold Member_first in F. rewrite (find_snoc_fresh _ _ m F).
      unfold m. cbn [Member.household_id Member.name].
      rewrite Z.eqb_refl, String.eqb_refl. reflexivity. }
    rewrite Em. reflexivity.
Qed.

Lemma second_join_changes_nothing_witness :
  map Member.name (members (committed dee_joined))
  = ["Ann"; "Bob"; "Cy"; "Dee"]
  /\ join_household calm "AB12CD34"
       (mkJoin "Dee" true None None false None 3) dee_joined
     = (Ok 200, dee_joined).
Proof.
  destruct (second_join_changes_nothing calm "AB12CD34" dee trio_db []
              dee_joined)
    as [(h & _ & Em & _) Again]; [reflexivity|].
  split.
  - rewrite Em. reflexivity.
  - apply Again; reflexivity.
Defined.

Lemma rotation_all_or_nothing_witness :
  chores (committed trio_refused) = chores trio_db
  /\ rotation_history (committed trio_refused) = rotation_history trio_db.
Proof.
  destruct (rotation_all_or_nothing commit_broken 1 "weekly" trio_db [])
    as [H|[H _]].
  - repeat constructor; cbn; intuition discriminate.
  - exact H.
  - exfalso. revert H. vm_compute. discriminate.
Defined.

Lemma join_household_keeps_names_unique_witness :
  names_unique (committed dee_joined).
Proof.
  apply (join_household_keeps_names_unique calm "AB12CD34" dee trio_db []
           (fst (join_household calm "AB12CD34" dee
                   (mkSession trio_db trio_db [])))).
  - intros hid. unfold ring, Member_filter_by. cbn [trio_db members trio map filter Member.household_id Member.name].
    destruct (1 =? hid); cbn; repeat constructor; cbn; intuition discriminate.
  - apply surjective_pairing.
Defined.

Lemma sweep_is_the_passes_witness :
  sweep calm (mkSession timely_db timely_db [])
  = for_each [steady] (process_household calm)
      (mkSession timely_db timely_db []).
Proof.
  apply (sweep_is_the_passes calm (mkSession timely_db timely_db [])).
  reflexivity.
Defined.
